(** * pyTMD tide-correction drivers: shallow embedding and checked properties

    The two drivers of the repository,
    [scripts/compute_tides_icebridge_data.py] (airborne Operation IceBridge
    product) and [scripts/compute_tides_ICESat2_ATL11.py] (ICESat-2 repeat-track
    product), are embedded as Rocq functions:

    - numpy [float64] values are the kernel's binary64 floats ([PrimFloat]);
    - Python strings are [string]; slices are [substring];
    - patterns of Python's [re] are terms of [Re.re], run by a backtracking
      matcher with Python's priorities (greedy / lazy, leftmost alternative);
    - numpy arrays are lists, masked arrays are a data list with a mask list;
    - the external services (harmonic extraction, prediction, leap seconds,
      delta time, the HDF5 readers) are fields of a record the drivers take
      as an argument;
    - exceptions and the order of file accesses are explicit: a driver returns
      the list of I/O events it performed and either a value or an error;
    - what the operating system answers (the content of a path, the home
      directory of a user, whether a file can be created or its permission
      bits set) is part of the surroundings a driver takes as an argument. *)

From Stdlib Require Import ZArith List String Ascii Bool Lia Floats.
Import ListNotations.

Local Open Scope list_scope.
Local Open Scope string_scope.

(* ================================================================== *)
(** * Python's [re] module *)
(* ================================================================== *)

Module Re.

(** Abstract syntax of the patterns the drivers use. *)
Inductive re : Type :=
| Eps                                  (* empty pattern *)
| Chr (p : ascii -> bool)              (* one character satisfying [p] *)
| Seq (r1 r2 : re)                     (* r1 r2 *)
| Alt (r1 r2 : re)                     (* r1|r2, leftmost first *)
| Star (greedy : bool) (r : re)        (* r* when greedy, r*? otherwise *)
| Group (n : nat) (r : re)             (* n-th capturing group *)
| Eol.                                 (* $ *)

Definition is_digit (a : ascii) : bool :=
  let n := nat_of_ascii a in (48 <=? n)%nat && (n <=? 57)%nat.

Definition newline : ascii := ascii_of_nat 10.

(** [.] matches anything but a newline (no DOTALL flag is used). *)
Definition dot : re := Chr (fun a => negb (Ascii.eqb a newline)).
(** [\d] *)
Definition digit : re := Chr is_digit.
Definition chr (a : ascii) : re := Chr (Ascii.eqb a).

Fixpoint lit (s : string) : re :=
  match s with
  | EmptyString => Eps
  | String a s' => Seq (chr a) (lit s')
  end.

(** r+ , r+? , r? and r{n} *)
Definition plus (r : re) : re := Seq r (Star true r).
Definition opt (r : re) : re := Alt r Eps.
Fixpoint rep (n : nat) (r : re) : re :=
  match n with
  | O => Eps
  | S n' => Seq r (rep n' r)
  end.

Fixpoint seqs (rs : list re) : re :=
  match rs with
  | [] => Eps
  | r :: rs' => Seq r (seqs rs')
  end.

Fixpoint alts (rs : list re) : re :=
  match rs with
  | [] => Chr (fun _ => false)
  | [r] => r
  | r :: rs' => Alt r (alts rs')
  end.

(** Captured groups: number and text, latest binding first. *)
Definition caps : Type := list (nat * string).

Fixpoint group (c : caps) (n : nat) : option string :=
  match c with
  | [] => None
  | (i, s) :: c' => if Nat.eqb i n then Some s else group c' n
  end.

(** What [findall] and [Match.groups(default='')] give for a group. *)
Definition group_text (c : caps) (n : nat) : string :=
  match group c n with
  | Some s => s
  | None => ""
  end.

Definition result : Type := (string * caps)%type.

(** Backtracking matcher in continuation-passing style: [run r s c k] matches
    [r] at the start of [s] and hands the rest of the input and the captures to
    [k]; the first success in priority order is returned.  An iteration of a
    star must consume input. *)
Fixpoint run (r : re) (s : string) (c : caps)
    (k : string -> caps -> option result) {struct r} : option result :=
  match r with
  | Eps => k s c
  | Chr p =>
      match s with
      | String a s' => if p a then k s' c else None
      | EmptyString => None
      end
  | Seq r1 r2 => run r1 s c (fun s' c' => run r2 s' c' k)
  | Alt r1 r2 =>
      match run r1 s c k with
      | Some x => Some x
      | None => run r2 s c k
      end
  | Star g r1 =>
      (fix loop (n : nat) (s : string) (c : caps) {struct n} : option result :=
         match n with
         | O => k s c
         | S n' =>
             if g then
               match run r1 s c (fun s' c' =>
                       if (length s' <? length s)%nat then loop n' s' c'
                       else None) with
               | Some x => Some x
               | None => k s c
               end
             else
               match k s c with
               | Some x => Some x
               | None =>
                   run r1 s c (fun s' c' =>
                     if (length s' <? length s)%nat then loop n' s' c'
                     else None)
               end
         end) (length s) s c
  | Group i r1 =>
      run r1 s c (fun s' c' =>
        k s' ((i, substring 0 (length s - length s') s) :: c'))
  | Eol =>
      match s with
      | EmptyString => k s c
      | String a EmptyString => if Ascii.eqb a newline then k s c else None
      | _ => None
      end
  end.

(** [re.match(r, s)]: anchored at the start of [s]. *)
Definition rmatch (r : re) (s : string) : option caps :=
  match run r s [] (fun s' c' => Some (s', c')) with
  | Some (_, c) => Some c
  | None => None
  end.

(** [re.findall(r, s)]: the captures of the successive non-overlapping
    matches, scanning from the left. *)
Fixpoint findall_from (fuel : nat) (r : re) (s : string) : list caps :=
  match fuel with
  | O => []
  | S fuel' =>
      match run r s [] (fun s' c' => Some (s', c')) with
      | Some (s', c) =>
          c :: (if (length s' <? length s)%nat then findall_from fuel' r s'
                else match s with
                     | EmptyString => []
                     | String _ t => findall_from fuel' r t
                     end)
      | None =>
          match s with
          | EmptyString => []
          | String _ t => findall_from fuel' r t
          end
      end
  end.

Definition findall (r : re) (s : string) : list caps :=
  findall_from (S (length s)) r s.

End Re.

(* ================================================================== *)
(** * numpy [float64] and Python's number conversions *)
(* ================================================================== *)

Module F64.

Local Open Scope Z_scope.

(** An integer as a float: exact below 2^53, rounded to nearest-even above. *)
Definition of_Z (z : Z) : float :=
  let f := SF2Prim (binary_normalize prec emax (Z.abs z) 0 false) in
  if z <? 0 then (- f)%float else f.

(** The float nearest to [(-1)^neg * N * 10^e10] (ties to even), as [strtod]
    returns it: the quotient by a power of ten is truncated with a sticky bit
    at 64 bits or more, then rounded once. *)
Definition of_decimal (neg : bool) (N e10 : Z) : float :=
  let sf :=
    if N =? 0 then S754_zero false
    else if 0 <=? e10 then binary_normalize prec emax (N * 10 ^ e10) 0 false
    else
      let D := 10 ^ (- e10) in
      let s := Z.log2_up D + 64 in
      let q := (N * 2 ^ s) / D in
      let r := (N * 2 ^ s) mod D in
      binary_normalize prec emax (2 * q + (if r =? 0 then 0 else 1))
        (- (s + 1)) false in
  let f := SF2Prim sf in
  if neg then (- f)%float else f.

Definition digit_val (a : ascii) : Z := Z.of_nat (nat_of_ascii a) - 48.

(** Value of a string of decimal digits (most significant first). *)
Fixpoint digits_val (acc : Z) (s : string) : Z :=
  match s with
  | EmptyString => acc
  | String a s' => digits_val (10 * acc + digit_val a) s'
  end.

Definition sign_chr : Re.re :=
  Re.Chr (fun a => Ascii.eqb a "-" || Ascii.eqb a "+").

Definition is_minus (s : string) : bool := String.eqb s "-".

(** [int(s)] for a decimal literal with an optional sign; [None] is
    Python's ValueError. *)
Definition int_rx : Re.re :=
  Re.seqs [Re.Group 1 (Re.opt sign_chr); Re.Group 2 (Re.plus Re.digit); Re.Eol].

Definition int_of_string (s : string) : option Z :=
  match Re.rmatch int_rx s with
  | Some c =>
      let v := digits_val 0 (Re.group_text c 2) in
      Some (if is_minus (Re.group_text c 1) then - v else v)
  | None => None
  end.

(** [np.float64(s)] / [float(s)] for a decimal literal: sign, digits with an
    optional point, optional exponent; [None] is Python's ValueError. *)
Definition float_rx : Re.re :=
  Re.seqs [Re.Group 1 (Re.opt sign_chr);
           Re.Group 2 (Re.Star true Re.digit);
           Re.opt (Re.Seq (Re.chr ".") (Re.Group 3 (Re.Star true Re.digit)));
           Re.opt (Re.seqs [Re.Chr (fun a => Ascii.eqb a "e" || Ascii.eqb a "E");
                            Re.Group 4 (Re.opt sign_chr);
                            Re.Group 5 (Re.plus Re.digit)]);
           Re.Eol].

Definition of_string (s : string) : option float :=
  match Re.rmatch float_rx s with
  | Some c =>
      let ip := Re.group_text c 2 in
      let fp := Re.group_text c 3 in
      if (String.length (ip ++ fp)%string =? 0)%nat then None
      else
        let ex := digits_val 0 (Re.group_text c 5) in
        let ex := if is_minus (Re.group_text c 4) then - ex else ex in
        Some (of_decimal (is_minus (Re.group_text c 1))
                (digits_val 0 (ip ++ fp)%string)
                (ex - Z.of_nat (String.length fp)))
  | None => None
  end.

(** Quotient of [n >= 0] by [d > 0] rounded to the nearest integer, ties to
    even. *)
Definition round_half_even (n d : Z) : Z :=
  let q := n / d in
  let r := n mod d in
  if 2 * r <? d then q
  else if d <? 2 * r then q + 1
  else if Z.even q then q else q + 1.

Fixpoint digits_of_pos (fuel : nat) (n : Z) (acc : string) : string :=
  match fuel with
  | O => acc
  | S fuel' =>
      let acc' := String (ascii_of_nat (Z.to_nat (48 + n mod 10))) acc in
      if n <? 10 then acc' else digits_of_pos fuel' (n / 10) acc'
  end.

(** Decimal digits of [n >= 0]. *)
Definition string_of_Z (n : Z) : string :=
  digits_of_pos (S (Z.to_nat (Z.log2_up (n + 1)))) n "".

Fixpoint repeat_chr (a : ascii) (n : nat) : string :=
  match n with
  | O => ""
  | S n' => String a (repeat_chr a n')
  end.

(** Sign and unsigned body of [format(x, '.<p>f')]. *)
Definition fixed_body (p : nat) (x : float) : bool * string :=
  match Prim2SF x with
  | S754_nan => (false, "nan")
  | S754_infinity s => (s, "inf")
  | S754_zero s =>
      (s, ("0" ++ (if (p =? 0)%nat then "" else "." ++ repeat_chr "0" p))%string)
  | S754_finite s m e =>
      let n := Zpos m * 10 ^ Z.of_nat p in
      let r := if 0 <=? e then n * 2 ^ e else round_half_even n (2 ^ (- e)) in
      let ds := string_of_Z r in
      let ds := (repeat_chr "0" (S p - String.length ds) ++ ds)%string in
      let il := (String.length ds - p)%nat in
      (s, (substring 0 il ds ++
           (if (p =? 0)%nat then "" else "." ++ substring il p ds))%string)
  end.

(** ['{0:0<w>.<p>f}'.format(x)] when [zero] is set (zeros between the sign
    and the digits), ['{0:<w>.<p>f}'.format(x)] otherwise (spaces on the
    left). *)
Definition format_f (zero : bool) (w p : nat) (x : float) : string :=
  let '(s, body) := fixed_body p x in
  let sg := if s then "-" else "" in
  let pad := (w - (String.length sg + String.length body))%nat in
  if zero then (sg ++ repeat_chr "0" pad ++ body)%string
  else (repeat_chr " " pad ++ sg ++ body)%string.

(** numpy's [x % d] for a float [x] and a positive integer constant [d]:
    C [fmod] (exact), then the result is moved to the sign of [d]. *)
Definition fmod_pos (x : float) (d : Z) : float :=
  match Prim2SF x with
  | S754_nan | S754_infinity _ => nan
  | S754_zero s => if s then neg_zero else zero
  | S754_finite s m e =>
      let r :=
        if 0 <=? e then of_Z ((Zpos m * 2 ^ e) mod d)
        else Z.ldexp (of_Z (Zpos m mod (d * 2 ^ (- e)))) e in
      if s then (- r)%float else r
  end.

(** [np.floor] *)
Definition floor (x : float) : float :=
  match Prim2SF x with
  | S754_finite s m e =>
      if 0 <=? e then x
      else
        let q := Zpos m / 2 ^ (- e) in
        let r := Zpos m mod 2 ^ (- e) in
        if s then of_Z (- (q + (if r =? 0 then 0 else 1))) else of_Z q
  | _ => x
  end.

Definition mod_pos (x : float) (d : Z) : float :=
  let r := fmod_pos x d in
  if is_nan r then r
  else if (r =? 0)%float then zero
  else if (r <? 0)%float then (r + of_Z d)%float
  else r.

End F64.

(* ================================================================== *)
(** * Exceptions and file accesses *)
(* ================================================================== *)

Module Py.

Inductive error : Type :=
| IndexError                        (* pop from empty list, index out of range *)
| ValueError                        (* bad literal, shape mismatch, unpacking *)
| AttributeError                    (* attribute of None *)
| KeyError                          (* missing dictionary key or dataset *)
| UnboundLocalError (name : string) (* variable read before assignment *)
| OSError                           (* file cannot be opened *)
| ModelIOError                      (* the harmonic service failed *)
| SystemExit.                       (* argparse rejected the command line *)

Inductive event : Type :=
| ReadInput (path : string)         (* the input file is opened and read *)
| ReadModel                         (* the harmonic service reads model files *)
| ReadDeltaTime                     (* the delta-time table is read *)
| CreateOutput (path : string)      (* the output file is created *)
| Chmod (path : string).            (* permission bits are applied *)

(** A computation: the file accesses performed, in order, and the outcome. *)
Definition M (A : Type) : Type := (list event * (error + A))%type.

Definition ret {A : Type} (a : A) : M A := ([], inr a).
Definition raise {A : Type} (e : error) : M A := ([], inl e).
Definition emit (ev : event) : M unit := ([ev], inr tt).

Definition bind {A B : Type} (m : M A) (f : A -> M B) : M B :=
  match m with
  | (t, inl e) => (t, inl e)
  | (t, inr a) => let '(t', r) := f a in ((t ++ t')%list, r)
  end.

Definition lift {A : Type} (e : error) (o : option A) : M A :=
  match o with
  | Some a => ret a
  | None => raise e
  end.

(** A local variable that is bound only on some paths. *)
Definition var {A : Type} (name : string) (o : option A) : M A :=
  lift (UnboundLocalError name) o.

Fixpoint mapM {A B : Type} (f : A -> M B) (l : list A) : M (list B) :=
  match l with
  | [] => ret []
  | a :: l' => bind (f a) (fun b => bind (mapM f l') (fun bs => ret (b :: bs)))
  end.

(** [h5py.File(path, 'w')]: the file is created, or emptied, when the
    operating system allows it. *)
Definition create (allowed : string -> bool) (path : string) : M unit :=
  if allowed path then emit (CreateOutput path) else raise OSError.

(** [os.chmod(path, MODE)] *)
Definition chmod (allowed : string -> bool) (path : string) : M unit :=
  if allowed path then emit (Chmod path) else raise OSError.

Definition trace {A : Type} (m : M A) : list event := fst m.
Definition outcome {A : Type} (m : M A) : error + A := snd m.

End Py.

Declare Scope py_scope.
Delimit Scope py_scope with py.
Notation "x <- c ;; k" := (Py.bind c (fun x => k))
  (at level 61, c at next level, right associativity) : py_scope.
Notation "c ;;; k" := (Py.bind c (fun _ => k))
  (at level 61, right associativity) : py_scope.

(* ================================================================== *)
(** * numpy arrays and os.path *)
(* ================================================================== *)

Module Np.

(** [a[idx]] for a list of non-negative indices: the elements at those
    positions, in the order of [idx]; [None] is IndexError. *)
Fixpoint take {A : Type} (a : list A) (idx : list nat) : option (list A) :=
  match idx with
  | [] => Some []
  | i :: idx' =>
      match nth_error a i, take a idx' with
      | Some x, Some xs => Some (x :: xs)
      | _, _ => None
      end
  end.

(** [np.count_nonzero] of a boolean array. *)
Definition count_nonzero (l : list bool) : nat :=
  List.length (filter (fun b => b) l).

(** One step of numpy's minimum / maximum reduction: NaN propagates. *)
Definition fmin (a b : float) : float :=
  if is_nan a then a else if is_nan b then b
  else if (b <? a)%float then b else a.

Definition fmax (a b : float) : float :=
  if is_nan a then a else if is_nan b then b
  else if (a <? b)%float then b else a.

(** [np.min(a)] and [a.max()]; [None] is the ValueError of an empty array. *)
Definition min (a : list float) : option float :=
  match a with
  | [] => None
  | x :: a' => Some (fold_left fmin a' x)
  end.

Definition max (a : list float) : option float :=
  match a with
  | [] => None
  | x :: a' => Some (fold_left fmax a' x)
  end.

(** [range(a, b)] *)
Definition range (a b : nat) : list nat := seq a (b - a).

(** [dst[:] = src] for a destination of [n] elements: same length, or a
    single element that is broadcast; [None] is ValueError. *)
Definition assign_all {A : Type} (n : nat) (src : list A) : option (list A) :=
  if (List.length src =? n)%nat then Some src
  else match src with
       | [x] => Some (repeat x n)
       | _ => None
       end.

(** Positions of the [true] entries: [np.nonzero(m)]. *)
Fixpoint nonzero_from (i : nat) (m : list bool) : list nat :=
  match m with
  | [] => []
  | b :: m' => if b then i :: nonzero_from (S i) m' else nonzero_from (S i) m'
  end.

Definition nonzero (m : list bool) : list nat := nonzero_from 0 m.

(** [dst[idx] = src], the values of [src] going to the positions [idx] in
    order. *)
Fixpoint set_nth {A : Type} (i : nat) (x : A) (l : list A) : list A :=
  match l, i with
  | [], _ => []
  | _ :: l', O => x :: l'
  | y :: l', S i' => y :: set_nth i' x l'
  end.

Fixpoint scatter {A : Type} (dst : list A) (idx : list nat) (src : list A)
    : list A :=
  match idx, src with
  | i :: idx', x :: src' => scatter (set_nth i x dst) idx' src'
  | _, _ => dst
  end.

(** [dst[idx] = src] with its checks: an index past the end is IndexError, a
    source of another length than [idx] is a shape error (a single value is
    broadcast). *)
Definition put {A : Type} (dst : list A) (idx : list nat) (src : list A)
    : option (list A) :=
  if forallb (fun i => (i <? List.length dst)%nat) idx then
    match assign_all (List.length idx) src with
    | Some src' => Some (scatter dst idx src')
    | None => None
    end
  else None.

(** [a.flat = src] for an array of [n] elements: the values of [src] are
    repeated in cycle, or cut, to fill it; an empty [src] is an error as
    soon as there is something to fill. *)
Definition flat_assign {A : Type} (n : nat) (src : list A) : option (list A) :=
  match src with
  | [] => if (n =? 0)%nat then Some [] else None
  | x :: _ =>
      Some (map (fun i => nth (i mod List.length src) src x) (seq 0 n))
  end.

Fixpoint zip {A B : Type} (a : list A) (b : list B) : list (A * B) :=
  match a, b with
  | x :: a', y :: b' => (x, y) :: zip a' b'
  | _, _ => []
  end.

(** An element-wise binary operation on one-dimensional arrays, with
    numpy's broadcasting: equal lengths, or one operand of length one;
    [None] is ValueError. *)
Definition broadcast2 {A B C : Type} (f : A -> B -> C)
    (a : list A) (b : list B) : option (list C) :=
  if (List.length a =? List.length b)%nat
  then Some (map (fun p => f (fst p) (snd p)) (zip a b))
  else match a, b with
       | [x], _ => Some (map (f x) b)
       | _, [y] => Some (map (fun x => f x y) a)
       | _, _ => None
       end.

(** [d[key]] of a dictionary kept as the list of its items, in insertion
    order. *)
Fixpoint lookup {A : Type} (d : list (string * A)) (key : string) : option A :=
  match d with
  | [] => None
  | (k, v) :: d' => if String.eqb k key then Some v else lookup d' key
  end.

(** [l.pop()] / [l[-1]]: the last element. *)
Fixpoint last_opt {A : Type} (l : list A) : option A :=
  match l with
  | [] => None
  | [x] => Some x
  | _ :: l' => last_opt l'
  end.

End Np.

Module Path.

Definition slash : ascii := "/"%char.

(** Text after the last [/] of [s], given the text [acc] since the last
    [/] seen so far (reversed scan is avoided: [acc] restarts at each [/]). *)
Fixpoint basename_from (acc s : string) : string :=
  match s with
  | EmptyString => acc
  | String a s' =>
      if Ascii.eqb a slash then basename_from "" s'
      else basename_from (acc ++ String a "") s'
  end.

(** [os.path.basename] (POSIX). *)
Definition basename (s : string) : string := basename_from "" s.

(** [os.path.dirname] (POSIX): the head without its trailing slashes, unless
    it is made of slashes only. *)
Fixpoint strip_slashes (rev_head : list ascii) : list ascii :=
  match rev_head with
  | a :: t => if Ascii.eqb a slash then strip_slashes t else rev_head
  | [] => []
  end.

Definition dirname (s : string) : string :=
  let n := (String.length s - String.length (basename s))%nat in
  let head := list_ascii_of_string (substring 0 n s) in
  match strip_slashes (rev head) with
  | [] => string_of_list_ascii head
  | r => string_of_list_ascii (rev r)
  end.

(** Position of the last dot of [s] that has a character other than a dot
    somewhere before it ([i] is the position of the head of [s], [seen] tells
    whether a non-dot character came before). *)
Fixpoint last_dot (i : nat) (seen : bool) (s : string) : option nat :=
  match s with
  | EmptyString => None
  | String a s' =>
      let isdot := Ascii.eqb a "."%char in
      match last_dot (S i) (seen || negb isdot) s' with
      | Some j => Some j
      | None => if isdot && seen then Some i else None
      end
  end.

(** [os.path.splitext] (POSIX): the extension starts at the last dot of the
    last component; leading dots of the component do not count. *)
Definition splitext (s : string) : string * string :=
  let b := basename s in
  let n := (String.length s - String.length b)%nat in
  match last_dot 0 false b with
  | Some j =>
      (substring 0 (n + j) s, substring (n + j) (String.length s) s)
  | None => (s, "")
  end.

(** [os.path.join(a, b)] (POSIX). *)
Definition join (a b : string) : string :=
  match b with
  | String c _ =>
      if Ascii.eqb c slash then b
      else match a with
           | EmptyString => b
           | _ =>
               if Ascii.eqb (List.last (list_ascii_of_string a) slash) slash
               then a ++ b else a ++ "/" ++ b
           end
  | EmptyString =>
      match a with
      | EmptyString => ""
      | _ =>
          if Ascii.eqb (List.last (list_ascii_of_string a) slash) slash
          then a else a ++ "/"
      end
  end.

(** [s.rstrip('/')] *)
Definition rstrip_slashes (s : string) : string :=
  string_of_list_ascii (rev (strip_slashes (rev (list_ascii_of_string s)))).

(** The text before the first [/] of [s], and the rest from that [/] on. *)
Fixpoint split_at_slash (s : string) : string * string :=
  match s with
  | EmptyString => ("", "")
  | String a s' =>
      if Ascii.eqb a slash then ("", s)
      else let '(name, tail) := split_at_slash s' in (String a name, tail)
  end.

(** [os.path.expanduser] (POSIX): a leading [~] or [~name] is replaced by
    the home directory of the user.  [home name] is that directory, for the
    current user when [name] is empty ([HOME], or else the password
    database); when it is not known the path is left as it is. *)
Definition expanduser (home : string -> option string) (path : string)
    : string :=
  match path with
  | String a rest =>
      if Ascii.eqb a "~" then
        let '(name, tail) := split_at_slash rest in
        match home name with
        | Some userhome =>
            match (rstrip_slashes userhome ++ tail)%string with
            | EmptyString => "/"
            | expanded => expanded
            end
        | None => path
        end
      else path
  | EmptyString => path
  end.

End Path.

(* ================================================================== *)
(** * Model registry and external services (shared by the two drivers) *)
(* ================================================================== *)

Module Tide.

Inductive format : Type := OTIS | ATLAS | netcdf | GOT | FES.

(** What a branch of the [if (TIDE_MODEL == ...)] chain binds.  Paths are
    relative to [tide_dir]; a variable a branch leaves unbound is [None].
    The attribute texts ([reference], long names, descriptions) are left
    out. *)
Record descriptor : Type := Build_descriptor {
  model_format : format;
  grid_file : option string;
  model_file : list string;
  output_variable : string;
  EPSG : option string;
  TYPE : option string;
  SCALE : option float;
  GZIP : option bool;
  constituents : option (list string)
}.

Definition tide_ocean : string := "tide_ocean".
Definition tide_load : string := "tide_load".

Definition in_dir (d : string) (files : list string) : list string :=
  map (fun m => d ++ "/" ++ m) files.

Definition tpxo9_atlas_files : list string :=
  ["h_q1_tpxo9_atlas_30.nc.gz"; "h_o1_tpxo9_atlas_30.nc.gz";
   "h_p1_tpxo9_atlas_30.nc.gz"; "h_k1_tpxo9_atlas_30.nc.gz";
   "h_n2_tpxo9_atlas_30.nc.gz"; "h_m2_tpxo9_atlas_30.nc.gz";
   "h_s2_tpxo9_atlas_30.nc.gz"; "h_k2_tpxo9_atlas_30.nc.gz";
   "h_m4_tpxo9_atlas_30.nc.gz"; "h_ms4_tpxo9_atlas_30.nc.gz";
   "h_mn4_tpxo9_atlas_30.nc.gz"; "h_2n2_tpxo9_atlas_30.nc.gz"].
Definition tpxo9_atlas_v2_files : list string :=
  ["h_q1_tpxo9_atlas_30_v2.nc.gz"; "h_o1_tpxo9_atlas_30_v2.nc.gz";
   "h_p1_tpxo9_atlas_30_v2.nc.gz"; "h_k1_tpxo9_atlas_30_v2.nc.gz";
   "h_n2_tpxo9_atlas_30_v2.nc.gz"; "h_m2_tpxo9_atlas_30_v2.nc.gz";
   "h_s2_tpxo9_atlas_30_v2.nc.gz"; "h_k2_tpxo9_atlas_30_v2.nc.gz";
   "h_m4_tpxo9_atlas_30_v2.nc.gz"; "h_ms4_tpxo9_atlas_30_v2.nc.gz";
   "h_mn4_tpxo9_atlas_30_v2.nc.gz"; "h_2n2_tpxo9_atlas_30_v2.nc.gz"].
Definition tpxo9_atlas_v3_files : list string :=
  ["h_q1_tpxo9_atlas_30_v3.nc.gz"; "h_o1_tpxo9_atlas_30_v3.nc.gz";
   "h_p1_tpxo9_atlas_30_v3.nc.gz"; "h_k1_tpxo9_atlas_30_v3.nc.gz";
   "h_n2_tpxo9_atlas_30_v3.nc.gz"; "h_m2_tpxo9_atlas_30_v3.nc.gz";
   "h_s2_tpxo9_atlas_30_v3.nc.gz"; "h_k2_tpxo9_atlas_30_v3.nc.gz";
   "h_m4_tpxo9_atlas_30_v3.nc.gz"; "h_ms4_tpxo9_atlas_30_v3.nc.gz";
   "h_mn4_tpxo9_atlas_30_v3.nc.gz"; "h_2n2_tpxo9_atlas_30_v3.nc.gz";
   "h_mf_tpxo9_atlas_30_v3.nc.gz"; "h_mm_tpxo9_atlas_30_v3.nc.gz"].
Definition tpxo9_atlas_v4_files : list string :=
  ["h_q1_tpxo9_atlas_30_v4"; "h_o1_tpxo9_atlas_30_v4";
   "h_p1_tpxo9_atlas_30_v4"; "h_k1_tpxo9_atlas_30_v4";
   "h_n2_tpxo9_atlas_30_v4"; "h_m2_tpxo9_atlas_30_v4";
   "h_s2_tpxo9_atlas_30_v4"; "h_k2_tpxo9_atlas_30_v4";
   "h_m4_tpxo9_atlas_30_v4"; "h_ms4_tpxo9_atlas_30_v4";
   "h_mn4_tpxo9_atlas_30_v4"; "h_2n2_tpxo9_atlas_30_v4";
   "h_mf_tpxo9_atlas_30_v4"; "h_mm_tpxo9_atlas_30_v4"].
Definition got_ocean_files : list string :=
  ["q1.d.gz"; "o1.d.gz"; "p1.d.gz"; "k1.d.gz"; "n2.d.gz"; "m2.d.gz";
   "s2.d.gz"; "k2.d.gz"; "s1.d.gz"; "m4.d.gz"].
Definition got_load_files : list string :=
  ["q1load.d.gz"; "o1load.d.gz"; "p1load.d.gz"; "k1load.d.gz";
   "n2load.d.gz"; "m2load.d.gz"; "s2load.d.gz"; "k2load.d.gz";
   "s1load.d.gz"; "m4load.d.gz"].
Definition fes_files : list string :=
  ["2n2.nc.gz"; "eps2.nc.gz"; "j1.nc.gz"; "k1.nc.gz"; "k2.nc.gz";
   "l2.nc.gz"; "la2.nc.gz"; "m2.nc.gz"; "m3.nc.gz"; "m4.nc.gz"; "m6.nc.gz";
   "m8.nc.gz"; "mf.nc.gz"; "mks2.nc.gz"; "mm.nc.gz"; "mn4.nc.gz";
   "ms4.nc.gz"; "msf.nc.gz"; "msqm.nc.gz"; "mtm.nc.gz"; "mu2.nc.gz";
   "n2.nc.gz"; "n4.nc.gz"; "nu2.nc.gz"; "o1.nc.gz"; "p1.nc.gz"; "q1.nc.gz";
   "r2.nc.gz"; "s1.nc.gz"; "s2.nc.gz"; "s4.nc.gz"; "sa.nc.gz"; "ssa.nc.gz";
   "t2.nc.gz"].
Definition fes_constituents : list string :=
  ["2n2"; "eps2"; "j1"; "k1"; "k2"; "l2"; "lambda2"; "m2"; "m3"; "m4"; "m6";
   "m8"; "mf"; "mks2"; "mm"; "mn4"; "ms4"; "msf"; "msqm"; "mtm"; "mu2"; "n2";
   "n4"; "nu2"; "o1"; "p1"; "q1"; "r2"; "s1"; "s2"; "s4"; "sa"; "ssa"; "t2"].

(** The chain [if (TIDE_MODEL == 'CATS0201'): ... elif ...:] of both drivers
    (the same 23 branches, in the same order, with no [else]): [None] when no
    branch is taken, which leaves every model variable unbound. *)
Definition select_model (TIDE_MODEL : string) : option descriptor :=
  if TIDE_MODEL =? "CATS0201" then
    Some (Build_descriptor OTIS (Some "cats0201_tmd/grid_CATS")
      ["cats0201_tmd/h0_CATS02_01"]
      tide_ocean (Some "4326") (Some "z") None None None)
  else if TIDE_MODEL =? "CATS2008" then
    Some (Build_descriptor OTIS (Some "CATS2008/grid_CATS2008")
      ["CATS2008/hf.CATS2008.out"]
      tide_ocean (Some "CATS2008") (Some "z") None None None)
  else if TIDE_MODEL =? "CATS2008_load" then
    Some (Build_descriptor OTIS
      (Some "CATS2008a_SPOTL_Load/grid_CATS2008a_opt")
      ["CATS2008a_SPOTL_Load/h_CATS2008a_SPOTL_load"]
      tide_load (Some "CATS2008") (Some "z") None None None)
  else if TIDE_MODEL =? "TPXO9-atlas" then
    Some (Build_descriptor netcdf (Some "TPXO9_atlas/grid_tpxo9_atlas.nc.gz")
      (in_dir "TPXO9_atlas" tpxo9_atlas_files)
      tide_ocean None (Some "z") (Some (1 / 1000)%float) (Some true) None)
  else if TIDE_MODEL =? "TPXO9-atlas-v2" then
    Some (Build_descriptor netcdf
      (Some "TPXO9_atlas_v2/grid_tpxo9_atlas_30_v2.nc.gz")
      (in_dir "TPXO9_atlas_v2" tpxo9_atlas_v2_files)
      tide_ocean None (Some "z") (Some (1 / 1000)%float) (Some true) None)
  else if TIDE_MODEL =? "TPXO9-atlas-v3" then
    Some (Build_descriptor netcdf
      (Some "TPXO9_atlas_v3/grid_tpxo9_atlas_30_v3.nc.gz")
      (in_dir "TPXO9_atlas_v3" tpxo9_atlas_v3_files)
      tide_ocean None (Some "z") (Some (1 / 1000)%float) (Some true) None)
  else if TIDE_MODEL =? "TPXO9-atlas-v4" then
    Some (Build_descriptor OTIS (Some "TPXO9_atlas_v4/grid_tpxo9_atlas_30_v4")
      (in_dir "TPXO9_atlas_v4" tpxo9_atlas_v4_files)
      tide_ocean (Some "4326") (Some "z") None None None)
  else if TIDE_MODEL =? "TPXO9.1" then
    Some (Build_descriptor OTIS (Some "TPXO9.1/DATA/grid_tpxo9")
      ["TPXO9.1/DATA/h_tpxo9.v1"]
      tide_ocean (Some "4326") (Some "z") None None None)
  else if TIDE_MODEL =? "TPXO8-atlas" then
    Some (Build_descriptor ATLAS (Some "tpxo8_atlas/grid_tpxo8atlas_30_v1")
      ["tpxo8_atlas/hf.tpxo8_atlas_30_v1"]
      tide_ocean (Some "4326") (Some "z") None None None)
  else if TIDE_MODEL =? "TPXO7.2" then
    Some (Build_descriptor OTIS (Some "TPXO7.2_tmd/grid_tpxo7.2")
      ["TPXO7.2_tmd/h_tpxo7.2"]
      tide_ocean (Some "4326") (Some "z") None None None)
  else if TIDE_MODEL =? "TPXO7.2_load" then
    Some (Build_descriptor OTIS (Some "TPXO7.2_load/grid_tpxo6.2")
      ["TPXO7.2_load/h_tpxo7.2_load"]
      tide_load (Some "4326") (Some "z") None None None)
  else if TIDE_MODEL =? "AODTM-5" then
    Some (Build_descriptor OTIS (Some "aodtm5_tmd/grid_Arc5km")
      ["aodtm5_tmd/h0_Arc5km.oce"]
      tide_ocean (Some "PSNorth") (Some "z") None None None)
  else if TIDE_MODEL =? "AOTIM-5" then
    Some (Build_descriptor OTIS (Some "aotim5_tmd/grid_Arc5km")
      ["aotim5_tmd/h_Arc5km.oce"]
      tide_ocean (Some "PSNorth") (Some "z") None None None)
  else if TIDE_MODEL =? "AOTIM-5-2018" then
    Some (Build_descriptor OTIS (Some "Arc5km2018/grid_Arc5km2018")
      ["Arc5km2018/h_Arc5km2018"]
      tide_ocean (Some "PSNorth") (Some "z") None None None)
  else if TIDE_MODEL =? "Gr1km-v2" then
    Some (Build_descriptor OTIS (Some "greenlandTMD_v2/grid_Greenland8.v2")
      ["greenlandTMD_v2/h_Greenland8.v2"]
      tide_ocean (Some "3413") (Some "z") None None None)
  else if TIDE_MODEL =? "GOT4.7" then
    Some (Build_descriptor GOT None
      (in_dir "GOT4.7/grids_oceantide" got_ocean_files)
      tide_ocean None None (Some (1 / 100)%float) (Some true) None)
  else if TIDE_MODEL =? "GOT4.7_load" then
    Some (Build_descriptor GOT None
      (in_dir "GOT4.7/grids_loadtide" got_load_files)
      tide_load None None (Some (1 / 1000)%float) (Some true) None)
  else if TIDE_MODEL =? "GOT4.8" then
    Some (Build_descriptor GOT None
      (in_dir "got4.8/grids_oceantide" got_ocean_files)
      tide_ocean None None (Some (1 / 100)%float) (Some true) None)
  else if TIDE_MODEL =? "GOT4.8_load" then
    Some (Build_descriptor GOT None
      (in_dir "got4.8/grids_loadtide" got_load_files)
      tide_load None None (Some (1 / 1000)%float) (Some true) None)
  else if TIDE_MODEL =? "GOT4.10" then
    Some (Build_descriptor GOT None
      (in_dir "GOT4.10c/grids_oceantide" got_ocean_files)
      tide_ocean None None (Some (1 / 100)%float) (Some true) None)
  else if TIDE_MODEL =? "GOT4.10_load" then
    Some (Build_descriptor GOT None
      (in_dir "GOT4.10c/grids_loadtide" got_load_files)
      tide_load None None (Some (1 / 1000)%float) (Some true) None)
  else if TIDE_MODEL =? "FES2014" then
    Some (Build_descriptor FES None
      (in_dir "fes2014/ocean_tide" fes_files)
      tide_ocean None (Some "z") (Some (1 / 100)%float) (Some true)
      (Some fes_constituents))
  else if TIDE_MODEL =? "FES2014_load" then
    Some (Build_descriptor FES None
      (in_dir "fes2014/load_tide" fes_files)
      tide_load None (Some "z") (Some (1 / 100)%float) (Some true)
      (Some fes_constituents))
  else None.

(** [model_choices] of both [main()] functions: the values argparse accepts
    for [--tide]. *)
Definition model_choices : list string :=
  ["CATS0201"; "CATS2008"; "CATS2008_load";
   "TPXO9-atlas"; "TPXO9-atlas-v2"; "TPXO9-atlas-v3"; "TPXO9-atlas-v4";
   "TPXO9.1"; "TPXO8-atlas"; "TPXO7.2"; "TPXO7.2_load";
   "AODTM-5"; "AOTIM-5"; "AOTIM-5-2018"; "Gr1km-v2";
   "GOT4.7"; "GOT4.7_load"; "GOT4.8"; "GOT4.8_load"; "GOT4.10";
   "GOT4.10_load"; "FES2014"; "FES2014_load"].

(** One harmonic constant [hc = amp*exp(-1j*ph*pi/180)] of a point, with the
    mask bit of the masked array. *)
Record hconst : Type := Build_hconst {
  hc_re : float;
  hc_im : float;
  hc_masked : bool
}.

(** The constants of one point, one per constituent: a row of [hc]. *)
Definition hc_row : Type := list hconst.

(** [np.any(hc.mask, axis=1)] for one row. *)
Definition row_masked (r : hc_row) : bool := existsb hc_masked r.

(** Epochs are the tuples the drivers pass. *)
Definition epoch : Type := list Z.
Definition GPS_epoch : epoch := [1980; 1; 6; 0; 0; 0]%Z.
Definition J2000_epoch : epoch := [2000; 1; 1; 12; 0; 0; 0]%Z.
Definition J2000_epoch6 : epoch := [2000; 1; 1; 12; 0; 0]%Z.
Definition tide_epoch : epoch := [1992; 1; 1; 0; 0; 0]%Z.

(** Options of a run that only the services look at. *)
Record options : Type := Build_options {
  tide_dir : string;
  METHOD : string;
  EXTRAPOLATE : bool;
  CUTOFF : option float
}.

(** The external collaborators.  The time and delta-time routines act on
    arrays element by element and are given per element.  The harmonic
    service stands for [extract_tidal_constants], [extract_netcdf_constants],
    [extract_GOT_constants] or [extract_FES_constants] followed by
    [hc = amp*np.exp(-1j*ph*np.pi/180.0)] (a complex exponential is outside
    the arithmetic of the kernel's floats); [None] is its failure. *)
Record services : Type := Build_services {
  (* pyTMD.time.convert_calendar_dates(year, month, day, hour=, minute=,
     second=, epoch=, scale=86400.0) *)
  convert_calendar_dates :
    epoch -> float -> Z -> Z -> float -> float -> float -> float;
  (* pyTMD.time.count_leap_seconds *)
  count_leap_seconds : float -> float;
  (* pyTMD.time.convert_delta_time(x, epoch1=, epoch2=, scale=1.0/86400.0) *)
  convert_delta_time : epoch -> epoch -> float -> float;
  (* calc_delta_time(delta_file, t) *)
  calc_delta_time : float -> float;
  harmonic_constants :
    options -> string -> descriptor -> list float -> list float ->
    option (list hc_row);
  (* predict_tide_drift(t, hc, c, DELTAT=, CORRECTIONS=): the data of the
     returned array *)
  predict_tide_drift :
    list float -> list hc_row -> list float -> format -> list float;
  (* infer_minor_corrections(t, hc, c, DELTAT=, CORRECTIONS=).data *)
  infer_minor_corrections :
    list float -> list hc_row -> list float -> format -> list float
}.

End Tide.

(* ================================================================== *)
(** * scripts/compute_tides_icebridge_data.py *)
(* ================================================================== *)

Module IceBridge.

Import Re Py Tide.
Local Open Scope py_scope.

(** What a path holds: a text file (its lines, as [f.read().splitlines()]
    gives them) or a container of named one-dimensional datasets (an HDF5
    file, or a QFIT binary file as [read_ATM1b_QFIT_binary] returns it). *)
Inductive content : Type :=
| Text (lines : list string)
| Datasets (d : list (string * list float)).

(** The surroundings of a run: what each path holds ([None]: it cannot be
    opened), the home directories that [os.path.expanduser] finds, and the
    paths at which a file can be created and at which permission bits can
    be set. *)
Record filesystem : Type := Build_filesystem {
  content_of : string -> option content;
  user_home : string -> option string;
  can_create : string -> bool;
  can_chmod : string -> bool
}.

(** [open(path,'r')] and [f.read().splitlines()] *)
Definition read_lines (fs : filesystem) (path : string) : M (list string) :=
  emit (ReadInput path) ;;;
  match content_of fs path with
  | Some (Text l) => ret l
  | _ => raise OSError
  end.

(** [h5py.File(path,'r')] or [ATM1b.read_ATM1b_QFIT_binary(path)] *)
Definition open_datasets (fs : filesystem) (path : string)
    : M (list (string * list float)) :=
  emit (ReadInput path) ;;;
  match content_of fs path with
  | Some (Datasets d) => ret d
  | _ => raise OSError
  end.

Definition dataset (d : list (string * list float)) (key : string)
    : M (list float) :=
  lift KeyError (Np.lookup d key).

(** [re.match(r'^(?!\#)', i)]: the line does not start with [#]. *)
Definition uncommented (i : string) : bool :=
  match i with
  | String a _ => negb (Ascii.eqb a "#")
  | EmptyString => true
  end.

(** A subsetter is used when it is a non-empty list. *)
Definition truthy (input_subsetter : option (list nat)) : option (list nat) :=
  match input_subsetter with
  | Some (i :: l) => Some (i :: l)
  | _ => None
  end.

(** [file_length(input_file, input_subsetter, HDF5=False, QFIT=False)].
    The record count of a QFIT file ([ATM1b_QFIT_shape]) is the length of
    its latitude array. *)
Definition file_length (fs : filesystem) (input_file : string)
    (input_subsetter : option (list nat)) (HDF5 : option string) (QFIT : bool)
    : M nat :=
  match truthy input_subsetter with
  | Some idx => ret (List.length idx)
  | None =>
      match HDF5 with
      | Some key =>
          d <- open_datasets fs input_file ;;
          v <- dataset d key ;;
          ret (List.length v)
      | None =>
          if QFIT then
            d <- open_datasets fs input_file ;;
            v <- dataset d "latitude" ;;
            ret (List.length v)
          else
            l <- read_lines fs input_file ;;
            ret (List.length (filter uncommented l))
      end
  end.

(** ** Filename grammars *)

Definition mission (names : list string) : re := alts (map lit names).

(** r'(BLATM1B|ILATM1B|ILNSA1B)_(\d+)_(\d+)(.*?).(qi|TXT|h5)' *)
Definition qfit_rx : re :=
  seqs [Group 1 (mission ["BLATM1B"; "ILATM1B"; "ILNSA1B"]); chr "_";
        Group 2 (plus digit); chr "_"; Group 3 (plus digit);
        Group 4 (Star false dot); dot;
        Group 5 (mission ["qi"; "TXT"; "h5"])].

(** r'(BLATM2|ILATM2)_(\d+)_(\d+)_smooth_nadir(.*?)(csv|seg|pt)$' *)
Definition icessn_rx : re :=
  seqs [Group 1 (mission ["BLATM2"; "ILATM2"]); chr "_";
        Group 2 (plus digit); chr "_"; Group 3 (plus digit);
        lit "_smooth_nadir"; Group 4 (Star false dot);
        Group 5 (mission ["csv"; "seg"; "pt"]); Eol].

(** r'{0}_(.*?)(\d+)_(\d+)_(R\d+)_(\d+).H5', with or without a final [$] *)
Definition lvis_rx_of (names : list string) (anchored : bool) : re :=
  seqs [Group 1 (mission names); chr "_"; Group 2 (Star false dot);
        Group 3 (plus digit); chr "_"; Group 4 (plus digit); chr "_";
        Group 5 (Seq (chr "R") (plus digit)); chr "_";
        Group 6 (plus digit); dot; lit "H5";
        if anchored then Eol else Eps].

Definition lvis_rx : re :=
  lvis_rx_of ["BLVIS2"; "BVLIS2"; "ILVIS2"; "ILVGH2"] false.

(** r'[-+]?(?:(?:\d*\.\d+)|(?:\d+\.?))(?:[Ee][+-]?\d+)?': a number in a
    line of text (group 0 is the whole match). *)
Definition number_rx : re :=
  Group 0
    (seqs [opt F64.sign_chr;
           Alt (seqs [Star true digit; chr "."; plus digit])
               (Seq (plus digit) (opt (chr ".")));
           opt (seqs [Chr (fun a => Ascii.eqb a "e" || Ascii.eqb a "E");
                      opt F64.sign_chr; plus digit])]).

Definition numbers (line : string) : list string :=
  map (fun c => group_text c 0) (findall number_rx line).

(** [np.float64(s)] *)
Definition float64 (s : string) : M float := lift ValueError (F64.of_string s).

(** [s[i:]] *)
Definition from (i : nat) (s : string) : string :=
  substring i (String.length s - i) s.

(** ** Dates of ATM file names *)

(** [year = (ypre + 1900.0) if (ypre >= 90) else (ypre + 2000.0)] *)
Definition two_digit_year (ypre : Z) : float :=
  if (90 <=? ypre)%Z then (F64.of_Z ypre + 1900)%float
  else (F64.of_Z ypre + 2000)%float.

(** The year (as the float or integer the source computes, here a float),
    month and day of the date token of an ATM file name.  A token of six
    digits has a two-digit year: 90 and above is 19xx, below is 20xx.
    [None]: the token has neither six nor eight characters and [year],
    [month], [day] stay unbound. *)
Definition year_month_day (YYMMDD : string) : option (float * Z * Z) :=
  if (String.length YYMMDD =? 6)%nat then
    match F64.int_of_string (substring 0 2 YYMMDD),
          F64.int_of_string (substring 2 2 YYMMDD),
          F64.int_of_string (from 4 YYMMDD) with
    | Some ypre, Some month, Some day =>
        Some (two_digit_year ypre, month, day)
    | _, _, _ => None
    end
  else if (String.length YYMMDD =? 8)%nat then
    match F64.int_of_string (substring 0 4 YYMMDD),
          F64.int_of_string (substring 4 2 YYMMDD),
          F64.int_of_string (from 6 YYMMDD) with
    | Some year, Some month, Some day => Some (F64.of_Z year, month, day)
    | _, _, _ => None
    end
  else None.

(** ** Hemisphere of an ATM file *)

(** [count['N']], [count['S']] and [HEM, = [key for key, val in
    count.items() if val]]: the unpacking needs exactly one hemisphere with
    shots. *)
Definition hemisphere (lat : list float) : M string :=
  let count_N := Np.count_nonzero (map (fun x => (0 <=? x)%float) lat) in
  let count_S := Np.count_nonzero (map (fun x => (x <? 0)%float) lat) in
  match ((if (0 <? count_N)%nat then ["N"] else []) ++
         (if (0 <? count_S)%nat then ["S"] else []))%list with
  | [key] => ret key
  | _ => raise ValueError
  end.

(** ** Subsetting *)

(** [for key,val in d.items(): d[key] = val[input_subsetter]] when a
    subsetter is given. *)
Definition subset (d : list (string * list float))
    (input_subsetter : option (list nat)) : M (list (string * list float)) :=
  match truthy input_subsetter with
  | Some idx =>
      mapM (fun kv => v <- lift IndexError (Np.take (snd kv) idx) ;;
                      ret (fst kv, v)) d
  | None => ret d
  end.

(** ** Packed times *)

(** [hour], [minute] and [second] of a fixed-width time text:
    characters [0:2], [2:4] and [4:]. *)
Definition hhmmss (line_contents : string) : M (float * float * float) :=
  hour <- float64 (substring 0 2 line_contents) ;;
  minute <- float64 (substring 2 2 line_contents) ;;
  second <- float64 (from 4 line_contents) ;;
  ret (hour, minute, second).

(** The loop over [time_hhmmss] of the binary and HDF5 branches:
    ['{0:010.3f}'.format(packed_time)], then the slices. *)
Definition unpack_time (packed_time : float) : M (float * float * float) :=
  hhmmss (F64.format_f true 10 3 packed_time).

(** The two calls of [convert_calendar_dates] of the ATM readers: GPS seconds
    for the leap seconds, then J2000 seconds of the UTC time. *)
Definition j2000_seconds (S : services) (gps_time : bool)
    (year : float) (month day : Z) (hms : float * float * float) : float :=
  let '(hour, minute, second) := hms in
  let leap_seconds :=
    if gps_time then
      count_leap_seconds S
        (convert_calendar_dates S GPS_epoch year month day hour minute second)
    else 0%float in
  convert_calendar_dates S J2000_epoch year month day hour minute
    (second - leap_seconds)%float.

(** ** read_ATM_qfit_file *)

Definition nth_token (l : list string) (i : nat) : M string :=
  lift IndexError (nth_error l i).

Definition qfit_line (line : string)
    : M (float * float * float * (float * float * float)) :=
  let line_contents := numbers line in
  lat <- (s <- nth_token line_contents 1 ;; float64 s) ;;
  lon <- (s <- nth_token line_contents 2 ;; float64 s) ;;
  data <- (s <- nth_token line_contents 3 ;; float64 s) ;;
  tok <- lift IndexError (Np.last_opt line_contents) ;;
  hms <- hhmmss tok ;;
  ret (lat, lon, data, hms).

(** The variables read from the file, before any subsetting, with the
    number of records [file_lines]. *)
Definition qfit_arrays (S : services) (fs : filesystem)
    (input_file : string) (input_subsetter : option (list nat))
    : M (list (string * list float) * nat) :=
  c <- lift IndexError (Np.last_opt (findall qfit_rx input_file)) ;;
  let YYMMDD := group_text c 2 in
  let SFX := group_text c 5 in
  let date := year_month_day YYMMDD in
  r <- (if SFX =? "TXT" then
          l <- read_lines fs input_file ;;
          let file_contents := filter uncommented l in
          file_lines <- file_length fs input_file input_subsetter None false ;;
          rows <- mapM qfit_line file_contents ;;
          ret (map (fun r => fst (fst (fst r))) rows,
               map (fun r => snd (fst (fst r))) rows,
               map (fun r => snd (fst r)) rows,
               map snd rows, file_lines)
        else if SFX =? "qi" then
          fid <- open_datasets fs input_file ;;
          file_lines <- file_length fs input_file input_subsetter None true ;;
          lat <- dataset fid "latitude" ;;
          lon <- dataset fid "longitude" ;;
          data <- dataset fid "elevation" ;;
          time_hhmmss <- dataset fid "time_hhmmss" ;;
          hms <- mapM unpack_time time_hhmmss ;;
          ret (lat, lon, data, hms, file_lines)
        else
          fileID <- open_datasets fs
                      (Path.expanduser (user_home fs) input_file) ;;
          file_lines <- file_length fs input_file input_subsetter
                          (Some "elevation") false ;;
          lat <- dataset fileID "latitude" ;;
          lon <- dataset fileID "longitude" ;;
          data <- dataset fileID "elevation" ;;
          time_hhmmss <- dataset fileID "instrument_parameters/time_hhmmss" ;;
          hms <- mapM unpack_time time_hhmmss ;;
          ret (lat, lon, data, hms, file_lines)) ;;
  let '(lat, lon, data, hms, file_lines) := r in
  ymd <- var "year" date ;;
  let '(year, month, day) := ymd in
  let time := map (j2000_seconds S true year month day) hms in
  ret ([("lat", lat); ("lon", lon); ("data", data); ("time", time)],
       file_lines).

(** The end of both ATM readers: the subsetting loop, then the hemisphere
    of the shots that remain. *)
Definition subset_and_locate (r : list (string * list float) * nat)
    (input_subsetter : option (list nat))
    : M (list (string * list float) * nat * string) :=
  ATM_input <- subset (fst r) input_subsetter ;;
  lat' <- dataset ATM_input "lat" ;;
  HEM <- hemisphere lat' ;;
  ret (ATM_input, snd r, HEM).

Definition read_ATM_qfit_file (S : services) (fs : filesystem)
    (input_file : string) (input_subsetter : option (list nat))
    : M (list (string * list float) * nat * string) :=
  r <- qfit_arrays S fs input_file input_subsetter ;;
  subset_and_locate r input_subsetter.

(** ** read_ATM_icessn_file *)

(** [line_contents[val]] for [val] in [file_dtype]: columns 0, 1, 2, 3, 6
    and -1. *)
Definition icessn_line (line_entries : string) : M (list float) :=
  let line_contents := numbers line_entries in
  seconds <- (s <- nth_token line_contents 0 ;; float64 s) ;;
  lat <- (s <- nth_token line_contents 1 ;; float64 s) ;;
  lon <- (s <- nth_token line_contents 2 ;; float64 s) ;;
  data <- (s <- nth_token line_contents 3 ;; float64 s) ;;
  RMS <- (s <- nth_token line_contents 6 ;; float64 s) ;;
  track <- (s <- lift IndexError (Np.last_opt line_contents) ;; float64 s) ;;
  ret [seconds; lat; lon; data; RMS; track].

Definition column (i : nat) (rows : list (list float)) : list float :=
  map (fun r => nth i r 0%float) rows.

(** Seconds of day into hour, minute and second. *)
Definition seconds_of_day (seconds : float) : float * float * float :=
  (F64.floor (seconds / 3600)%float,
   F64.floor (F64.mod_pos seconds 3600 / 60)%float,
   F64.mod_pos seconds 60).

Definition icessn_arrays (S : services) (fs : filesystem)
    (input_file : string) (input_subsetter : option (list nat))
    : M (list (string * list float) * nat) :=
  c <- lift IndexError (Np.last_opt (findall icessn_rx input_file)) ;;
  let MISSION := group_text c 1 in
  let YYMMDD := group_text c 2 in
  let SFX := group_text c 5 in
  let date := year_month_day YYMMDD in
  l <- read_lines fs input_file ;;
  let file_contents := filter uncommented l in
  file_lines <- file_length fs input_file input_subsetter None false ;;
  rows <- mapM icessn_line file_contents ;;
  let seconds := column 0 rows in
  let hms := map seconds_of_day seconds in
  ymd <- var "year" date ;;
  let '(year, month, day) := ymd in
  let gps_time := (MISSION =? "BLATM2") || negb (SFX =? "csv") in
  let time := map (j2000_seconds S gps_time year month day) hms in
  let RMS := column 4 rows in
  ret ([("seconds", seconds); ("lat", column 1 rows);
        ("lon", column 2 rows); ("data", column 3 rows);
        ("RMS", RMS); ("track", column 5 rows);
        ("time", time);
        ("error", map (fun x => (x / 100)%float) RMS)],
       file_lines).

Definition read_ATM_icessn_file (S : services) (fs : filesystem)
    (input_file : string) (input_subsetter : option (list nat))
    : M (list (string * list float) * nat * string) :=
  r <- icessn_arrays S fs input_file input_subsetter ;;
  subset_and_locate r input_subsetter.

(** ** read_LVIS_HDF5_file *)

(** The arrays of [file_input] after either schema branch. *)
Record waveforms : Type := Build_waveforms {
  elev : list float;
  elev_low : list float;
  elev_high : list float;
  lat : list float;
  lat_low : list float;
  lon : list float;
  lon_low : list float
}.

Definition elementwise (f : float -> float -> float) (a b : list float)
    : M (list float) :=
  lift ValueError (Np.broadcast2 f a b).

(** [dst[idx] = src[idx]] *)
Definition copy_at (dst src : list float) (idx : list nat) : M (list float) :=
  v <- lift IndexError (Np.take src idx) ;;
  lift IndexError (Np.put dst idx v).

(** [low + RH50*(top - low)/RH100]: position interpolated to RH50. *)
Definition interpolate_RH50 (low top RH50 RH100 : list float)
    : M (list float) :=
  d <- elementwise PrimFloat.sub top low ;;
  n <- elementwise PrimFloat.mul RH50 d ;;
  q <- elementwise PrimFloat.div n RH100 ;;
  elementwise PrimFloat.add low q.

(** Schema LDS 1.04 (centroid products are in the file) and LDS 2.0.2
    (centroid from the height of 50% of the waveform energy). *)
Definition read_waveforms (fileID : list (string * list float)) (v202 : bool)
    : M waveforms :=
  if v202 then
    elev_low <- dataset fileID "Elevation_Surfaces/Elevation_Low" ;;
    elev_high <- dataset fileID "Elevation_Surfaces/Elevation_High" ;;
    RH50 <- dataset fileID "Waveform/RH50" ;;
    RH100 <- dataset fileID "Waveform/RH100" ;;
    elev <- elementwise PrimFloat.add elev_low RH50 ;;
    lat_top <- dataset fileID "Geolocation/Latitude_Top" ;;
    lat_low <- dataset fileID "Geolocation/Latitude_Low" ;;
    lon_top <- dataset fileID "Geolocation/Longitude_Top" ;;
    lon_low <- dataset fileID "Geolocation/Longitude_Low" ;;
    lat <- interpolate_RH50 lat_low lat_top RH50 RH100 ;;
    lon <- interpolate_RH50 lon_low lon_top RH50 RH100 ;;
    ret (Build_waveforms elev elev_low elev_high lat lat_low lon lon_low)
  else
    elev <- dataset fileID "Elevation_Surfaces/Elevation_Centroid" ;;
    elev_low <- dataset fileID "Elevation_Surfaces/Elevation_Low" ;;
    elev_high <- dataset fileID "Elevation_Surfaces/Elevation_High" ;;
    lat <- dataset fileID "Geolocation/Latitude_Centroid" ;;
    lat_low <- dataset fileID "Geolocation/Latitude_Low" ;;
    lon <- dataset fileID "Geolocation/Longitude_Centroid" ;;
    lon_low <- dataset fileID "Geolocation/Longitude_Low" ;;
    ret (Build_waveforms elev elev_low elev_high lat lat_low lon lon_low).

(** [(a - b)**2] ; numpy squares by one multiplication. *)
Definition square_diff (a b : float) : float :=
  ((a - b) * (a - b))%float.

(** [np.sqrt((variance_low + variance_high)/2.0)] *)
Definition rms (variance_low variance_high : float) : float :=
  PrimFloat.sqrt ((variance_low + variance_high) / 2)%float.

(** The combined variables ['data'], ['lon'], ['lat'] and ['error']: low
    products where the lowest and the highest points of the waveform agree,
    centroid products elsewhere; the error is about the centroid elevation
    in both cases. *)
Definition combine (w : waveforms)
    : M (list float * list float * list float * list float) :=
  let zeros := map (fun _ => 0%float) (elev w) in
  eq <- lift ValueError
          (Np.broadcast2 PrimFloat.eqb (elev_low w) (elev_high w)) ;;
  ne <- lift ValueError
          (Np.broadcast2 (fun a b => negb (a =? b)%float)
             (elev_low w) (elev_high w)) ;;
  let ii := Np.nonzero eq in
  let jj := Np.nonzero ne in
  data <- copy_at zeros (elev_low w) ii ;;
  data <- copy_at data (elev w) jj ;;
  lon' <- copy_at zeros (lon_low w) ii ;;
  lat' <- copy_at zeros (lat_low w) ii ;;
  lon' <- copy_at lon' (lon w) jj ;;
  lat' <- copy_at lat' (lat w) jj ;;
  LVIS_variance_low <- elementwise square_diff (elev_low w) (elev w) ;;
  LVIS_variance_high <- elementwise square_diff (elev_high w) (elev w) ;;
  error <- elementwise rms LVIS_variance_low LVIS_variance_high ;;
  ret (data, lon', lat', error).

(** [lvis_flag = {'GL':'N','AQ':'S'}] *)
Definition lvis_flag : list (string * string) := [("GL", "N"); ("AQ", "S")].

Definition lvis_arrays (fs : filesystem)
    (input_file : string) (input_subsetter : option (list nat))
    : M (list (string * list float) * nat * string) :=
  c <- lift IndexError (Np.last_opt (findall lvis_rx input_file)) ;;
  let REGION := group_text c 2 in
  let RLD := group_text c 5 in
  release <- lift ValueError (F64.int_of_string (substring 1 2 RLD)) ;;
  let v202 := (18 <=? release)%Z in
  fileID <- open_datasets fs input_file ;;
  file_lines <- file_length fs input_file input_subsetter
                  (Some "Shot_Number") false ;;
  w <- read_waveforms fileID v202 ;;
  time <- dataset fileID "Time/J2000" ;;
  r <- combine w ;;
  let '(data, lon', lat', error) := r in
  ret ([("time", time); ("data", data); ("lon", lon'); ("lat", lat');
        ("error", error)], file_lines, REGION).

Definition read_LVIS_HDF5_file (fs : filesystem)
    (input_file : string) (input_subsetter : option (list nat))
    : M (list (string * list float) * nat * string) :=
  r <- lvis_arrays fs input_file input_subsetter ;;
  let '(d, file_lines, REGION) := r in
  LVIS_L2_input <- subset d input_subsetter ;;
  HEM <- lift KeyError (Np.lookup lvis_flag REGION) ;;
  ret (LVIS_L2_input, file_lines, HEM).

(** ** compute_tides_icebridge_data *)

(** r'(.*?)(\[(.*?)\])?$' : file name and optional subsetter suffix *)
Definition subsetter_rx : re :=
  seqs [Group 1 (Star false dot);
        opt (Group 2 (seqs [chr "["; Group 3 (Star false dot); chr "]"]));
        Eol].

(** r'((\d+)-(\d+)|(\d+))' : a range or a single index *)
Definition range_rx : re :=
  Group 1 (Alt (seqs [Group 2 (plus digit); chr "-"; Group 3 (plus digit)])
               (Group 4 (plus digit))).

(** The loop that decompresses the ranges: [int(i[3])] is appended when the
    fourth group is non-empty, [range(int(i[1]), int(i[2])+1)] otherwise. *)
Definition decompress (text : string) : list nat :=
  flat_map
    (fun i =>
       if (0 <? String.length (group_text i 4))%nat
       then [Z.to_nat (F64.digits_val 0 (group_text i 4))]
       else Np.range (Z.to_nat (F64.digits_val 0 (group_text i 2)))
                     (Z.to_nat (F64.digits_val 0 (group_text i 3)) + 1))
    (findall range_rx text).

(** [input_file] and [input_subsetter] of an argument: the first group
    with its [~] expanded, and the indices of the suffix.  [None] when the
    pattern does not match (then [match_object] is [None] and its use
    fails). *)
Definition parse_arg (home : string -> option string) (arg : string)
    : option (string * option (list nat)) :=
  match rmatch subsetter_rx arg with
  | Some c =>
      let input_file := Path.expanduser home (group_text c 1) in
      match group c 2 with
      | Some (String _ _) => Some (input_file, Some (decompress (group_text c 3)))
      | _ => Some (input_file, None)
      end
  | None => None
  end.

(** The patterns of the dictionary [regex], in insertion order. *)
Definition regex : list (string * re) :=
  [("ATM", icessn_rx);
   ("ATM1b",
    seqs [Group 1 (mission ["BLATM1b"; "ILATM1b"]); chr "_";
          Group 2 (plus digit); chr "_"; Group 3 (plus digit);
          Group 4 (Star false dot); dot;
          Group 5 (mission ["qi"; "TXT"; "h5"]); Eol]);
   ("LVIS", lvis_rx_of ["BLVIS2"; "BVLIS2"; "ILVIS2"] true);
   ("LVGH", lvis_rx_of ["ILVGH2"] true)].

(** [for key,val in regex.items(): if re.match(val, basename): OIB = key] *)
Definition instrument (input_file : string) : option string :=
  fold_left
    (fun OIB kv =>
       match rmatch (snd kv) (Path.basename input_file) with
       | Some _ => Some (fst kv)
       | None => OIB
       end)
    regex None.

(** [YY1] of a two-digit year: ['{0:4.0f}'.format(np.float64(ypre) +
    1900.0)] if [np.float64(ypre) >= 90], with 2000.0 otherwise. *)
Definition two_digit_year_text (ypre : float) : string :=
  if (90 <=? ypre)%float then F64.format_f false 4 0 (ypre + 1900)%float
  else F64.format_f false 4 0 (ypre + 2000)%float.

(** [YY1], [MM1] and [DD1] from the date token of an ATM file name: a
    two-digit year of 90 and above is 19xx, below it is 20xx.  [None]:
    the texts stay unbound. *)
Definition atm_date_texts (YYMMDD1 : string)
    : M (option (string * string * string)) :=
  if (String.length YYMMDD1 =? 6)%nat then
    let MM1 := substring 2 2 YYMMDD1 in
    let DD1 := from 4 YYMMDD1 in
    ypre <- float64 (substring 0 2 YYMMDD1) ;;
    ret (Some (two_digit_year_text ypre, MM1, DD1))
  else if (String.length YYMMDD1 =? 8)%nat then
    ret (Some (substring 0 4 YYMMDD1, substring 4 2 YYMMDD1,
               from 6 YYMMDD1))
  else ret None.

(** [YY1], [MM1] and [DD1]: the date texts of the output file name. *)
Definition date_texts (OIB input_file : string)
    : M (option (string * string * string)) :=
  if (OIB =? "ATM") || (OIB =? "ATM1b") then
    rx <- lift KeyError (Np.lookup regex OIB) ;;
    c <- lift IndexError (Np.last_opt (findall rx input_file)) ;;
    atm_date_texts (group_text c 2)
  else if (OIB =? "LVIS") || (OIB =? "LVGH") then
    rx <- lift KeyError (Np.lookup regex OIB) ;;
    c <- lift IndexError (Np.last_opt (findall rx input_file)) ;;
    let MMDD1 := group_text c 4 in
    ret (Some (group_text c 3, substring 0 2 MMDD1, from 2 MMDD1))
  else ret None.

(** [hem_flag = {'N':'GR','S':'AN'}] *)
Definition hem_flag : list (string * string) := [("N", "GR"); ("S", "AN")].

(** [JJ1 = np.min(dinput['time']) % 86400], then
    ['{0}_NASA_{1}_TIDES_WGS84_{2}{3}{4}{5}{6:05.0f}.H5'.format(
    hem_flag[HEM],TIDE_MODEL,OIB,YY1,MM1,DD1,JJ1)]. *)
Definition output_filename (HEM TIDE_MODEL OIB : string)
    (date : option (string * string * string)) (time : list float)
    : M string :=
  t0 <- lift ValueError (Np.min time) ;;
  let JJ1 := F64.mod_pos t0 86400 in
  region <- lift KeyError (Np.lookup hem_flag HEM) ;;
  date <- var "YY1" date ;;
  let '(YY1, MM1, DD1) := date in
  ret (region ++ "_NASA_" ++ TIDE_MODEL ++ "_TIDES_WGS84_" ++ OIB ++
       YY1 ++ MM1 ++ DD1 ++ F64.format_f true 5 0 JJ1 ++ ".H5").

Definition fill_value : float := (-9999)%float.

(** The masked array [tide]: [tide.mask = np.any(hc.mask,axis=1)], the
    prediction and the minor corrections in [tide.data], then
    [tide.data[tide.mask] = tide.fill_value]. *)
Definition predict (S : services) (file_lines : nat) (fmt : format)
    (t : list float) (hc : list hc_row) (deltat : list float)
    : M (list float * list bool) :=
  mask <- lift ValueError (Np.flat_assign file_lines (map row_masked hc)) ;;
  data <- lift ValueError
            (Np.assign_all file_lines (predict_tide_drift S t hc deltat fmt)) ;;
  minor <- lift ValueError
             (Np.assign_all file_lines
                (infer_minor_corrections S t hc deltat fmt)) ;;
  let data := map (fun p : float * float => (fst p + snd p)%float)
               (Np.zip data minor) in
  ret (map (fun p : float * bool => if snd p then fill_value else fst p)
         (Np.zip data mask),
       mask).

(** What is written.  [tide_mask] is the mask of [tide] when the dataset is
    created (the file holds the data only).  The per-variable attribute
    texts, [tide_count] and the time-coverage attributes are left out. *)
Record product : Type := Build_product {
  path : string;
  variable : string;
  out_lat : list float;
  out_lon : list float;
  tide : list float;
  tide_mask : list bool;
  FillValue : float;
  out_time : list float;
  geospatial_lat_min : float;
  geospatial_lat_max : float;
  geospatial_lon_min : float;
  geospatial_lon_max : float
}.

(** [fid.create_dataset(key, (file_lines,), data=...)]: the data must have
    the declared shape. *)
Definition create_dataset (file_lines : nat) (data : list float)
    : M (list float) :=
  if (List.length data =? file_lines)%nat then ret data else raise ValueError.

(** The reader of the instrument: ICESSN, QFIT or LVIS. *)
Definition read_data (S : services) (fs : filesystem) (input_file : string)
    (input_subsetter : option (list nat)) (OIB : string)
    : M (list (string * list float) * nat * string) :=
  if OIB =? "ATM" then read_ATM_icessn_file S fs input_file input_subsetter
  else if OIB =? "ATM1b"
  then read_ATM_qfit_file S fs input_file input_subsetter
  else read_LVIS_HDF5_file fs input_file input_subsetter.

Definition compute_tides_icebridge_data (S : services) (fs : filesystem)
    (o : options) (arg TIDE_MODEL : string) : M product :=
  parsed <- lift AttributeError (parse_arg (user_home fs) arg) ;;
  let '(input_file, input_subsetter) := parsed in
  let DIRECTORY := Path.dirname input_file in
  let OIB := instrument input_file in
  let model := select_model TIDE_MODEL in
  (* attrib[output_variable] = {} *)
  m <- var "output_variable" model ;;
  OIB <- var "OIB" OIB ;;
  date <- date_texts OIB input_file ;;
  r <- read_data S fs input_file input_subsetter OIB ;;
  let '(dinput, file_lines, HEM) := r in
  time <- dataset dinput "time" ;;
  let t := map (convert_delta_time S J2000_epoch6 tide_epoch) time in
  lon' <- dataset dinput "lon" ;;
  lat' <- dataset dinput "lat" ;;
  emit ReadModel ;;;
  hc <- lift ModelIOError (harmonic_constants S o TIDE_MODEL m lon' lat') ;;
  deltat <- (match model_format m with
             | GOT | FES =>
                 emit ReadDeltaTime ;;; ret (map (calc_delta_time S) t)
             | _ => ret (map (fun _ => 0%float) t)
             end) ;;
  FILENAME <- output_filename HEM TIDE_MODEL OIB date time ;;
  let out := Path.join DIRECTORY FILENAME in
  create (can_create fs) out ;;;
  td <- predict S file_lines (model_format m) t hc deltat ;;
  let '(tide, mask) := td in
  h5_lat <- create_dataset file_lines lat' ;;
  h5_lon <- create_dataset file_lines lon' ;;
  h5_time <- create_dataset file_lines t ;;
  lat_min <- lift ValueError (Np.min lat') ;;
  lat_max <- lift ValueError (Np.max lat') ;;
  lon_min <- lift ValueError (Np.min lon') ;;
  lon_max <- lift ValueError (Np.max lon') ;;
  chmod (can_chmod fs) out ;;;
  ret (Build_product out (output_variable m) h5_lat h5_lon tide mask
         fill_value h5_time lat_min lat_max lon_min lon_max).

(** [main()]: argparse accepts only the values of [model_choices] for
    [--tide] and needs at least one input file; then the driver runs on each
    argument in turn.  [infile] is [args.infile], the arguments as argparse
    converts them ([os.path.abspath(os.path.expanduser(p))]). *)
Definition main (S : services) (fs : filesystem) (o : options)
    (infile : list string) (tide : string) : M (list product) :=
  match infile with
  | [] => raise SystemExit
  | _ =>
      if existsb (String.eqb tide) model_choices
      then mapM (fun arg => compute_tides_icebridge_data S fs o arg tide) infile
      else raise SystemExit
  end.

End IceBridge.

(* ================================================================== *)
(** * scripts/compute_tides_ICESat2_ATL11.py *)
(* ================================================================== *)

Module ATL11.

Import Re Py Tide.
Local Open Scope py_scope.

(** A points x cycles array is the list of its rows (one per reference
    point), each of [n_cycles] values. *)
Definition array2 (A : Type) : Type := list (list A).

(** [a[:,c]] *)
Definition col {A : Type} (d : A) (c : nat) (a : array2 A) : list A :=
  map (fun row => nth c row d) a.

(** [a[:,c] = v], [v] having one value per row. *)
Definition set_col {A : Type} (c : nat) (v : list A) (a : array2 A)
    : array2 A :=
  map (fun p => Np.set_nth c (snd p) (fst p)) (Np.zip a v).

(** Number of columns: the length of the first row (0 without rows). *)
Definition n_cols {A : Type} (a : array2 A) : nat :=
  match a with
  | [] => 0
  | row :: _ => List.length row
  end.

(** The variables of one beam pair that the driver reads, with the
    [_FillValue] attributes it uses. *)
Record beam_pair : Type := Build_beam_pair {
  ref_pt : list Z;
  cycle_number : list Z;
  latitude : list float;
  longitude : list float;
  delta_time : array2 float;
  latitude_fill : float;
  longitude_fill : float;
  delta_time_fill : float;
  h_corr_fill : float;
  XT_ref_pt : list Z;
  XT_rgt : list Z;
  XT_cycle_number : list Z;
  XT_latitude : list float;
  XT_longitude : list float;
  XT_delta_time : list float;
  XT_latitude_fill : float;
  XT_longitude_fill : float;
  XT_delta_time_fill : float
}.

(** What [read_HDF5_ATL11(INPUT_FILE, ATTRIBUTES=True, CROSSOVERS=True)]
    returns: plain arrays per beam pair, and the list of beam pairs. *)
Record granule : Type := Build_granule {
  atlas_sdp_gps_epoch : float;
  IS2_atl11_pairs : list (string * beam_pair)
}.

(** The surroundings of a run: the reader of the input file, the content of
    the freshly allocated arrays [np.ma.empty((n_points,n_cycles))] and
    [np.ma.empty((n_cross))] of a beam pair, by position, and the calendar
    conversion of the time coverage ([count_leap_seconds],
    [convert_delta_time], [convert_julian] and [datetime]; [None] when a
    value cannot be a date); then the home directories that
    [os.path.expanduser] finds, and the paths at which a file can be
    created and at which permission bits can be set. *)
Record environment : Type := Build_environment {
  read_HDF5_ATL11 : string -> option granule;
  uninitialized_AT : string -> nat -> nat -> float;
  uninitialized_XT : string -> nat -> float;
  time_coverage : float -> float -> option (string * string);
  user_home : string -> option string;
  can_create : string -> bool;
  can_chmod : string -> bool
}.

(** ** Output file name *)

(** r'(processed_)?(ATL\d{2})_(\d{4})(\d{2})_(\d{2})(\d{2})_(\d{3})_(\d{2})(.*?).h5$' *)
Definition granule_rx : re :=
  seqs [opt (Group 1 (lit "processed_"));
        Group 2 (Seq (lit "ATL") (rep 2 digit)); chr "_";
        Group 3 (rep 4 digit); Group 4 (rep 2 digit); chr "_";
        Group 5 (rep 2 digit); Group 6 (rep 2 digit); chr "_";
        Group 7 (rep 3 digit); chr "_"; Group 8 (rep 2 digit);
        Group 9 (Star false dot); dot; lit "h5"; Eol].

(** The [try: ... = rx.findall(INPUT_FILE).pop()] with its [except:] and
    [else:] branches. *)
Definition output_file (INPUT_FILE TIDE_MODEL : string) : string :=
  match Np.last_opt (findall granule_rx INPUT_FILE) with
  | None =>
      let '(fileBasename, fileExtension) := Path.splitext INPUT_FILE in
      fileBasename ++ "_" ++ TIDE_MODEL ++ "_TIDES" ++ fileExtension
  | Some c =>
      let g := group_text c in
      g 2 ++ "_" ++ TIDE_MODEL ++ "_TIDES_" ++ g 3 ++ g 4 ++ "_" ++
      g 5 ++ g 6 ++ "_" ++ g 7 ++ "_" ++ g 8 ++ g 9 ++ ".h5"
  end.

(** ** Tides of a track *)

(** ATLAS SDP seconds to days since 1992-01-01. *)
Definition tide_time_of (S : services) (sdp_epoch delta : float) : float :=
  let gps_seconds := (sdp_epoch + delta)%float in
  let leap_seconds := count_leap_seconds S gps_seconds in
  convert_delta_time S GPS_epoch tide_epoch (gps_seconds - leap_seconds)%float.

(** One pass of prediction over a one-dimensional slice (a cycle column of
    the along-track data, or the crossing-track data):
    [mask |= np.any(hc.mask,axis=1)], [valid, = np.nonzero(~mask)],
    [data[valid] = predict_tide_drift(tide_time[valid], hc[valid,:], ...)]
    and [data[valid] += minor.data[:]]. *)
Definition predict_slice (S : services) (fmt : format) (hc : list hc_row)
    (tide_time deltat : list float) (data : list float) (mask : list bool)
    : M (list float * list bool) :=
  hm <- lift ValueError (Np.assign_all (List.length mask) (map row_masked hc)) ;;
  let mask := map (fun p : bool * bool => fst p || snd p) (Np.zip mask hm) in
  let valid := Np.nonzero (map negb mask) in
  tv <- lift IndexError (Np.take tide_time valid) ;;
  hv <- lift IndexError (Np.take hc valid) ;;
  dv <- lift IndexError (Np.take deltat valid) ;;
  data <- lift ValueError
            (Np.put data valid (predict_tide_drift S tv hv dv fmt)) ;;
  cur <- lift IndexError (Np.take data valid) ;;
  minor <- lift ValueError
             (Np.assign_all (List.length valid)
                (infer_minor_corrections S tv hv dv fmt)) ;;
  data <- lift ValueError
            (Np.put data valid
               (map (fun p : float * float => (fst p + snd p)%float)
                  (Np.zip cur minor))) ;;
  ret (data, mask).

(** [invalid = np.nonzero(np.isnan(data) | mask)], then
    [data[invalid] = fill_value] and [mask[invalid] = True], for one
    element. *)
Definition fold_nan (fv : float) (p : float * bool) : float * bool :=
  if is_nan (fst p) || snd p then (fv, true) else p.

(** The harmonic constants of a track and its delta times. *)
Definition constants (S : services) (o : options) (TIDE_MODEL : string)
    (model : option descriptor) (lon lat : list float)
    : M (format * list hc_row) :=
  m <- var "model_format" model ;;
  emit ReadModel ;;;
  hc <- lift ModelIOError (harmonic_constants S o TIDE_MODEL m lon lat) ;;
  ret (model_format m, hc).

Definition delta_times (S : services) (fmt : format) (tide_time : float)
    : float :=
  match fmt with
  | GOT | FES => calc_delta_time S tide_time
  | _ => 0%float
  end.

Definition reads_delta_file (fmt : format) : M unit :=
  match fmt with
  | GOT | FES => emit ReadDeltaTime
  | _ => ret tt
  end.

(** The loop [for cycle in range(n_cycles)] over the columns of the
    along-track arrays. *)
Fixpoint along_track_cycles (S : services) (fmt : format) (hc : list hc_row)
    (tide_time deltat : array2 float) (cycles : list nat)
    (data : array2 float) (mask : array2 bool)
    : M (array2 float * array2 bool) :=
  match cycles with
  | [] => ret (data, mask)
  | cycle :: rest =>
      r <- predict_slice S fmt hc (col 0%float cycle tide_time)
             (col 0%float cycle deltat) (col 0%float cycle data)
             (col false cycle mask) ;;
      along_track_cycles S fmt hc tide_time deltat rest
        (set_col cycle (fst r) data) (set_col cycle (snd r) mask)
  end.

(** Along-track tides of a beam pair: [tide['AT']] after the loop over
    [track] has treated ['AT']. *)
Definition along_track (S : services) (env : environment) (o : options)
    (TIDE_MODEL : string) (model : option descriptor) (sdp_epoch : float)
    (ptx : string) (b : beam_pair) : M (array2 float * array2 bool) :=
  let fv := h_corr_fill b in
  let n_cycles := n_cols (delta_time b) in
  let data :=
    map (fun i => map (uninitialized_AT env ptx i) (seq 0 n_cycles))
        (seq 0 (List.length (delta_time b))) in
  let mask :=
    map (map (fun x => (x =? delta_time_fill b)%float)) (delta_time b) in
  let tide_time := map (map (tide_time_of S sdp_epoch)) (delta_time b) in
  fh <- constants S o TIDE_MODEL model (longitude b) (latitude b) ;;
  let '(fmt, hc) := fh in
  reads_delta_file fmt ;;;
  let deltat := map (map (delta_times S fmt)) tide_time in
  r <- along_track_cycles S fmt hc tide_time deltat (seq 0 n_cycles)
         data mask ;;
  let folded :=
    map (fun p : list float * list bool =>
           map (fold_nan fv) (Np.zip (fst p) (snd p)))
        (Np.zip (fst r) (snd r)) in
  ret (map (map fst) folded, map (map snd) folded).

(** Crossing-track tides of a beam pair: [tide['XT']]. *)
Definition crossing_track (S : services) (env : environment) (o : options)
    (TIDE_MODEL : string) (model : option descriptor) (sdp_epoch : float)
    (ptx : string) (b : beam_pair) : M (list float * list bool) :=
  let fv := h_corr_fill b in
  let data := map (uninitialized_XT env ptx)
                  (seq 0 (List.length (XT_delta_time b))) in
  let mask := map (fun x => (x =? XT_delta_time_fill b)%float)
                  (XT_delta_time b) in
  let tide_time := map (tide_time_of S sdp_epoch) (XT_delta_time b) in
  fh <- constants S o TIDE_MODEL model (XT_longitude b) (XT_latitude b) ;;
  let '(fmt, hc) := fh in
  reads_delta_file fmt ;;;
  let deltat := map (delta_times S fmt) tide_time in
  r <- predict_slice S fmt hc tide_time deltat data mask ;;
  let folded := map (fold_nan fv) (Np.zip (fst r) (snd r)) in
  ret (map fst folded, map snd folded).

(** What the driver stores for a beam pair.  The masks are those of the
    masked arrays; the attribute texts are left out. *)
Record group : Type := Build_group {
  name : string;
  source : beam_pair;
  tide_AT : array2 float;
  mask_AT : array2 bool;
  tide_XT : list float;
  mask_XT : list bool;
  tide_fill : float
}.

Definition beam_pair_tides (S : services) (env : environment) (o : options)
    (TIDE_MODEL : string) (model : option descriptor) (sdp_epoch : float)
    (ptx : string * beam_pair) : M group :=
  at_ <- along_track S env o TIDE_MODEL model sdp_epoch (fst ptx) (snd ptx) ;;
  xt <- crossing_track S env o TIDE_MODEL model sdp_epoch (fst ptx) (snd ptx) ;;
  (* IS2_atl11_tide[ptx]['cycle_stats'][variable] = ... *)
  m <- var "variable" model ;;
  ret (Build_group (fst ptx) (snd ptx) (fst at_) (snd at_) (fst xt) (snd xt)
         (h_corr_fill (snd ptx))).

(** [sorted(IS2_atl11_pairs)]: insertion sort on the names. *)
Fixpoint insert_pair (p : string * beam_pair) (l : list (string * beam_pair))
    : list (string * beam_pair) :=
  match l with
  | [] => [p]
  | q :: l' =>
      if String.leb (fst p) (fst q) then p :: l else q :: insert_pair p l'
  end.

Definition sorted (l : list (string * beam_pair)) : list (string * beam_pair) :=
  fold_right insert_pair [] l.

(** ** HDF5_ATL11_tide_write *)

(** [re.match(r'pt\d', k)] *)
Definition is_pair_name (k : string) : bool :=
  match rmatch (Seq (lit "pt") digit) k with
  | Some _ => true
  | None => false
  end.

(** The running extremes of the loop over the pairs:
    [lnmn = lon.min() if (lon.min() < lnmn) else lnmn], and so on. *)
Record ranges : Type := Build_ranges {
  lnmn : float; lnmx : float;
  ltmn : float; ltmx : float;
  tmn : float; tmx : float
}.

Definition lower (candidate current : float) : float :=
  if (candidate <? current)%float then candidate else current.

Definition upper (candidate current : float) : float :=
  if (current <? candidate)%float then candidate else current.

Definition pair_ranges (r : ranges) (g : group) : M ranges :=
  let b := source g in
  let lon := longitude b in
  let lat := latitude b in
  (* delta_time[valid] with valid = np.nonzero(delta_time != fill) *)
  let valid_times :=
    filter (fun x => negb (x =? delta_time_fill b)%float)
           (List.concat (delta_time b)) in
  lon_min <- lift ValueError (Np.min lon) ;;
  lon_max <- lift ValueError (Np.max lon) ;;
  lat_min <- lift ValueError (Np.min lat) ;;
  lat_max <- lift ValueError (Np.max lat) ;;
  t_min <- lift ValueError (Np.min valid_times) ;;
  t_max <- lift ValueError (Np.max valid_times) ;;
  ret (Build_ranges (lower lon_min (lnmn r)) (upper lon_max (lnmx r))
         (lower lat_min (ltmn r)) (upper lat_max (ltmx r))
         (lower t_min (tmn r)) (upper t_max (tmx r))).

Fixpoint all_ranges (r : ranges) (gs : list group) : M ranges :=
  match gs with
  | [] => ret r
  | g :: gs' => r' <- pair_ranges r g ;; all_ranges r' gs'
  end.

(** What is written.  [path] is [FILENAME] as the driver passes it; the
    file is opened at its expansion. *)
Record product : Type := Build_product {
  path : string;
  groups : list group;
  geospatial_lat_min : float;
  geospatial_lat_max : float;
  geospatial_lon_min : float;
  geospatial_lon_max : float;
  time_coverage_start : string;
  time_coverage_end : string
}.

Definition HDF5_ATL11_tide_write (env : environment) (gs : list group)
    (FILENAME : string) : M product :=
  create (can_create env) (Path.expanduser (user_home env) FILENAME) ;;;
  let pairs := filter (fun g => is_pair_name (name g)) gs in
  r <- all_ranges
         (Build_ranges infinity neg_infinity infinity neg_infinity
            infinity neg_infinity) pairs ;;
  tc <- lift ValueError (time_coverage env (tmn r) (tmx r)) ;;
  ret (Build_product FILENAME pairs (ltmn r) (ltmx r) (lnmn r) (lnmx r)
         (fst tc) (snd tc)).

(** ** compute_tides_ICESat2 *)

Definition compute_tides_ICESat2 (S : services) (env : environment)
    (o : options) (INPUT_FILE TIDE_MODEL : string) : M product :=
  let model := select_model TIDE_MODEL in
  emit (ReadInput INPUT_FILE) ;;;
  mds <- lift OSError (read_HDF5_ATL11 env INPUT_FILE) ;;
  let DIRECTORY := Path.dirname INPUT_FILE in
  let OUTPUT_FILE := output_file INPUT_FILE TIDE_MODEL in
  gs <- mapM (beam_pair_tides S env o TIDE_MODEL model
                (atlas_sdp_gps_epoch mds))
          (sorted (IS2_atl11_pairs mds)) ;;
  let out := Path.join DIRECTORY OUTPUT_FILE in
  p <- HDF5_ATL11_tide_write env gs out ;;
  chmod (can_chmod env) out ;;;
  ret p.

(** [main()]; [infile] is [args.infile], the arguments as argparse converts
    them ([os.path.abspath(os.path.expanduser(p))]). *)
Definition main (S : services) (env : environment) (o : options)
    (infile : list string) (tide : string) : M (list product) :=
  match infile with
  | [] => raise SystemExit
  | _ =>
      if existsb (String.eqb tide) model_choices
      then mapM (fun FILE => compute_tides_ICESat2 S env o FILE tide) infile
      else raise SystemExit
  end.

End ATL11.

(* ================================================================== *)
(** * Sample runs *)
(* ================================================================== *)

(** Small concrete surroundings on which the drivers can be run: stand-ins
    for the external services and a few input files. *)
Module Sample.

Import Tide.

(** Stand-in services.  Calendar dates become seconds of the day, there are
    no leap seconds, days are seconds over 86400, the harmonic service
    masks the points for which [outside lon lat] holds, and the prediction
    and the minor corrections are [major] and [minor] of each time. *)
Definition services (outside : float -> float -> bool)
    (major minor : float -> float) : Tide.services :=
  Build_services
    (fun _ _ _ _ hour minute second =>
       (hour * 3600 + minute * 60 + second)%float)
    (fun _ => 0%float)
    (fun _ _ x => (x / 86400)%float)
    (fun _ => 0%float)
    (fun _ _ _ lon lat =>
       Some (map (fun p : float * float =>
                    [Build_hconst 1 0 (outside (fst p) (snd p))])
                 (Np.zip lon lat)))
    (fun t _ _ _ => map major t)
    (fun t _ _ _ => map minor t).

(** A model that covers everything and predicts a quarter of the time (in
    days) plus one, with no minor correction. *)
Definition calm : Tide.services :=
  services (fun _ _ => false) (fun t => (t / 4 + 1)%float) (fun _ => 0%float).

(** A model whose domain stops at 70.625 degrees north. *)
Definition bounded : Tide.services :=
  services (fun _ lat => (70.625 <? lat)%float)
    (fun t => (t / 4 + 1)%float) (fun _ => 0%float).

Definition options : Tide.options :=
  Build_options "/tides" "spline" false None.

(** An ICESSN file of seven shots over Greenland. *)
Definition icessn_name : string :=
  "/data/ILATM2_20110101_120000_smooth_nadir3seg_50pts.csv".

Definition icessn_lines : list string :=
  ["# seconds lat lon elev ...";
   "43200.5 70.1 -45.2 100.5 0.1 0.2 5.5 10 2 3 1";
   "43201.5 70.2 -45.3 101.5 0.1 0.2 6.5 10 2 3 1";
   "43202.5 70.3 -45.4 102.5 0.1 0.2 7.5 10 2 3 1";
   "43203.5 70.4 -45.5 103.5 0.1 0.2 7.5 10 2 3 1";
   "43204.5 70.5 -45.6 104.5 0.1 0.2 7.5 10 2 3 1";
   "43205.5 70.6 -45.7 105.5 0.1 0.2 7.5 10 2 3 1";
   "43206.5 70.7 -45.8 106.5 0.1 0.2 7.5 10 2 3 1"].

(** An ICESSN file whose shots lie on both sides of the equator, two to
    the north and one to the south. *)
Definition equator_name : string :=
  "/data/ILATM2_20110102_120000_smooth_nadir3seg_50pts.csv".

Definition equator_lines : list string :=
  ["43200.5 0.2 -45.2 100.5 0.1 0.2 5.5 10 2 3 1";
   "43201.5 0.1 -45.3 101.5 0.1 0.2 6.5 10 2 3 1";
   "43202.5 -0.1 -45.4 102.5 0.1 0.2 7.5 10 2 3 1"].

(** An LVIS file of the LDS 2.0.2 schema with two shots; the first has a
    flat return at 100 m whose 50% energy height is 0.5 m. *)
Definition lvis_name : string := "/data/ILVIS2_GL2017_0825_R1803_067886.H5".

Definition lvis_datasets : list (string * list float) :=
  [("Shot_Number", [1; 2]%float);
   ("Elevation_Surfaces/Elevation_Low", [100; 200]%float);
   ("Elevation_Surfaces/Elevation_High", [100; 204]%float);
   ("Waveform/RH50", [0.5; 2]%float);
   ("Waveform/RH100", [2; 4]%float);
   ("Geolocation/Latitude_Top", [70.5; 71.5]%float);
   ("Geolocation/Latitude_Low", [70.5; 71]%float);
   ("Geolocation/Longitude_Top", [310.5; 311.5]%float);
   ("Geolocation/Longitude_Low", [310.5; 311]%float);
   ("Time/J2000", [556847999.5; 556848000.5]%float)].

(** An LVIS file of three shots: the time of the second is not a number,
    and the third is dated 40000 days before 2000-01-01T12:00:00. *)
Definition gap_name : string := "/data/ILVIS2_GL2017_0826_R1803_067887.H5".

Definition gap_datasets : list (string * list float) :=
  [("Shot_Number", [1; 2; 3]%float);
   ("Elevation_Surfaces/Elevation_Low", [100; 200; 300]%float);
   ("Elevation_Surfaces/Elevation_High", [101; 204; 306]%float);
   ("Waveform/RH50", [0.5; 2; 3]%float);
   ("Waveform/RH100", [2; 4; 6]%float);
   ("Geolocation/Latitude_Top", [70.5; 71.5; 72.5]%float);
   ("Geolocation/Latitude_Low", [70.5; 71; 72]%float);
   ("Geolocation/Longitude_Top", [310.5; 311.5; 312.5]%float);
   ("Geolocation/Longitude_Low", [310.5; 311; 312]%float);
   ("Time/J2000", [556847999.5; nan; -3456000000]%float)].

(** The current user lives in [/home/user]; no other user is known.
    Files can be created, and their permission bits set, under [/data]
    and under the home directory. *)
Definition home (name : string) : option string :=
  if name =? "" then Some "/home/user" else None.

Definition writable (path : string) : bool :=
  prefix "/data/" path || prefix "/home/user/" path.

Definition files : IceBridge.filesystem :=
  IceBridge.Build_filesystem
    (fun path =>
       if path =? icessn_name then Some (IceBridge.Text icessn_lines)
       else if path =? equator_name then Some (IceBridge.Text equator_lines)
       else if path =? lvis_name then Some (IceBridge.Datasets lvis_datasets)
       else if path =? gap_name then Some (IceBridge.Datasets gap_datasets)
       else None)
    home writable writable.

(** An ATL11 granule with one beam pair of three reference points and two
    cycles: no data in the first cycle, data in the second. *)
Definition atl11_name : string := "/data/ATL11_000110_0306_003_01.h5".

(** The largest binary32 value, the fill value of the product. *)
Definition no_data : float := 0x1.fffffep+127%float.

Definition pt1 : ATL11.beam_pair :=
  ATL11.Build_beam_pair [1; 2; 3]%Z [3; 4]%Z
    [70; 71; 72]%float [10; 11; 12]%float
    [[no_data; 86400]; [no_data; 172800]; [no_data; 259200]]%float
    no_data no_data no_data no_data
    [5]%Z [7]%Z [3]%Z [70.5]%float [10.5]%float [43200]%float
    no_data no_data no_data.

Definition surroundings : ATL11.environment :=
  ATL11.Build_environment
    (fun path =>
       if path =? atl11_name
       then Some (ATL11.Build_granule 0 [("pt1", pt1)]) else None)
    (fun _ _ _ => nan) (fun _ _ => nan)
    (fun _ _ => Some ("2018-01-02T00:00:00", "2018-01-04T00:00:00"))
    home writable writable.

(** An LVIS file of the LDS 1.04 schema with three shots: a flat return
    with its centroid on it, a flat return with the centroid half a metre
    above, and a return of four metres. *)
Definition flat_name : string := "/data/ILVIS2_GL2011_0415_R1408_052000.H5".

Definition flat_datasets : list (string * list float) :=
  [("Shot_Number", [1; 2; 3]%float);
   ("Elevation_Surfaces/Elevation_Centroid", [100; 100.5; 202]%float);
   ("Elevation_Surfaces/Elevation_Low", [100; 100; 200]%float);
   ("Elevation_Surfaces/Elevation_High", [100; 100; 204]%float);
   ("Geolocation/Latitude_Centroid", [70.5; 70.75; 71.25]%float);
   ("Geolocation/Latitude_Low", [70.5; 70.5; 71]%float);
   ("Geolocation/Longitude_Centroid", [310.5; 310.75; 311.25]%float);
   ("Geolocation/Longitude_Low", [310.5; 310.5; 311]%float);
   ("Time/J2000", [356140800; 356140801; 356140802]%float)].

Definition archive : IceBridge.filesystem :=
  IceBridge.Build_filesystem
    (fun path =>
       if path =? flat_name then Some (IceBridge.Datasets flat_datasets)
       else IceBridge.content_of files path)
    home writable writable.

(** An ICESSN file of an early campaign, its date written with six
    digits, with the shots of [icessn_name]. *)
Definition early_name : string :=
  "/data/BLATM2_930623_120000_smooth_nadir3seg_50pts.seg".

Definition campaigns : IceBridge.filesystem :=
  IceBridge.Build_filesystem
    (fun path =>
       if path =? early_name then Some (IceBridge.Text icessn_lines)
       else IceBridge.content_of archive path)
    home writable writable.

(** A Level-1B file in HDF5 with six shots, four of which have no
    position. *)
Definition unlocated_name : string :=
  "/data/ILATM1B_20110101_120000.atm4cT3.h5".

Definition unlocated_datasets : list (string * list float) :=
  [("latitude", [nan; nan; nan; 70.25; 70.5; nan]%float);
   ("longitude", [nan; nan; nan; 314.75; 314.5; nan]%float);
   ("elevation", [100.5; 101.5; 102.5; 103.5; 104.5; 105.5]%float);
   ("instrument_parameters/time_hhmmss",
    [120000.5; 120001.5; 120002.5; 120003.5; 120004.5; 120005.5]%float)].

Definition level1b : IceBridge.filesystem :=
  IceBridge.Build_filesystem
    (fun path =>
       if path =? unlocated_name
       then Some (IceBridge.Datasets unlocated_datasets)
       else IceBridge.content_of campaigns path)
    home writable writable.

(** Services whose model files cannot be read. *)
Definition offline : Tide.services :=
  Build_services
    (convert_calendar_dates calm) (count_leap_seconds calm)
    (convert_delta_time calm) (calc_delta_time calm)
    (fun _ _ _ _ _ => None)
    (predict_tide_drift calm) (infer_minor_corrections calm).

(** A beam pair without any along-track time, and a granule that holds it
    beside [pt1], the pairs being listed out of order. *)
Definition pt3 : ATL11.beam_pair :=
  ATL11.Build_beam_pair [1; 2]%Z [3; 4]%Z
    [70; 71]%float [10; 11]%float
    [[no_data; no_data]; [no_data; no_data]]%float
    no_data no_data no_data no_data
    [5]%Z [7]%Z [3]%Z [70.5]%float [10.5]%float [43200]%float
    no_data no_data no_data.

(** A beam pair with the second cycle of [pt1] and another first cycle. *)
Definition pt2 : ATL11.beam_pair :=
  ATL11.Build_beam_pair [1; 2; 3]%Z [3; 4]%Z
    [70; 71; 72]%float [10; 11; 12]%float
    [[0; 86400]; [43200; 172800]; [no_data; 259200]]%float
    no_data no_data no_data no_data
    [5]%Z [7]%Z [3]%Z [70.5]%float [10.5]%float [43200]%float
    no_data no_data no_data.

Definition void_name : string := "/data/ATL11_000210_0306_003_01.h5".

Definition pairs_name : string := "/data/ATL11_000310_0306_003_01.h5".

Definition granules : ATL11.environment :=
  ATL11.Build_environment
    (fun path =>
       if path =? void_name
       then Some (ATL11.Build_granule 0 [("pt3", pt3); ("pt1", pt1)])
       else if path =? pairs_name
       then Some (ATL11.Build_granule 0
                    [("pt3", pt1); ("pt1", pt1); ("pt2", pt1)])
       else ATL11.read_HDF5_ATL11 surroundings path)
    (fun _ _ _ => nan) (fun _ _ => nan)
    (fun _ _ => Some ("2018-01-02T00:00:00", "2018-01-04T00:00:00"))
    home writable writable.

End Sample.

(* ================================================================== *)
(** * Properties *)
(* ================================================================== *)

Import Re Py Tide.
Local Open Scope py_scope.

(** ** Computations that succeed *)

Lemma bind_inr {A B : Type} (m : M A) (f : A -> M B) tr (b : B) :
  bind m f = (tr, inr b) ->
  exists t1 a t2, m = (t1, inr a) /\ f a = (t2, inr b) /\ tr = (t1 ++ t2)%list.
Proof.
  unfold bind. destruct m as [t1 [e | a]]; [discriminate |].
  destruct (f a) as [t2 r] eqn:Hf. intros H. inversion H; subst.
  exists t1, a, t2. auto.
Qed.

Lemma lift_inr {A : Type} (e : error) (o : option A) tr (a : A) :
  lift e o = (tr, inr a) -> o = Some a /\ tr = [].
Proof.
  destruct o; cbn; intros H; inversion H; auto.
Qed.

Lemma emit_inr (ev : event) tr (u : unit) :
  emit ev = (tr, inr u) -> tr = [ev].
Proof. cbn. intros H. inversion H. reflexivity. Qed.

Lemma create_inr (allowed : string -> bool) (path : string) tr (u : unit) :
  create allowed path = (tr, inr u) ->
  allowed path = true /\ tr = [CreateOutput path].
Proof.
  unfold create. destruct (allowed path); cbn; intros H; inversion H; auto.
Qed.

Lemma chmod_inr (allowed : string -> bool) (path : string) tr (u : unit) :
  chmod allowed path = (tr, inr u) ->
  allowed path = true /\ tr = [Chmod path].
Proof.
  unfold chmod. destruct (allowed path); cbn; intros H; inversion H; auto.
Qed.

Lemma ret_inr {A : Type} (a b : A) tr :
  ret a = (tr, inr b) -> a = b /\ tr = [].
Proof. cbn. intros H. inversion H. auto. Qed.

(** Takes a successful computation apart, bind by bind. *)
Ltac invert_run H :=
  match type of H with
  | bind _ _ = (_, inr _) =>
      let t1 := fresh "tr" in
      let a := fresh "v" in
      let t2 := fresh "tr" in
      let H1 := fresh "Hrun" in
      let H2 := fresh "Hrun" in
      let E := fresh "Etr" in
      apply bind_inr in H;
      destruct H as (t1 & a & t2 & H1 & H2 & E);
      try invert_run H1; try invert_run H2
  | lift _ _ = (_, inr _) =>
      let E := fresh "Etr" in
      apply lift_inr in H; destruct H as [H E]
  | var _ _ = (_, inr _) =>
      let E := fresh "Etr" in
      unfold var in H; apply lift_inr in H; destruct H as [H E]
  | emit _ = (_, inr _) => apply emit_inr in H
  | create _ _ = (_, inr _) =>
      let E := fresh "Hallowed" in
      apply create_inr in H; destruct H as [E H]
  | chmod _ _ = (_, inr _) =>
      let E := fresh "Hallowed" in
      apply chmod_inr in H; destruct H as [E H]
  | ret _ = (_, inr _) =>
      let E := fresh "Etr" in
      apply ret_inr in H; destruct H as [H E]
  end.

(** ** Packed times *)



(** ** Two-digit years *)

Lemma is_digit_cases (a : ascii) :
  is_digit a = true ->
  In a ["0"; "1"; "2"; "3"; "4"; "5"; "6"; "7"; "8"; "9"]%char.
Proof.
  destruct a as [[] [] [] [] [] [] [] []]; cbv; intros H;
    try discriminate H; tauto.
Qed.

(** Case analysis on two digits. *)
Ltac each_digit_pair Ha Hb :=
  apply is_digit_cases in Ha, Hb; cbn [In] in Ha, Hb;
  repeat (destruct Ha as [<- | Ha]; [| try contradiction]);
  repeat (destruct Hb as [<- | Hb]; [| try contradiction]).

Lemma two_digits (a b : ascii) :
  is_digit a = true -> is_digit b = true ->
  F64.int_of_string (String a (String b "")) =
    Some (10 * F64.digit_val a + F64.digit_val b)%Z.
Proof.
  intros Ha Hb. each_digit_pair Ha Hb; vm_compute; reflexivity.
Qed.

Lemma pivot_of_two_digits (a b : ascii) :
  is_digit a = true -> is_digit b = true ->
  let yy := (10 * F64.digit_val a + F64.digit_val b)%Z in
  let year := (if (90 <=? yy)%Z then 1900 + yy else 2000 + yy)%Z in
  IceBridge.two_digit_year yy = F64.of_Z year /\
  IceBridge.float64 (String a (String b "")) = ret (F64.of_Z yy) /\
  IceBridge.two_digit_year_text (F64.of_Z yy) = F64.string_of_Z year.
Proof.
  intros Ha Hb. each_digit_pair Ha Hb; vm_compute; repeat split.
Qed.

(** The date the readers take from a token of six digits, and the date
    texts the driver takes from it. *)
Lemma six_digit_token (d1 d2 d3 d4 d5 d6 : ascii) :
  is_digit d1 = true -> is_digit d2 = true -> is_digit d3 = true ->
  is_digit d4 = true -> is_digit d5 = true -> is_digit d6 = true ->
  let YYMMDD :=
    String d1 (String d2 (String d3 (String d4 (String d5 (String d6 ""))))) in
  let yy := (10 * F64.digit_val d1 + F64.digit_val d2)%Z in
  let year := (if (90 <=? yy)%Z then 1900 + yy else 2000 + yy)%Z in
  IceBridge.year_month_day YYMMDD =
    Some (F64.of_Z year,
          (10 * F64.digit_val d3 + F64.digit_val d4)%Z,
          (10 * F64.digit_val d5 + F64.digit_val d6)%Z) /\
  IceBridge.atm_date_texts YYMMDD =
    ret (Some (F64.string_of_Z year,
               String d3 (String d4 ""), String d5 (String d6 ""))).
Proof.
  intros H1 H2 H3 H4 H5 H6 YYMMDD yy year.
  destruct (pivot_of_two_digits d1 d2 H1 H2) as (Hy & Hf & Ht).
  fold yy in Hy, Hf, Ht. fold year in Hy, Ht.
  unfold IceBridge.year_month_day, IceBridge.atm_date_texts, IceBridge.from.
  subst YYMMDD. cbn [String.length Nat.eqb Nat.sub substring].
  rewrite (two_digits d1 d2 H1 H2), (two_digits d3 d4 H3 H4),
          (two_digits d5 d6 H5 H6).
  fold yy. rewrite Hy, Hf. cbn [bind ret app]. rewrite Ht.
  split; reflexivity.
Qed.

Example two_digit_year_09 :
  IceBridge.year_month_day "090623" = Some (2009%float, 6%Z, 23%Z) /\
  IceBridge.atm_date_texts "090623" = ret (Some ("2009", "06", "23")).
Proof. vm_compute. split; reflexivity. Qed.

(** ** Hemisphere of a file *)

Lemma count_nonzero_pos {A : Type} (p : A -> bool) (l : list A) :
  (0 <? Np.count_nonzero (map p l))%nat = true <->
  exists x, In x l /\ p x = true.
Proof.
  unfold Np.count_nonzero. induction l as [| a l IH]; cbn.
  - split; [discriminate | intros (x & [] & _)].
  - destruct (p a) eqn:Hp; cbn.
    + split; [intros _; exists a; auto | reflexivity].
    + rewrite IH. split; intros (x & Hx & Hpx).
      * exists x. auto.
      * destruct Hx as [<- | Hx]; [congruence | exists x; auto].
Qed.

(** Shots with a latitude that compares as non-negative / negative. *)
Definition shots_north (lat : list float) : Prop :=
  exists x, In x lat /\ (0 <=? x)%float = true.
Definition shots_south (lat : list float) : Prop :=
  exists x, In x lat /\ (x <? 0)%float = true.

Lemma hemisphere_cases (lat : list float) :
  (shots_north lat /\ ~ shots_south lat /\ IceBridge.hemisphere lat = ret "N") \/
  (shots_south lat /\ ~ shots_north lat /\ IceBridge.hemisphere lat = ret "S") \/
  (((shots_north lat /\ shots_south lat) \/
    (~ shots_north lat /\ ~ shots_south lat)) /\
   IceBridge.hemisphere lat = raise ValueError).
Proof.
  unfold IceBridge.hemisphere, shots_north, shots_south.
  pose proof (count_nonzero_pos (fun x => (0 <=? x)%float) lat) as HN.
  pose proof (count_nonzero_pos (fun x => (x <? 0)%float) lat) as HS.
  destruct (0 <? Np.count_nonzero (map (fun x => (0 <=? x)%float) lat))%nat;
  destruct (0 <? Np.count_nonzero (map (fun x => (x <? 0)%float) lat))%nat;
  cbn [app].
  - right; right. split; [left; split; [apply HN | apply HS] |]; reflexivity.
  - left. split; [apply HN; reflexivity |]. split; [| reflexivity].
    intros H. apply HS in H. discriminate.
  - right; left. split; [apply HS; reflexivity |]. split; [| reflexivity].
    intros H. apply HN in H. discriminate.
  - right; right. split; [| reflexivity]. right.
    split; intros H; [apply HN in H | apply HS in H]; discriminate.
Qed.

(** What a successful end of an ATM reader says about the latitudes that
    are left after subsetting. *)
Definition one_sided (d : list (string * list float)) (HEM : string) : Prop :=
  exists lat, Np.lookup d "lat" = Some lat /\
    ((HEM = "N" /\ shots_north lat /\ ~ shots_south lat) \/
     (HEM = "S" /\ shots_south lat /\ ~ shots_north lat)).

Lemma subset_and_locate_inr r sub tr d n HEM :
  IceBridge.subset_and_locate r sub = (tr, inr (d, n, HEM)) ->
  one_sided d HEM.
Proof.
  unfold IceBridge.subset_and_locate, IceBridge.dataset. intros H.
  invert_run H.
  match goal with E : (_, _, _) = (d, n, HEM) |- _ => inversion E; subst end.
  match goal with
  | Hl : Np.lookup _ "lat" = Some ?lat, Hh : IceBridge.hemisphere ?lat = _ |- _ =>
      exists lat; split; [exact Hl |];
      destruct (hemisphere_cases lat)
        as [(HN & HS & E) | [(HS & HN & E) | (_ & E)]];
      rewrite E in Hh; cbn in Hh; inversion Hh; subst; auto
  end.
Qed.

Lemma subset_pure d sub : fst (IceBridge.subset d sub) = [].
Proof.
  unfold IceBridge.subset. destruct (IceBridge.truthy sub) as [idx |]; [| reflexivity].
  induction d as [| kv d IH]; [reflexivity |].
  cbn [mapM]. destruct (Np.take (snd kv) idx); cbn; [| reflexivity].
  destruct (mapM _ d) as [t [e | a]]; cbn in *; subst; reflexivity.
Qed.

(** C8 (amended).  The ATM readers return the hemisphere on whose side the
    shots that are left after subsetting lie, when they all lie on one
    side: "N" when some latitude is non-negative and none is negative, "S"
    when some is negative and none is non-negative.  A file with shots on
    both sides is refused with a ValueError (whichever side has more
    shots).  The LVIS reader takes the hemisphere from the region code of
    the file name, "GL" for north and "AQ" for south. *)
Theorem hemisphere_flag (S : services) (fs : IceBridge.filesystem)
    (input_file : string) (input_subsetter : option (list nat)) :
  (forall tr d n HEM,
     IceBridge.read_ATM_icessn_file S fs input_file input_subsetter =
       (tr, inr (d, n, HEM)) \/
     IceBridge.read_ATM_qfit_file S fs input_file input_subsetter =
       (tr, inr (d, n, HEM)) ->
     one_sided d HEM) /\
  (forall r d lat,
     IceBridge.subset (fst r) input_subsetter = ret d ->
     Np.lookup d "lat" = Some lat ->
     shots_north lat -> shots_south lat ->
     IceBridge.subset_and_locate r input_subsetter = raise ValueError) /\
  (forall tr d n HEM,
     IceBridge.read_LVIS_HDF5_file fs input_file input_subsetter =
       (tr, inr (d, n, HEM)) ->
     exists c,
       Np.last_opt (findall IceBridge.lvis_rx input_file) = Some c /\
       ((group_text c 2 = "GL" /\ HEM = "N") \/
        (group_text c 2 = "AQ" /\ HEM = "S"))).
Proof.
  split; [| split].
  - intros tr d n HEM [H | H];
      unfold IceBridge.read_ATM_icessn_file, IceBridge.read_ATM_qfit_file in H;
      apply bind_inr in H; destruct H as (t1 & r & t2 & _ & H & _);
      apply (subset_and_locate_inr _ _ _ _ _ _ H).
  - intros r d lat Hsub Hlat HN HS.
    unfold IceBridge.subset_and_locate, IceBridge.dataset.
    rewrite Hsub. cbn [bind ret]. rewrite Hlat. cbn [lift bind ret].
    destruct (hemisphere_cases lat) as [(_ & HS' & _) | [(_ & HN' & _) | (_ & E)]];
      [contradiction | contradiction |].
    rewrite E. reflexivity.
  - intros tr d n HEM H. unfold IceBridge.read_LVIS_HDF5_file in H.
    apply bind_inr in H. destruct H as (t1 & [[d0 n0] REGION] & t2 & Ha & H & _).
    invert_run H.
    match goal with E : (_, _, _) = (d, n, HEM) |- _ => inversion E; subst end.
    unfold IceBridge.lvis_arrays in Ha.
    apply bind_inr in Ha. destruct Ha as (t3 & c & t4 & Hc & Ha & _).
    apply lift_inr in Hc. destruct Hc as [Hc _]. exists c. split; [exact Hc |].
    assert (REGION = group_text c 2) as ->.
    { invert_run Ha.
      match goal with
      | E : context [let (_, _) := ?x in _] |- _ =>
          destruct x as [[[data lon'] lat'] error];
          apply ret_inr in E; destruct E as [E _]; inversion E; reflexivity
      end. }
    match goal with
    | Hl : Np.lookup IceBridge.lvis_flag _ = Some HEM |- _ =>
        unfold IceBridge.lvis_flag in Hl; cbn [Np.lookup] in Hl;
        destruct (String.eqb_spec "GL" (group_text c 2)) as [E | _];
        [ inversion Hl; auto
        | destruct (String.eqb_spec "AQ" (group_text c 2)) as [E | _];
          [inversion Hl; auto | discriminate] ]
    end.
Qed.

Lemma hemisphere_flag_witness :
  match outcome (IceBridge.read_ATM_icessn_file Sample.calm Sample.files
                   Sample.icessn_name None) with
  | inr (d, _, HEM) => HEM = "N" /\ one_sided d HEM
  | inl _ => False
  end.
Proof.
  destruct (IceBridge.read_ATM_icessn_file Sample.calm Sample.files
              Sample.icessn_name None) as [tr [e | [[d n] HEM]]] eqn:E.
  - vm_compute in E. discriminate E.
  - cbn [outcome snd]. split.
    + vm_compute in E. inversion E. reflexivity.
    + exact (proj1 (hemisphere_flag Sample.calm Sample.files
                      Sample.icessn_name None) tr d n HEM (or_introl E)).
Defined.

(** C8, as stated, fails: a file with two shots north of the equator and
    one south of it is not given the hemisphere of the majority; the reader
    raises ValueError. *)
Lemma majority_hemisphere_refused :
  match outcome (IceBridge.icessn_arrays Sample.calm Sample.files
                   Sample.equator_name None) with
  | inr (d, _) =>
      option_map (map (fun x => (0 <=? x)%float)) (Np.lookup d "lat")
  | inl _ => None
  end = Some [true; true; false] /\
  outcome (IceBridge.read_ATM_icessn_file Sample.calm Sample.files
             Sample.equator_name None) = inl ValueError.
Proof. vm_compute. split; reflexivity. Qed.

(** ** Unknown models *)

Lemma select_model_unknown (TIDE_MODEL : string) :
  existsb (String.eqb TIDE_MODEL) model_choices = false ->
  select_model TIDE_MODEL = None.
Proof.
  unfold model_choices. cbn [existsb]. intros H.
  repeat (apply orb_false_elim in H; destruct H as [?E H]).
  unfold select_model.
  repeat match goal with
         | E : (TIDE_MODEL =? _) = false |- _ => rewrite E; clear E
         end.
  reflexivity.
Qed.

Lemma select_model_known (TIDE_MODEL : string) :
  existsb (String.eqb TIDE_MODEL) model_choices = true ->
  select_model TIDE_MODEL <> None.
Proof.
  unfold model_choices. cbn [existsb]. intros H. unfold select_model.
  repeat match goal with
         | |- context [(TIDE_MODEL =? ?m)] =>
             destruct (TIDE_MODEL =? m); [discriminate |]; cbn [orb] in H
         end.
  discriminate H.
Qed.

Lemma sorted_not_nil (l : list (string * ATL11.beam_pair)) :
  l <> [] -> ATL11.sorted l <> [].
Proof.
  destruct l as [| p l]; [congruence |]. intros _.
  unfold ATL11.sorted. cbn [fold_right].
  destruct (fold_right ATL11.insert_pair [] l) as [| q l'];
    cbn [ATL11.insert_pair]; [discriminate |].
  destruct (String.leb (fst p) (fst q)); discriminate.
Qed.

(** C7 (amended).  For a model identifier outside the catalog of 23
    models: both [main()] reject the command line (argparse) before any
    file is touched; the airborne driver, called directly, fails before any
    file access (on the unbound [output_variable], once its argument is
    parsed); the repeat-track driver, called directly, has no such early
    failure: it reads the input file first, and fails on the unbound
    [model_format] only when that file holds a beam pair. *)
Theorem unknown_model (S : services) (fs : IceBridge.filesystem)
    (env : ATL11.environment) (o : options) (infile : list string)
    (arg INPUT_FILE TIDE_MODEL : string) :
  existsb (String.eqb TIDE_MODEL) model_choices = false ->
  select_model TIDE_MODEL = None /\
  IceBridge.main S fs o infile TIDE_MODEL = raise SystemExit /\
  ATL11.main S env o infile TIDE_MODEL = raise SystemExit /\
  (exists e,
     IceBridge.compute_tides_icebridge_data S fs o arg TIDE_MODEL =
       ([], inl e) /\
     (IceBridge.parse_arg (IceBridge.user_home fs) arg <> None ->
      e = UnboundLocalError "output_variable")) /\
  (exists rest r,
     ATL11.compute_tides_ICESat2 S env o INPUT_FILE TIDE_MODEL =
       (ReadInput INPUT_FILE :: rest, r)) /\
  (forall mds,
     ATL11.read_HDF5_ATL11 env INPUT_FILE = Some mds ->
     ATL11.IS2_atl11_pairs mds <> [] ->
     ATL11.compute_tides_ICESat2 S env o INPUT_FILE TIDE_MODEL =
       ([ReadInput INPUT_FILE], inl (UnboundLocalError "model_format"))).
Proof.
  intros H. pose proof (select_model_unknown _ H) as Hm.
  split; [exact Hm |]. split; [| split; [| split; [| split]]].
  - unfold IceBridge.main. rewrite H. destruct infile; reflexivity.
  - unfold ATL11.main. rewrite H. destruct infile; reflexivity.
  - unfold IceBridge.compute_tides_icebridge_data. rewrite Hm.
    destruct (IceBridge.parse_arg (IceBridge.user_home fs) arg)
      as [[input_file sub] |]; cbn.
    + eexists. split; [reflexivity | reflexivity].
    + eexists. split; [reflexivity | congruence].
  - unfold ATL11.compute_tides_ICESat2.
    unfold bind at 1. unfold emit. cbv beta iota.
    match goal with
    | |- context [let (_, _) := ?X in _] => destruct X as [t r]
    end.
    exists t, r. reflexivity.
  - intros mds Hread Hpairs.
    unfold ATL11.compute_tides_ICESat2. rewrite Hread, Hm.
    unfold bind at 1 2. unfold emit, lift, ret. cbv beta iota.
    pose proof (sorted_not_nil _ Hpairs) as Hs.
    destruct (ATL11.sorted (ATL11.IS2_atl11_pairs mds)) as [| p l];
      [congruence |].
    reflexivity.
Qed.

Lemma unknown_model_witness :
  select_model "FOO" = None /\
  IceBridge.main Sample.calm Sample.files Sample.options
    [Sample.icessn_name] "FOO" = raise SystemExit /\
  ATL11.main Sample.calm Sample.surroundings Sample.options
    [Sample.atl11_name] "FOO" = raise SystemExit /\
  (exists e,
     IceBridge.compute_tides_icebridge_data Sample.calm Sample.files
       Sample.options Sample.icessn_name "FOO" = ([], inl e) /\
     (IceBridge.parse_arg (IceBridge.user_home Sample.files)
        Sample.icessn_name <> None ->
      e = UnboundLocalError "output_variable")) /\
  (exists rest r,
     ATL11.compute_tides_ICESat2 Sample.calm Sample.surroundings
       Sample.options Sample.atl11_name "FOO" =
       (ReadInput Sample.atl11_name :: rest, r)) /\
  (forall mds,
     ATL11.read_HDF5_ATL11 Sample.surroundings Sample.atl11_name = Some mds ->
     ATL11.IS2_atl11_pairs mds <> [] ->
     ATL11.compute_tides_ICESat2 Sample.calm Sample.surroundings
       Sample.options Sample.atl11_name "FOO" =
       ([ReadInput Sample.atl11_name],
        inl (UnboundLocalError "model_format"))).
Proof.
  apply (unknown_model Sample.calm Sample.files Sample.surroundings
           Sample.options [Sample.icessn_name] Sample.icessn_name
           Sample.atl11_name "FOO").
  reflexivity.
Defined.

(** C7, as stated, fails: given a model outside the catalog, the
    repeat-track driver reads the input file, and only then fails, on an
    unbound variable. *)
Lemma unknown_model_after_input_read :
  ATL11.compute_tides_ICESat2 Sample.calm Sample.surroundings Sample.options
    Sample.atl11_name "FOO" =
    ([ReadInput Sample.atl11_name], inl (UnboundLocalError "model_format")).
Proof. vm_compute. reflexivity. Qed.

(** ** The subsetter *)

(** A character of a file name that is neither an opening bracket nor a
    newline. *)
Definition plain_chr (a : ascii) : bool :=
  negb (Ascii.eqb a "[") && negb (Ascii.eqb a newline).

Fixpoint plain (s : string) : bool :=
  match s with
  | EmptyString => true
  | String a s' => plain_chr a && plain s'
  end.

(** What follows the lazy first group of [subsetter_rx]. *)
Definition after_name (whole : string) (s : string) (c : caps)
    : option result :=
  run (seqs [opt (Group 2 (seqs [chr "["; Group 3 (Star false dot); chr "]"]));
             Eol]) s ((1, substring 0 (String.length whole - String.length s) whole) :: c)
      (fun s' c' => Some (s', c')).

Lemma after_name_plain whole a t c :
  plain_chr a = true -> after_name whole (String a t) c = None.
Proof.
  unfold plain_chr. intros H. apply andb_prop in H. destruct H as [Hb Hn].
  apply negb_true_iff in Hb, Hn.
  unfold after_name. cbn [seqs opt run chr].
  rewrite Ascii.eqb_sym in Hb. rewrite Hb.
  destruct t as [| b t]; [rewrite Hn |]; reflexivity.
Qed.

Lemma lazy_dots whole pre suf c x :
  plain pre = true ->
  after_name whole suf c = Some x ->
  run (Star false dot) (pre ++ suf) c (after_name whole) = Some x.
Proof.
  intros Hp Hs. induction pre as [| a pre IH].
  - cbn [append]. cbn [run]. destruct (String.length suf); [exact Hs |].
    rewrite Hs. reflexivity.
  - cbn [plain] in Hp. apply andb_prop in Hp. destruct Hp as [Ha Hp].
    specialize (IH Hp).
    cbn [append]. cbn [run String.length].
    rewrite (after_name_plain whole a (pre ++ suf) c Ha).
    unfold dot at 1. cbn [run].
    unfold plain_chr in Ha. apply andb_prop in Ha. destruct Ha as [_ Hn].
    rewrite Hn.
    replace (String.length (pre ++ suf) <? S (String.length (pre ++ suf)))%nat
      with true by (symmetry; apply Nat.ltb_lt; lia).
    exact IH.
Qed.

Lemma substring_prefix (pre suf : string) :
  substring 0 (String.length (pre ++ suf) - String.length suf) (pre ++ suf)
  = pre.
Proof.
  assert (forall s t, String.length (s ++ t) = String.length s + String.length t)%nat
    as Hlen by (induction s; cbn; intros; [| rewrite IHs]; reflexivity).
  rewrite Hlen. replace (String.length pre + String.length suf - String.length suf)%nat
    with (String.length pre) by lia.
  induction pre as [| a pre IH]; cbn.
  - destruct suf; reflexivity.
  - rewrite IH. reflexivity.
Qed.

Lemma after_name_suffix whole c :
  after_name whole "[0-2,5]" c =
  Some ("", [(2, "[0-2,5]"); (3, "0-2,5");
             (1, substring 0 (String.length whole - 7) whole)] ++ c)%list.
Proof. reflexivity. Qed.

Lemma parse_arg_suffix (home : string -> option string)
    (input_file : string) :
  plain input_file = true ->
  IceBridge.parse_arg home (input_file ++ "[0-2,5]") =
    Some (Path.expanduser home input_file, Some [0; 1; 2; 5]).
Proof.
  intros Hp. unfold IceBridge.parse_arg, rmatch.
  change (run IceBridge.subsetter_rx (input_file ++ "[0-2,5]") []
            (fun s' c' => Some (s', c')))
    with (run (Star false dot) (input_file ++ "[0-2,5]") []
            (after_name (input_file ++ "[0-2,5]"))).
  rewrite (lazy_dots _ _ _ _ _ Hp (after_name_suffix _ [])).
  cbn [app group Nat.eqb group_text].
  change (String.length "[0-2,5]") with 7 in *.
  pose proof (substring_prefix input_file "[0-2,5]") as E.
  change (String.length "[0-2,5]") with 7 in E. rewrite E.
  reflexivity.
Qed.

(** The records at the positions 0, 1, 2 and 5 of every variable. *)
Definition records_0125 (d : list (string * list float))
    : list (string * list float) :=
  map (fun kv => (fst kv, map (fun i => nth i (snd kv) 0%float) [0; 1; 2; 5]))
      d.

Lemma take_0125 (v : list float) :
  match Np.take v [0; 1; 2; 5] with
  | Some r => r = map (fun i => nth i v 0%float) [0; 1; 2; 5] /\
              6 <= List.length v
  | None => List.length v < 6
  end.
Proof.
  destruct v as [| a [| b [| c [| d [| e [| f v]]]]]]; cbn;
    try lia; split; [reflexivity | lia].
Qed.

Lemma subset_0125 (d0 : list (string * list float)) :
  (forall kv, In kv d0 -> 6 <= List.length (snd kv)) ->
  IceBridge.subset d0 (Some [0; 1; 2; 5]) = ret (records_0125 d0).
Proof.
  unfold IceBridge.subset. cbn [IceBridge.truthy].
  induction d0 as [| kv d0 IH]; intros H; [reflexivity |].
  cbn [mapM records_0125 map].
  pose proof (take_0125 (snd kv)) as Ht.
  destruct (Np.take (snd kv) [0; 1; 2; 5]) as [r |].
  - destruct Ht as [-> _]. cbn [lift bind ret].
    rewrite IH by (intros; apply H; right; assumption).
    reflexivity.
  - specialize (H kv (or_introl eq_refl)). lia.
Qed.

Lemma subset_0125_inr (d0 d : list (string * list float)) tr :
  IceBridge.subset d0 (Some [0; 1; 2; 5]) = (tr, inr d) ->
  d = records_0125 d0 /\
  forall kv, In kv d0 -> 6 <= List.length (snd kv).
Proof.
  unfold IceBridge.subset. cbn [IceBridge.truthy].
  revert d tr. induction d0 as [| kv d0 IH]; intros d tr H.
  - cbn in H. inversion H. split; [reflexivity | intros kv []].
  - cbn [mapM] in H. invert_run H.
    pose proof (take_0125 (snd kv)) as Ht.
    match goal with
    | E : Np.take (snd kv) _ = Some _ |- _ => rewrite E in Ht
    end.
    destruct Ht as [-> Hlen].
    match goal with
    | E : mapM _ d0 = (_, inr ?x) |- _ =>
        destruct (IH _ _ E) as [-> Hall]
    end.
    repeat match goal with
           | E : (_, _) = (_, _) |- _ => inversion E; subst; clear E
           | E : _ :: _ = _ |- _ => subst
           end.
    split; [reflexivity |].
    intros kv' [<- | Hin]; [exact Hlen | exact (Hall _ Hin)].
Qed.

Lemma file_length_0125 fs input_file HDF5 QFIT :
  IceBridge.file_length fs input_file (Some [0; 1; 2; 5]) HDF5 QFIT = ret 4.
Proof. reflexivity. Qed.

(** ** Output file names *)

Lemma atl11_write_path env gs FILENAME tr p :
  ATL11.HDF5_ATL11_tide_write env gs FILENAME = (tr, inr p) ->
  ATL11.path p = FILENAME.
Proof.
  unfold ATL11.HDF5_ATL11_tide_write. intros H. invert_run H.
  match goal with
  | E : ATL11.Build_product _ _ _ _ _ _ _ _ = p |- _ => rewrite <- E
  end.
  reflexivity.
Qed.

Lemma atl11_path S env o INPUT_FILE TIDE_MODEL tr p :
  ATL11.compute_tides_ICESat2 S env o INPUT_FILE TIDE_MODEL = (tr, inr p) ->
  ATL11.path p =
    Path.join (Path.dirname INPUT_FILE)
      (ATL11.output_file INPUT_FILE TIDE_MODEL).
Proof.
  unfold ATL11.compute_tides_ICESat2. intros H. invert_run H.
  subst p.
  match goal with
  | E : ATL11.HDF5_ATL11_tide_write _ _ _ = _ |- _ =>
      exact (atl11_write_path _ _ _ _ _ E)
  end.
Qed.

(** The file name the airborne driver derives from the argument, the model
    and what the reader returned. *)
Lemma icebridge_path S fs o arg TIDE_MODEL tr p input_file sub OIB t r :
  IceBridge.parse_arg (IceBridge.user_home fs) arg = Some (input_file, sub) ->
  IceBridge.instrument input_file = Some OIB ->
  IceBridge.read_data S fs input_file sub OIB = (t, inr r) ->
  IceBridge.compute_tides_icebridge_data S fs o arg TIDE_MODEL =
    (tr, inr p) ->
  exists date time FILENAME,
    outcome (IceBridge.date_texts OIB input_file) = inr date /\
    Np.lookup (fst (fst r)) "time" = Some time /\
    outcome (IceBridge.output_filename (snd r) TIDE_MODEL OIB date time) =
      inr FILENAME /\
    IceBridge.path p = Path.join (Path.dirname input_file) FILENAME.
Proof.
  intros Hparse Hoib Hread H.
  unfold IceBridge.compute_tides_icebridge_data in H.
  rewrite Hparse in H. cbn [lift] in H.
  apply bind_inr in H. destruct H as (t1 & parsed & t2 & Hp & H & _).
  apply ret_inr in Hp. destruct Hp as [<- _].
  rewrite Hoib in H.
  apply bind_inr in H. destruct H as (t3 & m & t4 & _ & H & _).
  apply bind_inr in H. destruct H as (t5 & OIB' & t6 & HO & H & _).
  unfold var in HO. apply lift_inr in HO. destruct HO as [HO _].
  inversion HO; subst OIB'.
  apply bind_inr in H. destruct H as (t7 & date & t8 & Hdate & H & _).
  rewrite Hread in H.
  apply bind_inr in H. destruct H as (t9 & r' & t10 & Hr & H & _).
  inversion Hr; subst r'. destruct r as [[dinput file_lines] HEM].
  apply bind_inr in H. destruct H as (t11 & time & t12 & Htime & H & _).
  unfold IceBridge.dataset in Htime. apply lift_inr in Htime.
  destruct Htime as [Htime _].
  invert_run H.
  match goal with
  | E : IceBridge.output_filename _ _ _ _ _ = (_, inr ?F) |- _ =>
      exists date, time, F; cbn [fst snd]; rewrite Hdate, E
  end.
  repeat split; try assumption; try reflexivity.
  match goal with
  | E : context [let (_, _) := ?x in _] |- _ =>
      destruct x as [tide mask]; invert_run E
  end.
  match goal with
  | E : IceBridge.Build_product _ _ _ _ _ _ _ _ _ _ _ _ = p |- _ =>
      rewrite <- E
  end.
  reflexivity.
Qed.

(** C9.  The output file name is a function of the input file name, the
    model identifier and (for the airborne product) the track data the
    reader returned: two runs that agree on these write to the same path,
    whatever the services, the options, the other files and the memory
    are.  For the repeat-track product the name is the granule pattern
    when the input name matches the ATLAS grammar and
    '<basename>_<model>_TIDES<extension>' otherwise. *)
Theorem output_filename_pure :
  (forall S1 S2 env1 env2 o1 o2 INPUT_FILE TIDE_MODEL tr1 tr2 p1 p2,
     ATL11.compute_tides_ICESat2 S1 env1 o1 INPUT_FILE TIDE_MODEL =
       (tr1, inr p1) ->
     ATL11.compute_tides_ICESat2 S2 env2 o2 INPUT_FILE TIDE_MODEL =
       (tr2, inr p2) ->
     ATL11.path p1 = ATL11.path p2 /\
     ATL11.path p1 =
       Path.join (Path.dirname INPUT_FILE)
         (ATL11.output_file INPUT_FILE TIDE_MODEL)) /\
  (forall INPUT_FILE TIDE_MODEL,
     match Np.last_opt (findall ATL11.granule_rx INPUT_FILE) with
     | Some c =>
         ATL11.output_file INPUT_FILE TIDE_MODEL =
           group_text c 2 ++ "_" ++ TIDE_MODEL ++ "_TIDES_" ++
           group_text c 3 ++ group_text c 4 ++ "_" ++
           group_text c 5 ++ group_text c 6 ++ "_" ++
           group_text c 7 ++ "_" ++ group_text c 8 ++ group_text c 9 ++ ".h5"
     | None =>
         ATL11.output_file INPUT_FILE TIDE_MODEL =
           fst (Path.splitext INPUT_FILE) ++ "_" ++ TIDE_MODEL ++ "_TIDES" ++
           snd (Path.splitext INPUT_FILE)
     end) /\
  (forall S1 S2 fs1 fs2 o1 o2 arg TIDE_MODEL tr1 tr2 p1 p2
          input_file sub OIB t1 t2 r,
     IceBridge.parse_arg (IceBridge.user_home fs1) arg =
       Some (input_file, sub) ->
     IceBridge.parse_arg (IceBridge.user_home fs2) arg =
       Some (input_file, sub) ->
     IceBridge.instrument input_file = Some OIB ->
     IceBridge.read_data S1 fs1 input_file sub OIB = (t1, inr r) ->
     IceBridge.read_data S2 fs2 input_file sub OIB = (t2, inr r) ->
     IceBridge.compute_tides_icebridge_data S1 fs1 o1 arg TIDE_MODEL =
       (tr1, inr p1) ->
     IceBridge.compute_tides_icebridge_data S2 fs2 o2 arg TIDE_MODEL =
       (tr2, inr p2) ->
     IceBridge.path p1 = IceBridge.path p2).
Proof.
  split; [| split].
  - intros S1 S2 env1 env2 o1 o2 f m tr1 tr2 p1 p2 H1 H2.
    rewrite (atl11_path _ _ _ _ _ _ _ H1), (atl11_path _ _ _ _ _ _ _ H2).
    split; reflexivity.
  - intros f m. unfold ATL11.output_file.
    destruct (Np.last_opt (findall ATL11.granule_rx f)) as [c |];
      [reflexivity |].
    destruct (Path.splitext f). reflexivity.
  - intros S1 S2 fs1 fs2 o1 o2 arg m tr1 tr2 p1 p2 input_file sub OIB
           t1 t2 r Hparse Hparse' Hoib Hr1 Hr2 H1 H2.
    destruct (icebridge_path _ _ _ _ _ _ _ _ _ _ _ _ Hparse Hoib Hr1 H1)
      as (d1 & tm1 & F1 & Hd1 & Ht1 & Hf1 & ->).
    destruct (icebridge_path _ _ _ _ _ _ _ _ _ _ _ _ Hparse' Hoib Hr2 H2)
      as (d2 & tm2 & F2 & Hd2 & Ht2 & Hf2 & ->).
    rewrite Hd1 in Hd2. inversion Hd2; subst d2.
    rewrite Ht1 in Ht2. inversion Ht2; subst tm2.
    rewrite Hf1 in Hf2. inversion Hf2; subst F2. reflexivity.
Qed.

Lemma output_filename_pure_witness :
  match outcome (ATL11.compute_tides_ICESat2 Sample.calm Sample.surroundings
                   Sample.options Sample.atl11_name "CATS2008"),
        outcome (ATL11.compute_tides_ICESat2 Sample.bounded
                   Sample.surroundings Sample.options Sample.atl11_name
                   "CATS2008") with
  | inr p1, inr p2 =>
      ATL11.path p1 = ATL11.path p2 /\
      ATL11.path p1 = "/data/ATL11_CATS2008_TIDES_000110_0306_003_01.h5"
  | _, _ => False
  end.
Proof.
  destruct (ATL11.compute_tides_ICESat2 Sample.calm Sample.surroundings
              Sample.options Sample.atl11_name "CATS2008")
    as [tr1 [e | p1]] eqn:E1; [vm_compute in E1; discriminate E1 |].
  destruct (ATL11.compute_tides_ICESat2 Sample.bounded Sample.surroundings
              Sample.options Sample.atl11_name "CATS2008")
    as [tr2 [e | p2]] eqn:E2; [vm_compute in E2; discriminate E2 |].
  cbn [outcome snd].
  exact (proj1 output_filename_pure _ _ _ _ _ _ _ _ _ _ _ _ E1 E2).
Defined.

Example granule_name :
  ATL11.output_file "/data/ATL11_000110_0306_003_01.h5" "CATS2008" =
    "ATL11_CATS2008_TIDES_000110_0306_003_01.h5".
Proof. vm_compute. reflexivity. Qed.

Example generic_name :
  ATL11.output_file "/data/repeat_tracks.h5" "GOT4.10" =
    "/data/repeat_tracks_GOT4.10_TIDES.h5".
Proof. vm_compute. reflexivity. Qed.

Example airborne_name :
  option_map IceBridge.path
    (match outcome (IceBridge.compute_tides_icebridge_data Sample.calm
                      Sample.files Sample.options Sample.icessn_name
                      "CATS2008") with
     | inr p => Some p
     | inl _ => None
     end) =
  Some "/data/GR_NASA_CATS2008_TIDES_WGS84_ATM2011010143200.H5".
Proof. vm_compute. reflexivity. Qed.

(** ** Order of binary64 values *)

Lemma SFcompare_refl (x : spec_float) :
  x <> S754_nan -> SFcompare x x = Some Eq.
Proof.
  destruct x as [s | s | | s m e]; cbn; intros H;
    try congruence; try (destruct s; reflexivity).
  rewrite Z.compare_refl, Pos.compare_cont_refl. destruct s; reflexivity.
Qed.

Lemma is_nan_spec (x : float) :
  is_nan x = true <-> Prim2SF x = S754_nan.
Proof.
  unfold is_nan. rewrite eqb_spec. unfold SFeqb. split.
  - intros H. destruct (Prim2SF x) eqn:E; try reflexivity;
      rewrite SFcompare_refl in H by discriminate; discriminate H.
  - intros ->. reflexivity.
Qed.

Lemma not_nan_spec (x : float) :
  is_nan x = false <-> Prim2SF x <> S754_nan.
Proof.
  rewrite <- is_nan_spec. destruct (is_nan x); split; congruence.
Qed.

(** Decides a goal on the comparison of spec floats by cases. *)
Ltac compare_cases :=
  repeat match goal with
         | x : spec_float |- _ => destruct x as [[] | [] | | [] ? ?]
         end;
  cbn in *; try congruence; try discriminate;
  repeat match goal with
         | H : context [Z.compare ?a ?b] |- _ =>
             destruct (Z.compare_spec a b); subst
         | |- context [Z.compare ?a ?b] =>
             destruct (Z.compare_spec a b); subst
         | H : context [Pos.compare_cont Eq ?a ?b] |- _ =>
             change (Pos.compare_cont Eq a b) with (Pos.compare a b) in *;
             destruct (Pos.compare_spec a b); subst
         | |- context [Pos.compare_cont Eq ?a ?b] =>
             change (Pos.compare_cont Eq a b) with (Pos.compare a b) in *;
             destruct (Pos.compare_spec a b); subst
         end;
  cbn in *; try congruence; try discriminate; try lia.

Lemma SFleb_trans (x y z : spec_float) :
  SFleb x y = true -> SFleb y z = true -> SFleb x z = true.
Proof. unfold SFleb, SFcompare. compare_cases. Qed.

Lemma SFltb_leb (x y : spec_float) :
  SFltb x y = true -> SFleb x y = true.
Proof. unfold SFltb, SFleb. destruct (SFcompare x y) as [[] |]; congruence. Qed.

Lemma SFltb_false_leb (x y : spec_float) :
  x <> S754_nan -> y <> S754_nan ->
  SFltb x y = false -> SFleb y x = true.
Proof. unfold SFltb, SFleb, SFcompare. compare_cases. Qed.

Lemma leb_trans (x y z : float) :
  (x <=? y)%float = true -> (y <=? z)%float = true -> (x <=? z)%float = true.
Proof. rewrite !leb_spec. apply SFleb_trans. Qed.

Lemma ltb_leb (x y : float) :
  (x <? y)%float = true -> (x <=? y)%float = true.
Proof. rewrite ltb_spec, leb_spec. apply SFltb_leb. Qed.

Lemma ltb_false_leb (x y : float) :
  is_nan x = false -> is_nan y = false ->
  (x <? y)%float = false -> (y <=? x)%float = true.
Proof.
  rewrite !not_nan_spec, ltb_spec, leb_spec. apply SFltb_false_leb.
Qed.

Lemma leb_refl (x : float) : is_nan x = false -> (x <=? x)%float = true.
Proof.
  rewrite not_nan_spec, leb_spec. intros H. unfold SFleb.
  rewrite SFcompare_refl by assumption. reflexivity.
Qed.

Lemma leb_infinity (x : float) :
  is_nan x = false -> (x <=? infinity)%float = true.
Proof.
  rewrite not_nan_spec, leb_spec. change (Prim2SF infinity) with (S754_infinity false).
  destruct (Prim2SF x) as [[] | [] | | [] ? ?]; cbn; congruence.
Qed.

Lemma neg_infinity_leb (x : float) :
  is_nan x = false -> (neg_infinity <=? x)%float = true.
Proof.
  rewrite not_nan_spec, leb_spec.
  change (Prim2SF neg_infinity) with (S754_infinity true).
  destruct (Prim2SF x) as [[] | [] | | [] ? ?]; cbn; congruence.
Qed.

Lemma infinity_leb (x : float) :
  (infinity <=? x)%float = true -> x = infinity.
Proof.
  rewrite leb_spec. change (Prim2SF infinity) with (S754_infinity false).
  intros H. apply Prim2SF_inj. change (Prim2SF infinity) with (S754_infinity false).
  destruct (Prim2SF x) as [[] | [] | | [] ? ?]; cbn in H; congruence.
Qed.

Lemma leb_neg_infinity (x : float) :
  (x <=? neg_infinity)%float = true -> x = neg_infinity.
Proof.
  rewrite leb_spec. change (Prim2SF neg_infinity) with (S754_infinity true).
  intros H. apply Prim2SF_inj.
  change (Prim2SF neg_infinity) with (S754_infinity true).
  destruct (Prim2SF x) as [[] | [] | | [] ? ?]; cbn in H; congruence.
Qed.

(** The least and the greatest value of an array. *)
Definition is_minimum (m : float) (l : list float) : Prop :=
  In m l /\ forall y, In y l -> (m <=? y)%float = true.

Definition is_maximum (m : float) (l : list float) : Prop :=
  In m l /\ forall y, In y l -> (y <=? m)%float = true.

Definition no_nan (l : list float) : Prop :=
  forall y, In y l -> is_nan y = false.

Lemma fold_fmin (l : list float) (x : float) :
  is_nan x = false -> no_nan l ->
  is_minimum (fold_left Np.fmin l x) (x :: l).
Proof.
  revert x. induction l as [| a l IH]; intros x Hx Hl.
  - cbn. split; [left; reflexivity |].
    intros y [<- | []]. apply leb_refl, Hx.
  - cbn [fold_left].
    assert (is_nan a = false) as Ha by (apply Hl; left; reflexivity).
    assert (no_nan l) as Hl' by (intros y Hy; apply Hl; right; exact Hy).
    unfold Np.fmin at 2. rewrite Hx, Ha.
    destruct (a <? x)%float eqn:E.
    + destruct (IH a Ha Hl') as [Hin Hle]. split.
      * destruct Hin as [<- | Hin]; [right; left; reflexivity | right; right; exact Hin].
      * intros y [<- | Hy]; [| exact (Hle y Hy)].
        apply leb_trans with a; [apply Hle; left; reflexivity |].
        apply ltb_leb, E.
    + destruct (IH x Hx Hl') as [Hin Hle]. split.
      * destruct Hin as [<- | Hin]; [left; reflexivity | right; right; exact Hin].
      * intros y [<- | [<- | Hy]].
        -- apply Hle. left; reflexivity.
        -- apply leb_trans with x; [apply Hle; left; reflexivity |].
           apply ltb_false_leb; assumption.
        -- apply Hle. right; exact Hy.
Qed.

Lemma fold_fmax (l : list float) (x : float) :
  is_nan x = false -> no_nan l ->
  is_maximum (fold_left Np.fmax l x) (x :: l).
Proof.
  revert x. induction l as [| a l IH]; intros x Hx Hl.
  - cbn. split; [left; reflexivity |].
    intros y [<- | []]. apply leb_refl, Hx.
  - cbn [fold_left].
    assert (is_nan a = false) as Ha by (apply Hl; left; reflexivity).
    assert (no_nan l) as Hl' by (intros y Hy; apply Hl; right; exact Hy).
    unfold Np.fmax at 2. rewrite Hx, Ha.
    destruct (x <? a)%float eqn:E.
    + destruct (IH a Ha Hl') as [Hin Hle]. split.
      * destruct Hin as [<- | Hin]; [right; left; reflexivity | right; right; exact Hin].
      * intros y [<- | Hy]; [| exact (Hle y Hy)].
        apply leb_trans with a; [| apply Hle; left; reflexivity].
        apply ltb_leb, E.
    + destruct (IH x Hx Hl') as [Hin Hle]. split.
      * destruct Hin as [<- | Hin]; [left; reflexivity | right; right; exact Hin].
      * intros y [<- | [<- | Hy]].
        -- apply Hle. left; reflexivity.
        -- apply leb_trans with x; [| apply Hle; left; reflexivity].
           apply ltb_false_leb; assumption.
        -- apply Hle. right; exact Hy.
Qed.

Lemma np_min_spec (l : list float) (m : float) :
  no_nan l -> Np.min l = Some m -> is_minimum m l.
Proof.
  destruct l as [| x l]; [discriminate |]. cbn. intros Hl E. inversion E.
  apply fold_fmin; [apply Hl; left; reflexivity |].
  intros y Hy. apply Hl. right. exact Hy.
Qed.

Lemma np_max_spec (l : list float) (m : float) :
  no_nan l -> Np.max l = Some m -> is_maximum m l.
Proof.
  destruct l as [| x l]; [discriminate |]. cbn. intros Hl E. inversion E.
  apply fold_fmax; [apply Hl; left; reflexivity |].
  intros y Hy. apply Hl. right. exact Hy.
Qed.

(** ** Geospatial bounds *)

(** A running lower bound of the values [ls] seen so far, started at
    [init]. *)
Definition running_lower (m init : float) (ls : list float) : Prop :=
  is_nan m = false /\ (m <=? init)%float = true /\
  (forall y, In y ls -> (m <=? y)%float = true) /\
  (m = init \/ In m ls).

Definition running_upper (m init : float) (ls : list float) : Prop :=
  is_nan m = false /\ (init <=? m)%float = true /\
  (forall y, In y ls -> (y <=? m)%float = true) /\
  (m = init \/ In m ls).

Lemma lower_step cur init ls l c :
  running_lower cur init ls -> no_nan l -> Np.min l = Some c ->
  running_lower (ATL11.lower c cur) init (ls ++ l)%list.
Proof.
  intros (Hn & Hi & Hle & Hin) Hl Hc.
  destruct (np_min_spec l c Hl Hc) as [Hcin Hcle].
  assert (is_nan c = false) as Hcn by (apply Hl, Hcin).
  unfold ATL11.lower. destruct (c <? cur)%float eqn:E.
  - apply ltb_leb in E. repeat split.
    + exact Hcn.
    + apply leb_trans with cur; assumption.
    + intros y Hy. apply in_app_or in Hy. destruct Hy as [Hy | Hy].
      * apply leb_trans with cur; [exact E | apply Hle, Hy].
      * apply Hcle, Hy.
    + right. apply in_or_app. right. exact Hcin.
  - apply ltb_false_leb in E; try assumption. repeat split.
    + exact Hn.
    + exact Hi.
    + intros y Hy. apply in_app_or in Hy. destruct Hy as [Hy | Hy].
      * apply Hle, Hy.
      * apply leb_trans with c; [exact E | apply Hcle, Hy].
    + destruct Hin as [-> | Hin]; [left; reflexivity |].
      right. apply in_or_app. left. exact Hin.
Qed.

Lemma upper_step cur init ls l c :
  running_upper cur init ls -> no_nan l -> Np.max l = Some c ->
  running_upper (ATL11.upper c cur) init (ls ++ l)%list.
Proof.
  intros (Hn & Hi & Hle & Hin) Hl Hc.
  destruct (np_max_spec l c Hl Hc) as [Hcin Hcle].
  assert (is_nan c = false) as Hcn by (apply Hl, Hcin).
  unfold ATL11.upper. destruct (cur <? c)%float eqn:E.
  - apply ltb_leb in E. repeat split.
    + exact Hcn.
    + apply leb_trans with cur; assumption.
    + intros y Hy. apply in_app_or in Hy. destruct Hy as [Hy | Hy].
      * apply leb_trans with cur; [apply Hle, Hy | exact E].
      * apply Hcle, Hy.
    + right. apply in_or_app. right. exact Hcin.
  - apply ltb_false_leb in E; try assumption. repeat split.
    + exact Hn.
    + exact Hi.
    + intros y Hy. apply in_app_or in Hy. destruct Hy as [Hy | Hy].
      * apply Hle, Hy.
      * apply leb_trans with c; [apply Hcle, Hy | exact E].
    + destruct Hin as [-> | Hin]; [left; reflexivity |].
      right. apply in_or_app. left. exact Hin.
Qed.

(** All the latitudes / longitudes of the along-track points of some
    groups. *)
Definition all_latitudes (gs : list ATL11.group) : list float :=
  List.concat (map (fun g => ATL11.latitude (ATL11.source g)) gs).

Definition all_longitudes (gs : list ATL11.group) : list float :=
  List.concat (map (fun g => ATL11.longitude (ATL11.source g)) gs).

Lemma all_ranges_bounds (gs : list ATL11.group) :
  forall r r' tr lats lons,
  ATL11.all_ranges r gs = (tr, inr r') ->
  no_nan (all_latitudes gs) -> no_nan (all_longitudes gs) ->
  running_lower (ATL11.ltmn r) infinity lats ->
  running_upper (ATL11.ltmx r) neg_infinity lats ->
  running_lower (ATL11.lnmn r) infinity lons ->
  running_upper (ATL11.lnmx r) neg_infinity lons ->
  running_lower (ATL11.ltmn r') infinity (lats ++ all_latitudes gs)%list /\
  running_upper (ATL11.ltmx r') neg_infinity (lats ++ all_latitudes gs)%list /\
  running_lower (ATL11.lnmn r') infinity (lons ++ all_longitudes gs)%list /\
  running_upper (ATL11.lnmx r') neg_infinity (lons ++ all_longitudes gs)%list /\
  (gs <> [] -> all_latitudes gs <> [] /\ all_longitudes gs <> []).
Proof.
  induction gs as [| g gs IH];
    intros r r' tr lats lons H Hlat Hlon H1 H2 H3 H4.
  - cbn in H. inversion H; subst. unfold all_latitudes, all_longitudes.
    cbn. rewrite !app_nil_r.
    split; [assumption |]. split; [assumption |]. split; [assumption |].
    split; [assumption |]. intros Hn. exfalso. apply Hn. reflexivity.
  - cbn [ATL11.all_ranges] in H.
    apply bind_inr in H. destruct H as (t1 & r1 & t2 & Hp & H & _).
    unfold ATL11.pair_ranges in Hp. invert_run Hp.
    unfold all_latitudes, all_longitudes in *. cbn [map List.concat] in *.
    assert (no_nan (ATL11.latitude (ATL11.source g))) as Hg1
      by (intros y Hy; apply Hlat, in_or_app; left; exact Hy).
    assert (no_nan (ATL11.longitude (ATL11.source g))) as Hg2
      by (intros y Hy; apply Hlon, in_or_app; left; exact Hy).
    assert (no_nan (List.concat (map (fun g => ATL11.latitude (ATL11.source g)) gs)))
      as Hr1 by (intros y Hy; apply Hlat, in_or_app; right; exact Hy).
    assert (no_nan (List.concat (map (fun g => ATL11.longitude (ATL11.source g)) gs)))
      as Hr2 by (intros y Hy; apply Hlon, in_or_app; right; exact Hy).
    match goal with
    | E : ATL11.Build_ranges _ _ _ _ _ _ = r1 |- _ => subst r1
    end.
    repeat match goal with
           | E : Np.min (ATL11.latitude _) = Some _ |- _ =>
               pose proof (lower_step _ _ _ _ _ H1 Hg1 E); 
               assert (ATL11.latitude (ATL11.source g) <> [])
                 by (intros Hnil; rewrite Hnil in E; discriminate E);
               clear E
           | E : Np.max (ATL11.latitude _) = Some _ |- _ =>
               pose proof (upper_step _ _ _ _ _ H2 Hg1 E); clear E
           | E : Np.min (ATL11.longitude _) = Some _ |- _ =>
               pose proof (lower_step _ _ _ _ _ H3 Hg2 E);
               assert (ATL11.longitude (ATL11.source g) <> [])
                 by (intros Hnil; rewrite Hnil in E; discriminate E);
               clear E
           | E : Np.max (ATL11.longitude _) = Some _ |- _ =>
               pose proof (upper_step _ _ _ _ _ H4 Hg2 E); clear E
           end.
    pose proof (IH _ _ _
                  (lats ++ ATL11.latitude (ATL11.source g))%list
                  (lons ++ ATL11.longitude (ATL11.source g))%list
                  H Hr1 Hr2) as IH'.
    cbn [ATL11.ltmn ATL11.ltmx ATL11.lnmn ATL11.lnmx] in IH'.
    destruct IH' as (I1 & I2 & I3 & I4 & _); try assumption.
    rewrite <- !app_assoc in I1, I2, I3, I4.
    split; [exact I1 |]. split; [exact I2 |]. split; [exact I3 |].
    split; [exact I4 |]. intros _.
    split; intros Hnil; apply app_eq_nil in Hnil; destruct Hnil;
      contradiction.
Qed.

Lemma lower_attained m l :
  l <> [] -> running_lower m infinity l -> is_minimum m l.
Proof.
  intros Hl (_ & _ & Hle & [-> | Hin]); [| split; assumption].
  destruct l as [| y l]; [congruence |]. split; [| exact Hle].
  left. apply infinity_leb, Hle. left. reflexivity.
Qed.

Lemma upper_attained m l :
  l <> [] -> running_upper m neg_infinity l -> is_maximum m l.
Proof.
  intros Hl (_ & _ & Hle & [-> | Hin]); [| split; assumption].
  destruct l as [| y l]; [congruence |]. split; [| exact Hle].
  left. apply leb_neg_infinity, Hle. left. reflexivity.
Qed.

Lemma flat_assign_length {A : Type} (n : nat) (src l : list A) :
  Np.flat_assign n src = Some l -> List.length l = n.
Proof.
  unfold Np.flat_assign. destruct src as [| x src].
  - destruct (Nat.eqb_spec n 0); intros H; inversion H; subst; reflexivity.
  - intros H. inversion H. rewrite length_map, length_seq. reflexivity.
Qed.

Lemma assign_all_length {A : Type} (n : nat) (src l : list A) :
  Np.assign_all n src = Some l -> List.length l = n.
Proof.
  unfold Np.assign_all. destruct (Nat.eqb_spec (List.length src) n) as [E | _].
  - intros H. inversion H; subst. reflexivity.
  - destruct src as [| x [| y src]]; intros H; inversion H.
    apply repeat_length.
Qed.

Lemma create_dataset_inr n data tr l :
  IceBridge.create_dataset n data = (tr, inr l) ->
  l = data /\ List.length data = n.
Proof.
  unfold IceBridge.create_dataset.
  unfold ret, raise.
  destruct (Nat.eqb_spec (List.length data) n) as [E | _]; intros H;
    inversion H; subst; auto.
Qed.

(** The values at the points whose mask is not set. *)
Definition unmasked (values : list float) (mask : list bool) : list float :=
  map fst (filter (fun p : float * bool => negb (snd p)) (Np.zip values mask)).

Lemma zip_length {A B : Type} (a : list A) (b : list B) :
  List.length a = List.length b ->
  List.length (Np.zip a b) = List.length a.
Proof.
  revert b. induction a as [| x a IH]; destruct b as [| y b]; cbn;
    intros H; try discriminate; [reflexivity |].
  rewrite IH by congruence. reflexivity.
Qed.

(** What the airborne driver wrote, when it returns: the tide is the
    computed value (prediction plus minor correction) where the mask is
    clear and the fill value where it is set; the bounds are the extremes
    of the coordinates of all the points. *)
Lemma icebridge_written S fs o arg TIDE_MODEL tr p :
  IceBridge.compute_tides_icebridge_data S fs o arg TIDE_MODEL =
    (tr, inr p) ->
  exists computed : list float,
    List.length computed = List.length (IceBridge.tide_mask p) /\
    IceBridge.tide p =
      map (fun q : float * bool =>
             if snd q then IceBridge.fill_value else fst q)
          (Np.zip computed (IceBridge.tide_mask p)) /\
    IceBridge.FillValue p = IceBridge.fill_value /\
    List.length (IceBridge.tide_mask p) = List.length (IceBridge.out_lat p) /\
    List.length (IceBridge.out_lon p) = List.length (IceBridge.out_lat p) /\
    Np.min (IceBridge.out_lat p) = Some (IceBridge.geospatial_lat_min p) /\
    Np.max (IceBridge.out_lat p) = Some (IceBridge.geospatial_lat_max p) /\
    Np.min (IceBridge.out_lon p) = Some (IceBridge.geospatial_lon_min p) /\
    Np.max (IceBridge.out_lon p) = Some (IceBridge.geospatial_lon_max p).
Proof.
  unfold IceBridge.compute_tides_icebridge_data. intros H.
  apply bind_inr in H. destruct H as (t1 & [input_file sub] & t2 & _ & H & _).
  invert_run H.
  match goal with
  | E : context [let (_, _) := ?x in _] |- _ =>
      destruct x as [[dinput file_lines] HEM]; invert_run E
  end.
  match goal with
  | E : context [let (_, _) := ?x in _] |- _ =>
      destruct x as [tide mask]; invert_run E
  end.
  repeat match goal with
         | E : IceBridge.create_dataset _ _ = (_, inr _) |- _ =>
             apply create_dataset_inr in E; destruct E as [-> ?]
         end.
  match goal with
  | E : IceBridge.predict _ _ _ _ _ _ = (_, inr _) |- _ =>
      unfold IceBridge.predict in E; invert_run E
  end.
  match goal with
  | E : Np.flat_assign _ _ = Some _ |- _ => apply flat_assign_length in E
  end.
  repeat match goal with
         | E : Np.assign_all _ _ = Some _ |- _ => apply assign_all_length in E
         end.
  repeat match goal with
         | E : (_, _) = (_, _) |- _ => inversion E; subst; clear E
         end.
  cbn.
  match goal with
  | |- exists c, _ /\ map _ (Np.zip ?x _) = _ /\ _ => exists x
  end.
  rewrite length_map, zip_length by congruence.
  repeat split; congruence.
Qed.

(** C2 (amended).  In every written product the geospatial bounds are the
    least and the greatest latitude and longitude over all the points of
    the track (of all beam pairs, along-track, for the repeat-track
    product), whether their tide is masked or not: the validity mask is not
    consulted.  (Stated for coordinates without NaN; for the repeat-track
    product, with at least one beam pair written.) *)
Theorem geospatial_bounds :
  (forall S fs o arg TIDE_MODEL tr p,
     IceBridge.compute_tides_icebridge_data S fs o arg TIDE_MODEL =
       (tr, inr p) ->
     no_nan (IceBridge.out_lat p) -> no_nan (IceBridge.out_lon p) ->
     List.length (IceBridge.tide_mask p) = List.length (IceBridge.out_lat p) /\
     List.length (IceBridge.out_lon p) = List.length (IceBridge.out_lat p) /\
     is_minimum (IceBridge.geospatial_lat_min p) (IceBridge.out_lat p) /\
     is_maximum (IceBridge.geospatial_lat_max p) (IceBridge.out_lat p) /\
     is_minimum (IceBridge.geospatial_lon_min p) (IceBridge.out_lon p) /\
     is_maximum (IceBridge.geospatial_lon_max p) (IceBridge.out_lon p)) /\
  (forall S env o INPUT_FILE TIDE_MODEL tr p,
     ATL11.compute_tides_ICESat2 S env o INPUT_FILE TIDE_MODEL =
       (tr, inr p) ->
     ATL11.groups p <> [] ->
     no_nan (all_latitudes (ATL11.groups p)) ->
     no_nan (all_longitudes (ATL11.groups p)) ->
     is_minimum (ATL11.geospatial_lat_min p) (all_latitudes (ATL11.groups p)) /\
     is_maximum (ATL11.geospatial_lat_max p) (all_latitudes (ATL11.groups p)) /\
     is_minimum (ATL11.geospatial_lon_min p) (all_longitudes (ATL11.groups p)) /\
     is_maximum (ATL11.geospatial_lon_max p) (all_longitudes (ATL11.groups p))).
Proof.
  split.
  - intros S fs o arg m tr p H Hlat Hlon.
    destruct (icebridge_written _ _ _ _ _ _ _ H)
      as (c & _ & _ & _ & L1 & L2 & B1 & B2 & B3 & B4).
    repeat split; try assumption;
      try (apply np_min_spec; assumption);
      try (apply np_max_spec; assumption);
      try (apply (np_min_spec _ _ Hlat B1));
      try (apply (np_max_spec _ _ Hlat B2));
      try (apply (np_min_spec _ _ Hlon B3));
      try (apply (np_max_spec _ _ Hlon B4)).
  - intros S env o f m tr p H Hne Hlat Hlon.
    unfold ATL11.compute_tides_ICESat2 in H. invert_run H.
    match goal with
    | E : ATL11.HDF5_ATL11_tide_write _ _ _ = (_, inr _) |- _ =>
        unfold ATL11.HDF5_ATL11_tide_write in E; invert_run E
    end.
    subst p.
    match goal with
    | E : ATL11.Build_product _ _ _ _ _ _ _ _ = _ |- _ =>
        rewrite <- E in *; clear E
    end.
    cbn [ATL11.groups ATL11.geospatial_lat_min ATL11.geospatial_lat_max
         ATL11.geospatial_lon_min ATL11.geospatial_lon_max] in *.
    match goal with
    | E : ATL11.all_ranges _ _ = (_, inr _) |- _ =>
        destruct (all_ranges_bounds _ _ _ _ [] [] E Hlat Hlon)
          as (I1 & I2 & I3 & I4 & I5)
    end.
    1-4: cbn; repeat split; try reflexivity; try (intros y []); left; reflexivity.
    destruct (I5 Hne) as [N1 N2]. cbn [app] in *.
    split; [apply lower_attained; assumption |].
    split; [apply upper_attained; assumption |].
    split; [apply lower_attained; assumption |].
    apply upper_attained; assumption.
Qed.

Lemma geospatial_bounds_witness :
  match outcome (IceBridge.compute_tides_icebridge_data Sample.bounded
                   Sample.files Sample.options Sample.icessn_name
                   "CATS2008") with
  | inr p =>
      is_maximum (IceBridge.geospatial_lat_max p) (IceBridge.out_lat p) /\
      is_minimum (IceBridge.geospatial_lon_min p) (IceBridge.out_lon p)
  | inl _ => False
  end.
Proof.
  destruct (IceBridge.compute_tides_icebridge_data Sample.bounded
              Sample.files Sample.options Sample.icessn_name "CATS2008")
    as [tr [e | p]] eqn:E; [vm_compute in E; discriminate E |].
  cbn [outcome snd].
  assert (no_nan (IceBridge.out_lat p) /\ no_nan (IceBridge.out_lon p))
    as [Hlat Hlon].
  { pose proof E as E'. vm_compute in E'. inversion E'. subst p.
    split; intros y Hy; cbn in Hy;
      repeat (destruct Hy as [<- | Hy]; [reflexivity |]); destruct Hy. }
  destruct (proj1 geospatial_bounds _ _ _ _ _ _ _ E Hlat Hlon)
    as (_ & _ & _ & Hmax & Hmin & _).
  split; assumption.
Defined.

(** C2, as stated, fails: the seventh shot of the sample file lies outside
    the domain of the model, so its tide is masked and holds the fill
    value; yet the reported maximum of latitude and minimum of longitude
    are those of that shot, beyond the extremes of the six shots that are
    not masked. *)
Lemma bounds_include_masked_points :
  match outcome (IceBridge.compute_tides_icebridge_data Sample.bounded
                   Sample.files Sample.options Sample.icessn_name
                   "CATS2008") with
  | inr p =>
      IceBridge.tide_mask p =
        [false; false; false; false; false; false; true] /\
      nth 6 (IceBridge.tide p) 0%float = IceBridge.FillValue p /\
      option_map (fun m => (m <? IceBridge.geospatial_lat_max p)%float)
        (Np.max (unmasked (IceBridge.out_lat p) (IceBridge.tide_mask p))) =
        Some true /\
      option_map (fun m => (IceBridge.geospatial_lon_min p <? m)%float)
        (Np.min (unmasked (IceBridge.out_lon p) (IceBridge.tide_mask p))) =
        Some true
  | inl _ => False
  end.
Proof. vm_compute. repeat split. Qed.

(** ** Masked slots *)

(** A slot of the repeat-track output: the fill value where the mask is
    set, a number (not NaN) where it is clear. *)
Definition slot (fv : float) (v : float) (b : bool) : Prop :=
  (b = true -> v = fv) /\ (b = false -> is_nan v = false).

Lemma fold_nan_slot (fv : float) (q : float * bool) :
  slot fv (fst (ATL11.fold_nan fv q)) (snd (ATL11.fold_nan fv q)).
Proof.
  unfold ATL11.fold_nan, slot. destruct q as [v b]. cbn [fst snd].
  destruct (is_nan v) eqn:Hn, b; cbn; split; congruence.
Qed.

Lemma folded_slots (fv : float) (l : list (float * bool)) :
  Forall2 (slot fv) (map fst (map (ATL11.fold_nan fv) l))
    (map snd (map (ATL11.fold_nan fv) l)).
Proof.
  induction l as [| q l IH]; cbn; constructor;
    [apply fold_nan_slot | exact IH].
Qed.

Lemma folded_rows (fv : float) (z : list (list float * list bool)) :
  let folded :=
    map (fun p : list float * list bool =>
           map (ATL11.fold_nan fv) (Np.zip (fst p) (snd p))) z in
  Forall2 (Forall2 (slot fv)) (map (map fst) folded) (map (map snd) folded).
Proof.
  induction z as [| p z IH]; cbn; constructor;
    [apply folded_slots | exact IH].
Qed.

Lemma mapM_inr {A B : Type} (f : A -> M B) (l : list A) tr (bs : list B) :
  mapM f l = (tr, inr bs) ->
  Forall2 (fun a b => exists t, f a = (t, inr b)) l bs.
Proof.
  revert tr bs. induction l as [| a l IH]; intros tr bs H.
  - cbn in H. inversion H. constructor.
  - cbn [mapM] in H. invert_run H. subst bs. constructor.
    + eexists. eassumption.
    + eapply IH. eassumption.
Qed.

Lemma along_track_slots S env o TIDE_MODEL model sdp ptx b tr r :
  ATL11.along_track S env o TIDE_MODEL model sdp ptx b = (tr, inr r) ->
  Forall2 (Forall2 (slot (ATL11.h_corr_fill b))) (fst r) (snd r).
Proof.
  unfold ATL11.along_track. cbv zeta. intros H. invert_run H.
  match goal with
  | E : context [let (_, _) := ?x in _] |- _ =>
      destruct x as [fmt hc]; invert_run E
  end.
  match goal with
  | E : (_, _) = r |- _ => rewrite <- E
  end.
  cbn [fst snd]. apply folded_rows.
Qed.

Lemma crossing_track_slots S env o TIDE_MODEL model sdp ptx b tr r :
  ATL11.crossing_track S env o TIDE_MODEL model sdp ptx b = (tr, inr r) ->
  Forall2 (slot (ATL11.h_corr_fill b)) (fst r) (snd r).
Proof.
  unfold ATL11.crossing_track. cbv zeta. intros H. invert_run H.
  match goal with
  | E : context [let (_, _) := ?x in _] |- _ =>
      destruct x as [fmt hc]; invert_run E
  end.
  match goal with
  | E : (_, _) = r |- _ => rewrite <- E
  end.
  cbn [fst snd]. apply folded_slots.
Qed.

Lemma beam_pair_slots S env o TIDE_MODEL model sdp ptx tr g :
  ATL11.beam_pair_tides S env o TIDE_MODEL model sdp ptx = (tr, inr g) ->
  Forall2 (Forall2 (slot (ATL11.tide_fill g)))
    (ATL11.tide_AT g) (ATL11.mask_AT g) /\
  Forall2 (slot (ATL11.tide_fill g)) (ATL11.tide_XT g) (ATL11.mask_XT g).
Proof.
  unfold ATL11.beam_pair_tides. intros H. invert_run H.
  match goal with
  | E : ATL11.Build_group _ _ _ _ _ _ _ = g |- _ => rewrite <- E
  end.
  cbn. split.
  - eapply along_track_slots. eassumption.
  - eapply crossing_track_slots. eassumption.
Qed.

(** C1 (amended).  In every written product, a slot of the tide variable
    whose validity mask is set holds the declared fill value (-9999.0 for
    the airborne product, the [_FillValue] of [h_corr] of the input for the
    repeat-track product).  In the repeat-track product the NaN values are
    folded into the mask, so a slot whose mask is clear never holds NaN. *)
Theorem masked_slots_hold_fill_value :
  (forall S fs o arg TIDE_MODEL tr p,
     IceBridge.compute_tides_icebridge_data S fs o arg TIDE_MODEL =
       (tr, inr p) ->
     IceBridge.FillValue p = (-9999)%float /\
     Forall2 (fun v (b : bool) => b = true -> v = IceBridge.FillValue p)
       (IceBridge.tide p) (IceBridge.tide_mask p)) /\
  (forall S env o INPUT_FILE TIDE_MODEL tr p g,
     ATL11.compute_tides_ICESat2 S env o INPUT_FILE TIDE_MODEL =
       (tr, inr p) ->
     In g (ATL11.groups p) ->
     ATL11.tide_fill g = ATL11.h_corr_fill (ATL11.source g) /\
     Forall2 (Forall2 (slot (ATL11.tide_fill g)))
       (ATL11.tide_AT g) (ATL11.mask_AT g) /\
     Forall2 (slot (ATL11.tide_fill g)) (ATL11.tide_XT g) (ATL11.mask_XT g)).
Proof.
  split.
  - intros S fs o arg m tr p H.
    destruct (icebridge_written _ _ _ _ _ _ _ H)
      as (c & Hlen & Ht & Hf & _).
    split; [exact Hf |]. rewrite Ht, Hf. clear Ht.
    revert c Hlen. induction (IceBridge.tide_mask p) as [| b mask IH];
      intros [| v c] Hlen; cbn in *; try discriminate; constructor.
    + destruct b; [reflexivity | discriminate].
    + apply IH. congruence.
  - intros S env o f m tr p g H Hg.
    unfold ATL11.compute_tides_ICESat2 in H. invert_run H.
    match goal with
    | E : ATL11.HDF5_ATL11_tide_write _ _ _ = (_, inr _) |- _ =>
        unfold ATL11.HDF5_ATL11_tide_write in E; invert_run E
    end.
    subst p.
    match goal with
    | E : ATL11.Build_product _ _ _ _ _ _ _ _ = _ |- _ =>
        rewrite <- E in Hg; clear E
    end.
    cbn [ATL11.groups] in Hg. apply filter_In in Hg. destruct Hg as [Hg _].
    match goal with
    | E : mapM _ _ = (_, inr _) |- _ => apply mapM_inr in E; rename E into HF
    end.
    assert (exists e ptx t,
              ATL11.beam_pair_tides S env o m (select_model m) e ptx =
                (t, inr g)) as (e & ptx & t & Hb).
    { clear -HF Hg. induction HF as [| a b l l' Hab HF IH]; [destruct Hg |].
      destruct Hg as [<- | Hg]; [| exact (IH Hg)].
      destruct Hab as [t Ht]. eexists _, a, t. exact Ht. }
    split; [| exact (beam_pair_slots _ _ _ _ _ _ _ _ _ Hb)].
    unfold ATL11.beam_pair_tides in Hb. invert_run Hb.
    match goal with
    | E : ATL11.Build_group _ _ _ _ _ _ _ = g |- _ => rewrite <- E
    end.
    reflexivity.
Qed.

Lemma masked_slots_hold_fill_value_witness :
  match outcome (ATL11.compute_tides_ICESat2 Sample.calm Sample.surroundings
                   Sample.options Sample.atl11_name "CATS2008") with
  | inr p =>
      Forall (fun g =>
                Forall2 (Forall2 (slot (ATL11.tide_fill g)))
                  (ATL11.tide_AT g) (ATL11.mask_AT g) /\
                Forall2 (slot (ATL11.tide_fill g))
                  (ATL11.tide_XT g) (ATL11.mask_XT g))
        (ATL11.groups p)
  | inl _ => False
  end.
Proof.
  destruct (ATL11.compute_tides_ICESat2 Sample.calm Sample.surroundings
              Sample.options Sample.atl11_name "CATS2008")
    as [tr [e | p]] eqn:E; [vm_compute in E; discriminate E |].
  cbn [outcome snd]. apply Forall_forall. intros g Hg.
  exact (proj2 (proj2 masked_slots_hold_fill_value _ _ _ _ _ _ _ _ E Hg)).
Defined.

(** C1, as stated, fails for the airborne product.  The second shot of the
    sample LVIS file has no time stamp (NaN) and the third one a time at
    which the predicted tide is -9999.0: neither is masked by the model,
    the airborne driver does not fold NaN into the mask, and the slots are
    written as computed, one holding NaN and one holding the fill value
    under a clear mask. *)
Lemma clear_mask_holds_nan_and_fill_value :
  match outcome (IceBridge.compute_tides_icebridge_data Sample.calm
                   Sample.files Sample.options Sample.gap_name
                   "CATS2008") with
  | inr p =>
      IceBridge.tide_mask p = [false; false; false] /\
      option_map is_nan (nth_error (IceBridge.tide p) 1) = Some true /\
      nth_error (IceBridge.tide p) 2 = Some (IceBridge.FillValue p)
  | inl _ => False
  end.
Proof. vm_compute. repeat split. Qed.

Lemma SFsub_diag (x y : spec_float) :
  SFeqb x y = true ->
  (forall s, y <> S754_infinity s) ->
  exists s, SF64sub x y = S754_zero s.
Proof.
  unfold SFeqb, SF64sub. intros H Hinf.
  destruct x as [[] | [] | | [] mx ex], y as [[] | [] | | [] my ey];
    cbn in H; try discriminate H;
    try (eexists; reflexivity);
    try (exfalso; eapply Hinf; reflexivity).
  all: exists false.
  all: destruct (Z.compare ex ey) eqn:Ee; try discriminate H;
    apply Z.compare_eq in Ee;
    destruct (Pos.compare_cont Eq mx my) eqn:Em; try discriminate H;
    apply Pos.compare_eq in Em; subst my ey.
  all: unfold SFsub; rewrite Z.min_id; unfold shl_align;
    rewrite Z.sub_diag; cbn [fst]; reflexivity.
Qed.

Lemma is_infinity_spec (x : float) :
  is_infinity x = false -> forall s, Prim2SF x <> S754_infinity s.
Proof.
  unfold is_infinity. rewrite eqb_spec, abs_spec. intros H s E.
  rewrite E in H. discriminate H.
Qed.

(** The square of the difference of two equal numbers is [+0]. *)
Lemma square_diff_eq (a b : float) :
  (a =? b)%float = true -> is_infinity b = false ->
  IceBridge.square_diff a b = 0%float.
Proof.
  intros H Hb. rewrite eqb_spec in H.
  destruct (SFsub_diag _ _ H (is_infinity_spec _ Hb)) as [s Hs].
  apply Prim2SF_inj. unfold IceBridge.square_diff.
  rewrite mul_spec, sub_spec, Hs. destruct s; reflexivity.
Qed.

(** ** Gather and scatter at the positions of a mask *)

(** The values of [src] where [m] holds, and [dst] with the values of
    [src] where [m] holds. *)
Fixpoint picked {A : Type} (m : list bool) (src : list A) : list A :=
  match m, src with
  | b :: m', x :: src' => if b then x :: picked m' src' else picked m' src'
  | _, _ => []
  end.

Fixpoint merged {A : Type} (m : list bool) (dst src : list A) : list A :=
  match m, dst, src with
  | b :: m', d :: dst', x :: src' =>
      (if b then x else d) :: merged m' dst' src'
  | _, _, _ => []
  end.

Lemma nth_error_middle {A : Type} (pre : list A) (x : A) (l : list A) :
  nth_error (pre ++ x :: l)%list (List.length pre) = Some x.
Proof. induction pre as [| y pre IH]; cbn; [reflexivity | exact IH]. Qed.

Lemma set_nth_middle {A : Type} (pre : list A) (x y : A) (l : list A) :
  Np.set_nth (List.length pre) y (pre ++ x :: l)%list = (pre ++ y :: l)%list.
Proof.
  induction pre as [| z pre IH]; cbn; [reflexivity | now rewrite IH].
Qed.

Lemma app_cons_assoc {A : Type} (pre : list A) (x : A) (l : list A) :
  (pre ++ x :: l)%list = ((pre ++ [x]) ++ l)%list.
Proof. now rewrite <- app_assoc. Qed.

Lemma length_snoc {A : Type} (pre : list A) (x : A) :
  List.length (pre ++ [x])%list = S (List.length pre).
Proof. rewrite length_app. cbn. lia. Qed.

Lemma take_nonzero {A : Type} (m : list bool) :
  forall (src pre : list A),
    List.length src = List.length m ->
    Np.take (pre ++ src)%list (Np.nonzero_from (List.length pre) m) =
      Some (picked m src).
Proof.
  induction m as [| b m IH]; intros [| x src] pre Hlen;
    try discriminate Hlen; [reflexivity |].
  cbn in Hlen. injection Hlen as Hlen.
  assert (Np.take (pre ++ x :: src)%list
            (Np.nonzero_from (S (List.length pre)) m) =
          Some (picked m src)) as Hrest.
  { rewrite app_cons_assoc, <- length_snoc with (x := x).
    apply IH. exact Hlen. }
  cbn [Np.nonzero_from picked]. destruct b.
  - cbn [Np.take]. rewrite nth_error_middle, Hrest. reflexivity.
  - exact Hrest.
Qed.

Lemma scatter_nonzero {A : Type} (m : list bool) :
  forall (dst src pre : list A),
    List.length dst = List.length m ->
    List.length src = List.length m ->
    Np.scatter (pre ++ dst)%list (Np.nonzero_from (List.length pre) m)
      (picked m src) =
    (pre ++ merged m dst src)%list.
Proof.
  induction m as [| b m IH]; intros [| d dst] [| x src] pre Hd Hs;
    try discriminate Hd; try discriminate Hs.
  - reflexivity.
  - cbn in Hd, Hs. injection Hd as Hd. injection Hs as Hs.
    cbn [Np.nonzero_from picked merged]. destruct b.
    + cbn [Np.scatter]. rewrite set_nth_middle.
      rewrite app_cons_assoc, <- length_snoc with (x := x).
      rewrite IH by assumption. now rewrite <- app_assoc.
    + rewrite app_cons_assoc, <- length_snoc with (x := d).
      rewrite IH by assumption. now rewrite <- app_assoc.
Qed.

Lemma nonzero_in_range (m : list bool) :
  forall k n, (k + List.length m <= n)%nat ->
    forallb (fun i => (i <? n)%nat) (Np.nonzero_from k m) = true.
Proof.
  induction m as [| b m IH]; intros k n H; [reflexivity |].
  cbn in H. cbn [Np.nonzero_from].
  assert (forallb (fun i => (i <? n)%nat) (Np.nonzero_from (S k) m) = true)
    as Hrest by (apply IH; lia).
  destruct b; [| exact Hrest].
  cbn [forallb]. rewrite Hrest.
  replace (k <? n)%nat with true; [reflexivity |].
  symmetry. apply Nat.ltb_lt. lia.
Qed.

Lemma picked_length {A : Type} (m : list bool) :
  forall (src : list A) k,
    List.length src = List.length m ->
    List.length (picked m src) = List.length (Np.nonzero_from k m).
Proof.
  induction m as [| b m IH]; intros [| x src] k H; try discriminate H;
    [reflexivity |].
  cbn in H. injection H as H. cbn [picked Np.nonzero_from].
  destruct b; cbn [List.length]; rewrite (IH src (S k) H); reflexivity.
Qed.

(** [dst[ii] = src[ii]] for [ii = np.nonzero(m)], the three arrays having
    one shape: the values of [src] where [m] holds, those of [dst]
    elsewhere. *)
Lemma copy_at_nonzero (m : list bool) (dst src : list float) :
  List.length dst = List.length m ->
  List.length src = List.length m ->
  IceBridge.copy_at dst src (Np.nonzero m) = ([], inr (merged m dst src)).
Proof.
  intros Hd Hs. unfold IceBridge.copy_at, Np.nonzero.
  pose proof (take_nonzero m src [] Hs) as Ht.
  pose proof (scatter_nonzero m dst src [] Hd Hs) as Hsc.
  cbn [app List.length] in Ht, Hsc. rewrite Ht. cbn.
  unfold Np.put. rewrite nonzero_in_range by (cbn; lia).
  unfold Np.assign_all. rewrite (picked_length m src 0 Hs), Nat.eqb_refl.
  rewrite Hsc. reflexivity.
Qed.

Lemma merged_length {A : Type} (m : list bool) :
  forall (dst src : list A),
    List.length dst = List.length m ->
    List.length src = List.length m ->
    List.length (merged m dst src) = List.length m.
Proof.
  induction m as [| b m IH]; intros [| d dst] [| x src] Hd Hs;
    try discriminate Hd; try discriminate Hs; [reflexivity |].
  cbn in Hd, Hs. injection Hd as Hd. injection Hs as Hs.
  cbn [merged List.length]. f_equal. apply IH; assumption.
Qed.

Lemma merged_nth {A : Type} (m : list bool) :
  forall (dst src : list A) i b d x,
    nth_error m i = Some b -> nth_error dst i = Some d ->
    nth_error src i = Some x ->
    nth_error (merged m dst src) i = Some (if b then x else d).
Proof.
  induction m as [| b0 m IH]; intros [| d0 dst] [| x0 src] [| i] b d x Hm Hd Hs;
    try discriminate Hm; try discriminate Hd; try discriminate Hs.
  - cbn in Hm, Hd, Hs. injection Hm as ->. injection Hd as ->.
    injection Hs as ->. reflexivity.
  - cbn in Hm, Hd, Hs. cbn [merged nth_error]. eapply IH; eassumption.
Qed.

(** ** LVIS: low or centroid products, and the uncertainty *)

Lemma broadcast2_same {A B C : Type} (f : A -> B -> C) (a : list A)
    (b : list B) :
  List.length a = List.length b ->
  Np.broadcast2 f a b =
    Some (map (fun p => f (fst p) (snd p)) (Np.zip a b)).
Proof. intros H. unfold Np.broadcast2. now rewrite H, Nat.eqb_refl. Qed.

Lemma elementwise_same (f : float -> float -> float) (a b : list float) :
  List.length a = List.length b ->
  IceBridge.elementwise f a b =
    ([], inr (map (fun p => f (fst p) (snd p)) (Np.zip a b))).
Proof.
  intros H. unfold IceBridge.elementwise. now rewrite broadcast2_same.
Qed.

Lemma zip_same_length {A B : Type} (a : list A) (b : list B) :
  List.length a = List.length b ->
  List.length (Np.zip a b) = List.length a.
Proof.
  revert b. induction a as [| x a IH]; intros [| y b] H;
    try discriminate H; [reflexivity |].
  cbn in *. f_equal. apply IH. congruence.
Qed.

Lemma zip_nth {A B : Type} (a : list A) :
  forall (b : list B) i x y,
    nth_error a i = Some x -> nth_error b i = Some y ->
    nth_error (Np.zip a b) i = Some (x, y).
Proof.
  induction a as [| x0 a IH]; intros [| y0 b] [| i] x y Ha Hb;
    try discriminate Ha; try discriminate Hb.
  - cbn in Ha, Hb. injection Ha as ->. injection Hb as ->. reflexivity.
  - cbn in Ha, Hb. cbn [Np.zip nth_error]. apply IH; assumption.
Qed.

Lemma map_zip_nth {A B C : Type} (f : A -> B -> C) (a : list A)
    (b : list B) i x y :
  nth_error a i = Some x -> nth_error b i = Some y ->
  nth_error (map (fun p => f (fst p) (snd p)) (Np.zip a b)) i =
    Some (f x y).
Proof.
  intros Ha Hb. rewrite nth_error_map, (zip_nth a b i x y Ha Hb).
  reflexivity.
Qed.

Lemma nth_error_defined {A : Type} (l : list A) (i n : nat) :
  List.length l = n -> (i < n)%nat -> exists x, nth_error l i = Some x.
Proof.
  intros Hl Hi. destruct (nth_error l i) as [x |] eqn:E; [now exists x |].
  apply nth_error_None in E. lia.
Qed.

(** The seven arrays of the waveforms have one shape, of [n] shots. *)
Definition same_shape (w : IceBridge.waveforms) (n : nat) : Prop :=
  List.length (IceBridge.elev w) = n /\
  List.length (IceBridge.elev_low w) = n /\
  List.length (IceBridge.elev_high w) = n /\
  List.length (IceBridge.lat w) = n /\
  List.length (IceBridge.lat_low w) = n /\
  List.length (IceBridge.lon w) = n /\
  List.length (IceBridge.lon_low w) = n.

(** Where the lowest and the highest points agree. *)
Definition flat (w : IceBridge.waveforms) : list bool :=
  map (fun p => (fst p =? snd p)%float)
    (Np.zip (IceBridge.elev_low w) (IceBridge.elev_high w)).

Definition rough (w : IceBridge.waveforms) : list bool :=
  map (fun p => negb (fst p =? snd p)%float)
    (Np.zip (IceBridge.elev_low w) (IceBridge.elev_high w)).

Definition zeros (w : IceBridge.waveforms) : list float :=
  map (fun _ => 0%float) (IceBridge.elev w).

Lemma combine_same_shape (w : IceBridge.waveforms) (n : nat) :
  same_shape w n ->
  IceBridge.combine w =
    ([], inr
       (merged (rough w) (merged (flat w) (zeros w) (IceBridge.elev_low w))
          (IceBridge.elev w),
        merged (rough w) (merged (flat w) (zeros w) (IceBridge.lon_low w))
          (IceBridge.lon w),
        merged (rough w) (merged (flat w) (zeros w) (IceBridge.lat_low w))
          (IceBridge.lat w),
        map (fun p => IceBridge.rms (fst p) (snd p))
          (Np.zip
             (map (fun p => IceBridge.square_diff (fst p) (snd p))
                (Np.zip (IceBridge.elev_low w) (IceBridge.elev w)))
             (map (fun p => IceBridge.square_diff (fst p) (snd p))
                (Np.zip (IceBridge.elev_high w) (IceBridge.elev w)))))).
Proof.
  intros (He & Hl & Hh & Hla & Hlal & Hlo & Hlol).
  assert (List.length (flat w) = n) as Hf
    by (unfold flat; rewrite length_map, zip_same_length; congruence).
  assert (List.length (rough w) = n) as Hr
    by (unfold rough; rewrite length_map, zip_same_length; congruence).
  assert (List.length (zeros w) = n) as Hz
    by (unfold zeros; rewrite length_map; exact He).
  unfold IceBridge.combine.
  rewrite !broadcast2_same by congruence.
  fold (flat w). fold (rough w). fold (zeros w).
  cbn [lift bind ret fst snd app].
  repeat (rewrite copy_at_nonzero;
          [cbn [bind fst snd app]
          | rewrite ?merged_length; congruence ..]).
  repeat (rewrite elementwise_same
            by (rewrite ?length_map, ?zip_same_length; congruence);
          cbn [bind ret fst snd app]).
  reflexivity.
Qed.

(** X1.  When the seven arrays of an LVIS file have one shape, the
    combined variables are defined for every shot, and a shot whose lowest
    and highest points have equal elevations gets the elevation, longitude
    and latitude of the lowest point; any other shot (also one with a NaN
    elevation) gets those of the centroid. *)
Theorem lvis_low_or_centroid (w : IceBridge.waveforms) (n : nat) :
  same_shape w n ->
  exists data lon lat error,
    IceBridge.combine w = ([], inr (data, lon, lat, error)) /\
    List.length data = n /\ List.length lon = n /\
    List.length lat = n /\ List.length error = n /\
    forall i low high,
      nth_error (IceBridge.elev_low w) i = Some low ->
      nth_error (IceBridge.elev_high w) i = Some high ->
      if (low =? high)%float
      then nth_error data i = Some low /\
           nth_error lon i = nth_error (IceBridge.lon_low w) i /\
           nth_error lat i = nth_error (IceBridge.lat_low w) i
      else nth_error data i = nth_error (IceBridge.elev w) i /\
           nth_error lon i = nth_error (IceBridge.lon w) i /\
           nth_error lat i = nth_error (IceBridge.lat w) i.
Proof.
  intros Hw. rewrite (combine_same_shape w n Hw).
  destruct Hw as (He & Hl & Hh & Hla & Hlal & Hlo & Hlol).
  assert (List.length (flat w) = n) as Hf
    by (unfold flat; rewrite length_map, zip_same_length; congruence).
  assert (List.length (rough w) = n) as Hr
    by (unfold rough; rewrite length_map, zip_same_length; congruence).
  assert (List.length (zeros w) = n) as Hz
    by (unfold zeros; rewrite length_map; exact He).
  do 4 eexists. split; [reflexivity |].
  repeat (split;
          [rewrite ?merged_length, ?length_map, ?zip_same_length;
           rewrite ?merged_length, ?length_map, ?zip_same_length;
           congruence |]).
  intros i low high Hlow Hhigh.
  assert (i < n)%nat as Hi
    by (rewrite <- Hl; apply nth_error_Some; congruence).
  assert (nth_error (flat w) i = Some (low =? high)%float) as Hfi
    by (unfold flat; apply (map_zip_nth PrimFloat.eqb); assumption).
  assert (nth_error (rough w) i = Some (negb (low =? high)%float)) as Hri
    by (unfold rough;
        apply (map_zip_nth (fun a b => negb (a =? b)%float)); assumption).
  destruct (nth_error_defined (zeros w) i n Hz Hi) as [z Hzi].
  destruct (nth_error_defined (IceBridge.elev w) i n He Hi) as [e Hei].
  destruct (nth_error_defined (IceBridge.lon w) i n Hlo Hi) as [lo Hloi].
  destruct (nth_error_defined (IceBridge.lon_low w) i n Hlol Hi)
    as [lol Hloli].
  destruct (nth_error_defined (IceBridge.lat w) i n Hla Hi) as [la Hlai].
  destruct (nth_error_defined (IceBridge.lat_low w) i n Hlal Hi)
    as [lal Hlali].
  pose proof (merged_nth (flat w) (zeros w) (IceBridge.elev_low w)
                i _ _ _ Hfi Hzi Hlow) as H1.
  pose proof (merged_nth (flat w) (zeros w) (IceBridge.lon_low w)
                i _ _ _ Hfi Hzi Hloli) as H2.
  pose proof (merged_nth (flat w) (zeros w) (IceBridge.lat_low w)
                i _ _ _ Hfi Hzi Hlali) as H3.
  rewrite (merged_nth (rough w) _ (IceBridge.elev w) i _ _ _ Hri H1 Hei).
  rewrite (merged_nth (rough w) _ (IceBridge.lon w) i _ _ _ Hri H2 Hloi).
  rewrite (merged_nth (rough w) _ (IceBridge.lat w) i _ _ _ Hri H3 Hlai).
  rewrite Hei, Hloi, Hloli, Hlai, Hlali.
  destruct (low =? high)%float; cbn [negb]; repeat split; reflexivity.
Qed.

(** X2.  The uncertainty of every shot is the root of the mean of the
    squared distances of the lowest and of the highest point to the centroid
    elevation; it is exactly 0.0 where the three elevations are equal and
    finite. *)
Theorem lvis_uncertainty (w : IceBridge.waveforms) (n : nat) :
  same_shape w n ->
  exists data lon lat error,
    IceBridge.combine w = ([], inr (data, lon, lat, error)) /\
    forall i low high centroid,
      nth_error (IceBridge.elev_low w) i = Some low ->
      nth_error (IceBridge.elev_high w) i = Some high ->
      nth_error (IceBridge.elev w) i = Some centroid ->
      nth_error error i =
        Some (PrimFloat.sqrt
                (((low - centroid) * (low - centroid) +
                  (high - centroid) * (high - centroid)) / 2))%float /\
      ((low =? centroid)%float = true ->
       (high =? centroid)%float = true ->
       is_infinity centroid = false ->
       nth_error error i = Some 0%float).
Proof.
  intros Hw. rewrite (combine_same_shape w n Hw).
  do 4 eexists. split; [reflexivity |].
  intros i low high e Hlow Hhigh He.
  assert (nth_error
            (map (fun p => IceBridge.rms (fst p) (snd p))
               (Np.zip
                  (map (fun p => IceBridge.square_diff (fst p) (snd p))
                     (Np.zip (IceBridge.elev_low w) (IceBridge.elev w)))
                  (map (fun p => IceBridge.square_diff (fst p) (snd p))
                     (Np.zip (IceBridge.elev_high w) (IceBridge.elev w)))))
            i =
          Some (IceBridge.rms (IceBridge.square_diff low e)
                  (IceBridge.square_diff high e))) as Herr.
  { apply (map_zip_nth IceBridge.rms);
      apply (map_zip_nth IceBridge.square_diff); assumption. }
  rewrite Herr. split; [reflexivity |].
  intros H1 H2 Hfin.
  rewrite (square_diff_eq low e H1 Hfin), (square_diff_eq high e H2 Hfin).
  reflexivity.
Qed.

Lemma lvis_low_or_centroid_witness :
  match outcome (IceBridge.read_waveforms Sample.flat_datasets false) with
  | inr w =>
      exists data lon lat error,
        IceBridge.combine w = ([], inr (data, lon, lat, error)) /\
        nth_error data 1 = Some 100%float /\
        nth_error lat 1 = Some 70.5%float /\
        nth_error data 2 = Some 202%float /\
        nth_error lat 2 = Some 71.25%float
  | inl _ => False
  end.
Proof.
  destruct (IceBridge.read_waveforms Sample.flat_datasets false)
    as [tr [e | w]] eqn:E; [vm_compute in E; discriminate E |].
  cbn [outcome snd].
  vm_compute in E. injection E as _ E. subst w.
  match goal with
  | |- exists data lon lat error, IceBridge.combine ?w = _ /\ _ =>
      destruct (lvis_low_or_centroid w 3)
        as (data & lon & lat & error & Hc & _ & _ & _ & _ & Hp);
      [repeat split |]
  end.
  exists data, lon, lat, error. split; [exact Hc |].
  pose proof (Hp 1%nat 100%float 100%float eq_refl eq_refl) as H1.
  pose proof (Hp 2%nat 200%float 204%float eq_refl eq_refl) as H2.
  cbn in H1, H2.
  destruct H1 as (H1 & _ & H1'). destruct H2 as (H2 & _ & H2').
  repeat split; assumption.
Defined.

Lemma lvis_uncertainty_witness :
  match outcome (IceBridge.read_waveforms Sample.flat_datasets false) with
  | inr w =>
      exists data lon lat error,
        IceBridge.combine w = ([], inr (data, lon, lat, error)) /\
        nth_error error 0 = Some 0%float /\
        nth_error error 1 =
          Some (PrimFloat.sqrt
                  (((100 - 100.5) * (100 - 100.5) +
                    (100 - 100.5) * (100 - 100.5)) / 2))%float
  | inl _ => False
  end.
Proof.
  destruct (IceBridge.read_waveforms Sample.flat_datasets false)
    as [tr [e | w]] eqn:E; [vm_compute in E; discriminate E |].
  cbn [outcome snd].
  vm_compute in E. injection E as _ E. subst w.
  match goal with
  | |- exists data lon lat error, IceBridge.combine ?w = _ /\ _ =>
      destruct (lvis_uncertainty w 3)
        as (data & lon & lat & error & Hc & Hp);
      [repeat split |]
  end.
  exists data, lon, lat, error. split; [exact Hc |].
  split.
  - exact (proj2 (Hp 0%nat 100%float 100%float 100%float
                    eq_refl eq_refl eq_refl) eq_refl eq_refl eq_refl).
  - exact (proj1 (Hp 1%nat 100%float 100%float 100.5%float
                    eq_refl eq_refl eq_refl)).
Defined.

(** ** One pass of prediction over a slice *)

(** [dst] with the values [vals], in order, at the positions where [m]
    holds. *)
Fixpoint placed {A : Type} (m : list bool) (vals dst : list A) : list A :=
  match m, dst with
  | b :: m', d :: dst' =>
      if b then
        match vals with
        | v :: vals' => v :: placed m' vals' dst'
        | [] => d :: placed m' [] dst'
        end
      else d :: placed m' vals dst'
  | _, _ => dst
  end.

Lemma placed_nil {A : Type} (m : list bool) :
  forall dst : list A, placed m [] dst = dst.
Proof.
  induction m as [| b m IH]; intros [| d dst]; try reflexivity.
  cbn. destruct b; now rewrite IH.
Qed.

Lemma scatter_placed {A : Type} (m : list bool) :
  forall (vals dst pre : list A),
    List.length dst = List.length m ->
    Np.scatter (pre ++ dst)%list (Np.nonzero_from (List.length pre) m) vals =
      (pre ++ placed m vals dst)%list.
Proof.
  induction m as [| b m IH]; intros vals [| d dst] pre Hd;
    try discriminate Hd; [reflexivity |].
  cbn in Hd. injection Hd as Hd. cbn [Np.nonzero_from placed].
  destruct b.
  - destruct vals as [| v vals].
    + cbn [Np.scatter]. now rewrite placed_nil.
    + cbn [Np.scatter]. rewrite set_nth_middle.
      rewrite app_cons_assoc, <- length_snoc with (x := v).
      rewrite IH by assumption. now rewrite <- app_assoc.
  - rewrite app_cons_assoc, <- length_snoc with (x := d).
    rewrite IH by assumption. now rewrite <- app_assoc.
Qed.

Lemma take_placed {A : Type} (m : list bool) :
  forall (vals dst pre : list A),
    List.length dst = List.length m ->
    List.length vals = List.length (Np.nonzero_from (List.length pre) m) ->
    Np.take (pre ++ placed m vals dst)%list
      (Np.nonzero_from (List.length pre) m) = Some vals.
Proof.
  induction m as [| b m IH]; intros vals [| d dst] pre Hd Hv;
    try discriminate Hd.
  - destruct vals; [reflexivity | discriminate Hv].
  - cbn in Hd. injection Hd as Hd. cbn [Np.nonzero_from placed] in *.
    destruct b.
    + destruct vals as [| v vals]; [discriminate Hv |].
      cbn in Hv. injection Hv as Hv.
      cbn [Np.take]. rewrite nth_error_middle.
      rewrite app_cons_assoc, <- length_snoc with (x := v).
      rewrite IH; [reflexivity | assumption |].
      now rewrite length_snoc.
    + rewrite app_cons_assoc, <- length_snoc with (x := d).
      apply IH; [assumption |]. now rewrite length_snoc.
Qed.

Lemma placed_length {A : Type} (m : list bool) :
  forall (vals dst : list A),
    List.length (placed m vals dst) = List.length dst.
Proof.
  induction m as [| b m IH]; intros vals [| d dst]; try reflexivity.
  cbn [placed]. destruct b; [destruct vals |]; cbn; now rewrite IH.
Qed.

Lemma placed_twice {A : Type} (m : list bool) :
  forall (v1 v2 dst : list A),
    List.length v1 = List.length v2 ->
    placed m v2 (placed m v1 dst) = placed m v2 dst.
Proof.
  induction m as [| b m IH]; intros v1 v2 [| d dst] Hv; try reflexivity.
  cbn [placed]. destruct b.
  - destruct v1 as [| x1 v1], v2 as [| x2 v2]; try discriminate Hv.
    + cbn [placed]. now rewrite !placed_nil.
    + cbn [placed]. f_equal. apply IH. cbn in Hv. congruence.
  - cbn [placed]. f_equal. apply IH. exact Hv.
Qed.

Lemma nonzero_from_length (m : list bool) :
  forall j k,
    List.length (Np.nonzero_from j m) = List.length (Np.nonzero_from k m).
Proof.
  induction m as [| b m IH]; intros j k; [reflexivity |].
  cbn. destruct b; cbn; now rewrite (IH (S j) (S k)).
Qed.

(** The prediction services return one value per time. *)
Definition shaped (S : services) : Prop :=
  forall t h d f,
    List.length (predict_tide_drift S t h d f) = List.length t /\
    List.length (infer_minor_corrections S t h d f) = List.length t.

(** The mask of a slice once the mask of the model is added, and the tides
    computed for the points it leaves: they depend on the times of the
    slice only. *)
Definition slice_mask (hc : list hc_row) (mask : list bool) : list bool :=
  map (fun p : bool * bool => fst p || snd p)
    (Np.zip mask (map row_masked hc)).

Definition slice_values (S : services) (fmt : format) (hc : list hc_row)
    (tide_time deltat : list float) (mask : list bool) : list float :=
  let m := map negb (slice_mask hc mask) in
  let tv := picked m tide_time in
  let hv := picked m hc in
  let dv := picked m deltat in
  map (fun p : float * float => (fst p + snd p)%float)
    (Np.zip (predict_tide_drift S tv hv dv fmt)
       (infer_minor_corrections S tv hv dv fmt)).

Lemma slice_mask_length (hc : list hc_row) (mask : list bool) :
  List.length hc = List.length mask ->
  List.length (slice_mask hc mask) = List.length mask.
Proof.
  intros H. unfold slice_mask.
  rewrite length_map, zip_same_length; [reflexivity |].
  now rewrite length_map.
Qed.

Lemma slice_values_length S fmt hc tide_time deltat mask :
  shaped S ->
  List.length hc = List.length mask ->
  List.length tide_time = List.length mask ->
  List.length (slice_values S fmt hc tide_time deltat mask) =
    List.length (Np.nonzero (map negb (slice_mask hc mask))).
Proof.
  intros HS Hh Ht. unfold slice_values. cbv zeta.
  rewrite length_map.
  destruct (HS (picked (map negb (slice_mask hc mask)) tide_time)
              (picked (map negb (slice_mask hc mask)) hc)
              (picked (map negb (slice_mask hc mask)) deltat) fmt)
    as [Hp Hm].
  rewrite zip_same_length by congruence. rewrite Hp.
  apply picked_length.
  rewrite length_map, slice_mask_length; assumption.
Qed.

Lemma bind_ret_l {A B : Type} (a : A) (k : A -> M B) :
  bind (ret a) k = k a.
Proof. unfold bind, ret. destruct (k a). reflexivity. Qed.

Lemma bind_pure {A B : Type} (a : A) (k : A -> M B) :
  bind ([], inr a) k = k a.
Proof. exact (bind_ret_l a k). Qed.

Lemma lift_some {A : Type} (e : error) (a : A) : lift e (Some a) = ret a.
Proof. reflexivity. Qed.

Lemma assign_all_same {A : Type} (n : nat) (src : list A) :
  List.length src = n -> Np.assign_all n src = Some src.
Proof. intros H. unfold Np.assign_all. now rewrite H, Nat.eqb_refl. Qed.

Lemma put_nonzero {A : Type} (m : list bool) (dst vals : list A) :
  List.length dst = List.length m ->
  List.length vals = List.length (Np.nonzero m) ->
  Np.put dst (Np.nonzero m) vals = Some (placed m vals dst).
Proof.
  intros Hd Hv. unfold Np.put, Np.nonzero in *.
  rewrite nonzero_in_range by (cbn; lia).
  rewrite assign_all_same by exact Hv.
  pose proof (scatter_placed m vals dst [] Hd) as E.
  cbn [app List.length] in E. now rewrite E.
Qed.

Lemma take_nonzero_all {A : Type} (m : list bool) (src : list A) :
  List.length src = List.length m ->
  Np.take src (Np.nonzero m) = Some (picked m src).
Proof. intros H. exact (take_nonzero m src [] H). Qed.

Lemma take_placed_all {A : Type} (m : list bool) (vals dst : list A) :
  List.length dst = List.length m ->
  List.length vals = List.length (Np.nonzero m) ->
  Np.take (placed m vals dst) (Np.nonzero m) = Some vals.
Proof. intros Hd Hv. exact (take_placed m vals dst [] Hd Hv). Qed.

(** One step of a computation whose next call is known to return. *)
Ltac returns E := rewrite E, ?lift_some, bind_ret_l; cbv beta.

Lemma predict_slice_spec S fmt hc tide_time deltat data mask :
  shaped S ->
  List.length hc = List.length mask ->
  List.length tide_time = List.length mask ->
  List.length deltat = List.length mask ->
  List.length data = List.length mask ->
  ATL11.predict_slice S fmt hc tide_time deltat data mask =
    ([], inr (placed (map negb (slice_mask hc mask))
                (slice_values S fmt hc tide_time deltat mask) data,
              slice_mask hc mask)).
Proof.
  intros HS Hh Ht Hd Hda.
  pose proof (slice_mask_length hc mask Hh) as Hsm.
  pose proof (slice_values_length S fmt hc tide_time deltat mask HS Hh Ht)
    as Hsv.
  unfold slice_values in *. cbv zeta in *.
  assert (List.length (map negb (slice_mask hc mask)) = List.length mask)
    as Hm by (now rewrite length_map).
  set (m := map negb (slice_mask hc mask)) in *.
  set (tv := picked m tide_time) in *.
  set (hv := picked m hc) in *.
  set (dv := picked m deltat) in *.
  destruct (HS tv hv dv fmt) as [Hp Hmi].
  assert (List.length tv = List.length (Np.nonzero m)) as Htv
    by (apply picked_length; congruence).
  unfold ATL11.predict_slice.
  returns (assign_all_same (List.length mask) (map row_masked hc)
             (eq_trans (length_map _ _) Hh)).
  cbv zeta. fold (slice_mask hc mask). fold m.
  returns (take_nonzero_all m tide_time (eq_trans Ht (eq_sym Hm))).
  returns (take_nonzero_all m hc (eq_trans Hh (eq_sym Hm))).
  returns (take_nonzero_all m deltat (eq_trans Hd (eq_sym Hm))).
  fold tv hv dv.
  returns (put_nonzero m data (predict_tide_drift S tv hv dv fmt)
             (eq_trans Hda (eq_sym Hm)) (eq_trans Hp Htv)).
  returns (take_placed_all m (predict_tide_drift S tv hv dv fmt) data
             (eq_trans Hda (eq_sym Hm)) (eq_trans Hp Htv)).
  returns (assign_all_same (List.length (Np.nonzero m))
             (infer_minor_corrections S tv hv dv fmt) (eq_trans Hmi Htv)).
  rewrite put_nonzero; [| rewrite placed_length; congruence | exact Hsv].
  rewrite lift_some, bind_ret_l.
  rewrite placed_twice
    by (rewrite length_map, zip_same_length; congruence).
  reflexivity.
Qed.

(** ** Columns of a points x cycles array *)

(** A points x cycles array of [n] rows and [w] columns. *)
Definition rect {A : Type} (n w : nat) (a : ATL11.array2 A) : Prop :=
  List.length a = n /\ Forall (fun row => List.length row = w) a.

Lemma set_nth_length {A : Type} (c : nat) (x : A) (l : list A) :
  List.length (Np.set_nth c x l) = List.length l.
Proof.
  revert c. induction l as [| y l IH]; intros [| c]; cbn; auto.
Qed.

Lemma nth_set_nth_same {A : Type} (c : nat) (x d : A) (l : list A) :
  (c < List.length l)%nat -> nth c (Np.set_nth c x l) d = x.
Proof.
  revert c. induction l as [| y l IH]; intros [| c] H; cbn in *;
    try lia; [reflexivity |]. apply IH. lia.
Qed.

Lemma nth_set_nth_other {A : Type} (c c' : nat) (x d : A) (l : list A) :
  c <> c' -> nth c' (Np.set_nth c x l) d = nth c' l d.
Proof.
  revert c c'. induction l as [| y l IH]; intros [| c] [| c'] H; cbn;
    try reflexivity; try congruence.
  apply IH. congruence.
Qed.

Lemma col_length {A : Type} (d : A) (c : nat) (a : ATL11.array2 A) :
  List.length (ATL11.col d c a) = List.length a.
Proof. unfold ATL11.col. apply length_map. Qed.

Lemma set_col_rect {A : Type} (n w c : nat) (v : list A)
    (a : ATL11.array2 A) :
  rect n w a -> List.length v = n -> rect n w (ATL11.set_col c v a).
Proof.
  intros [Hn Hw] Hv. subst n. unfold ATL11.set_col.
  revert v Hv. induction a as [| row a IH]; intros [| x v] Hv;
    try discriminate Hv; [split; [reflexivity | constructor] |].
  cbn in Hv. injection Hv as Hv. inversion Hw as [| ? ? Hrow Hrest]; subst.
  destruct (IH Hrest v Hv) as [IHn IHw].
  split; cbn; [now rewrite IHn |].
  constructor; [now rewrite set_nth_length | exact IHw].
Qed.

Lemma col_set_col_same {A : Type} (n w c : nat) (d : A) (v : list A)
    (a : ATL11.array2 A) :
  rect n w a -> List.length v = n -> (c < w)%nat ->
  ATL11.col d c (ATL11.set_col c v a) = v.
Proof.
  intros [Hn Hw] Hv Hc. subst n. unfold ATL11.col, ATL11.set_col.
  revert v Hv. induction a as [| row a IH]; intros [| x v] Hv;
    try discriminate Hv; [reflexivity |].
  cbn in Hv. injection Hv as Hv. inversion Hw as [| ? ? Hrow Hrest]; subst.
  cbn. rewrite nth_set_nth_same by lia. f_equal. apply IH; assumption.
Qed.

Lemma col_set_col_other {A : Type} (c c' : nat) (d : A) (v : list A)
    (a : ATL11.array2 A) :
  List.length v = List.length a -> c <> c' ->
  ATL11.col d c' (ATL11.set_col c v a) = ATL11.col d c' a.
Proof.
  intros Hv Hc. unfold ATL11.col, ATL11.set_col.
  revert v Hv. induction a as [| row a IH]; intros [| x v] Hv;
    try discriminate Hv; [reflexivity |].
  cbn in Hv. injection Hv as Hv.
  cbn. rewrite nth_set_nth_other by exact Hc. f_equal. apply IH; assumption.
Qed.

Lemma col_map {A B : Type} (f : A -> B) (n w c : nat) (d : A) (e : B)
    (a : ATL11.array2 A) :
  rect n w a -> (c < w)%nat ->
  ATL11.col e c (map (map f) a) = map f (ATL11.col d c a).
Proof.
  intros [_ Hw] Hc. unfold ATL11.col. rewrite !map_map.
  apply map_ext_in. intros row Hrow.
  rewrite Forall_forall in Hw. specialize (Hw row Hrow).
  rewrite (nth_indep _ e (f d)) by (rewrite length_map; lia).
  apply map_nth.
Qed.

Lemma map_rect {A B : Type} (f : A -> B) (n w : nat) (a : ATL11.array2 A) :
  rect n w a -> rect n w (map (map f) a).
Proof.
  intros [Hn Hw]. split; [now rewrite length_map |].
  apply Forall_map. eapply Forall_impl; [| exact Hw].
  intros row Hrow. now rewrite length_map.
Qed.

(** What is stored for a slice: the fill value under a set mask, also in
    place of a computed NaN; the computed values, in order, elsewhere. *)
Fixpoint settled (fv : float) (mask : list bool) (vals : list float)
    : list (float * bool) :=
  match mask with
  | [] => []
  | true :: mask' => (fv, true) :: settled fv mask' vals
  | false :: mask' =>
      match vals with
      | v :: vals' => ATL11.fold_nan fv (v, false) :: settled fv mask' vals'
      | [] => (fv, true) :: settled fv mask' []
      end
  end.

Lemma fold_placed (fv : float) (mask : list bool) :
  forall (vals dst : list float),
    List.length dst = List.length mask ->
    List.length vals = List.length (Np.nonzero (map negb mask)) ->
    map (ATL11.fold_nan fv) (Np.zip (placed (map negb mask) vals dst) mask) =
      settled fv mask vals.
Proof.
  unfold Np.nonzero. generalize 0%nat.
  induction mask as [| b mask IH]; intros k vals [| d dst] Hd Hv;
    try discriminate Hd; [reflexivity |].
  cbn in Hd. injection Hd as Hd.
  destruct b; cbn [map negb placed Np.zip settled Np.nonzero_from] in *.
  - unfold ATL11.fold_nan at 1. cbn [fst snd]. rewrite orb_true_r.
    f_equal. apply (IH (S k)); assumption.
  - destruct vals as [| v vals]; [discriminate Hv |].
    cbn in Hv. injection Hv as Hv. cbn [map Np.zip]. f_equal.
    apply (IH (S k)); assumption.
Qed.

Lemma zip_fst_snd {A B : Type} (l : list (A * B)) :
  Np.zip (map fst l) (map snd l) = l.
Proof.
  induction l as [| [a b] l IH]; cbn; [reflexivity | now rewrite IH].
Qed.

Lemma zip_rows_nth {A B C : Type} (f : A * B -> C) (c : nat) (d : A) (e : B)
    (x : list A) (y : list B) (z : C) :
  (c < List.length x)%nat -> List.length x = List.length y ->
  nth c (map f (Np.zip x y)) z = f (nth c x d, nth c y e).
Proof.
  revert c y. induction x as [| a x IH]; intros c [| b y] Hc Hl;
    cbn in *; try lia.
  destruct c as [| c]; [reflexivity |]. apply IH; lia.
Qed.

(** A column of the folded arrays is the folded column. *)
Lemma col_folded (fv : float) (n w c : nat) (data : ATL11.array2 float)
    (mask : ATL11.array2 bool) :
  rect n w data -> rect n w mask -> (c < w)%nat ->
  ATL11.col (fv, true) c
    (map (fun p : list float * list bool =>
            map (ATL11.fold_nan fv) (Np.zip (fst p) (snd p)))
       (Np.zip data mask)) =
  map (ATL11.fold_nan fv)
    (Np.zip (ATL11.col 0%float c data) (ATL11.col false c mask)).
Proof.
  intros [Hn Hw] [Hn' Hw'] Hc. subst n. unfold ATL11.col.
  revert mask Hn' Hw'. induction data as [| row data IH];
    intros [| mrow mask] Hn' Hw'; try discriminate Hn'; [reflexivity |].
  cbn in Hn'. injection Hn' as Hn'.
  inversion Hw as [| ? ? Hrow Hrest]; subst.
  inversion Hw' as [| ? ? Hmrow Hmrest]; subst.
  cbn [Np.zip map fst snd]. f_equal.
  - apply zip_rows_nth; lia.
  - apply IH; assumption.
Qed.

Lemma folded_rect (fv : float) (n w : nat) (data : ATL11.array2 float)
    (mask : ATL11.array2 bool) :
  rect n w data -> rect n w mask ->
  rect n w
    (map (fun p : list float * list bool =>
            map (ATL11.fold_nan fv) (Np.zip (fst p) (snd p)))
       (Np.zip data mask)).
Proof.
  intros [Hn Hw] [Hn' Hw']. subst n.
  revert mask Hn' Hw'. induction data as [| row data IH];
    intros [| mrow mask] Hn' Hw'; try discriminate Hn';
    [split; [reflexivity | constructor] |].
  cbn in Hn'. injection Hn' as Hn'.
  inversion Hw as [| ? ? Hrow Hrest]; subst.
  inversion Hw' as [| ? ? Hmrow Hmrest]; subst.
  destruct (IH Hrest mask Hn' Hmrest) as [IHn IHw].
  split; cbn; [now rewrite IHn |].
  constructor; [| exact IHw].
  cbn [fst snd]. rewrite length_map, zip_same_length; congruence.
Qed.

(** The loop over the cycles treats each column on its own. *)
Lemma along_track_cycles_spec S fmt hc (n w : nat) tide_time deltat :
  shaped S -> List.length hc = n ->
  rect n w tide_time -> rect n w deltat ->
  forall cycles data mask,
    NoDup cycles -> Forall (fun c => (c < w)%nat) cycles ->
    rect n w data -> rect n w mask ->
    exists data' mask',
      ATL11.along_track_cycles S fmt hc tide_time deltat cycles data mask =
        ([], inr (data', mask')) /\
      rect n w data' /\ rect n w mask' /\
      forall c,
        (In c cycles ->
         ATL11.col 0%float c data' =
           placed (map negb (slice_mask hc (ATL11.col false c mask)))
             (slice_values S fmt hc (ATL11.col 0%float c tide_time)
                (ATL11.col 0%float c deltat) (ATL11.col false c mask))
             (ATL11.col 0%float c data) /\
         ATL11.col false c mask' =
           slice_mask hc (ATL11.col false c mask)) /\
        (~ In c cycles ->
         ATL11.col 0%float c data' = ATL11.col 0%float c data /\
         ATL11.col false c mask' = ATL11.col false c mask).
Proof.
  intros HS Hh Htt Hdt cycles.
  induction cycles as [| c0 rest IH]; intros data mask Hnd Hlt Hd Hm.
  - exists data, mask. split; [reflexivity |].
    split; [exact Hd |]. split; [exact Hm |].
    intros c. split; [intros [] | intros _; split; reflexivity].
  - inversion Hnd as [| ? ? Hnotin Hnd']; subst.
    inversion Hlt as [| ? ? Hc0 Hlt']; subst.
    cbn [ATL11.along_track_cycles].
    assert (List.length (ATL11.col false c0 mask) = List.length hc) as Lm
      by (rewrite col_length; destruct Hm; congruence).
    rewrite predict_slice_spec;
      [| exact HS | congruence
       | rewrite !col_length; destruct Htt, Hm; congruence
       | rewrite !col_length; destruct Hdt, Hm; congruence
       | rewrite !col_length; destruct Hd, Hm; congruence].
    rewrite bind_pure. cbn [fst snd].
    set (d0 := placed _ _ _). set (m0 := slice_mask _ _).
    assert (List.length d0 = List.length hc) as Ld0
      by (unfold d0; rewrite placed_length, col_length; destruct Hd;
          congruence).
    assert (List.length m0 = List.length hc) as Lm0
      by (unfold m0; rewrite slice_mask_length; congruence).
    destruct (IH (ATL11.set_col c0 d0 data) (ATL11.set_col c0 m0 mask)
                Hnd' Hlt' (set_col_rect _ _ _ _ _ Hd Ld0)
                (set_col_rect _ _ _ _ _ Hm Lm0))
      as (data' & mask' & Hrun & Hd' & Hm' & Hcols).
    exists data', mask'. split; [exact Hrun |].
    split; [exact Hd' |]. split; [exact Hm' |].
    intros c. split.
    + intros [<- | Hin].
      * destruct (proj2 (Hcols c0) Hnotin) as [E1 E2].
        rewrite E1, E2.
        rewrite (col_set_col_same (List.length hc) w) by assumption.
        rewrite (col_set_col_same (List.length hc) w) by assumption.
        split; reflexivity.
      * assert (c0 <> c) as Hne by (intros ->; contradiction).
        destruct (proj1 (Hcols c) Hin) as [E1 E2].
        rewrite E1, E2.
        rewrite !col_set_col_other
          by (try exact Hne; destruct Hd, Hm; congruence).
        split; reflexivity.
    + intros Hnin.
      assert (c0 <> c) as Hne by (intros ->; apply Hnin; now left).
      assert (~ In c rest) as Hnin' by (intros H; apply Hnin; now right).
      destruct (proj2 (Hcols c) Hnin') as [E1 E2].
      rewrite E1, E2.
      rewrite !col_set_col_other
        by (try exact Hne; destruct Hd, Hm; congruence).
      split; reflexivity.
Qed.

Lemma n_cols_rect {A : Type} (n w : nat) (a : ATL11.array2 A) :
  rect n w a -> a <> [] -> ATL11.n_cols a = w.
Proof.
  intros [_ Hw] Hne. destruct a as [| row a]; [congruence |].
  inversion Hw; subst. reflexivity.
Qed.

Lemma seq_lt (w : nat) : Forall (fun c => (c < w)%nat) (seq 0 w).
Proof. apply Forall_forall. intros c Hc. apply in_seq in Hc. lia. Qed.

(** The slice of a cycle before the model is consulted: its mask and its
    times, from the times of that cycle alone. *)
Definition cycle_mask (b : ATL11.beam_pair) (c : nat) : list bool :=
  map (fun x => (x =? ATL11.delta_time_fill b)%float)
    (ATL11.col 0%float c (ATL11.delta_time b)).

Definition cycle_time (S : services) (sdp_epoch : float)
    (b : ATL11.beam_pair) (c : nat) : list float :=
  map (ATL11.tide_time_of S sdp_epoch)
    (ATL11.col 0%float c (ATL11.delta_time b)).

Lemma bind_returns {A B : Type} (c : M A) (k : A -> M B) t a t' b :
  c = (t, inr a) -> k a = (t', inr b) -> bind c k = ((t ++ t')%list, inr b).
Proof. intros -> H. unfold bind. now rewrite H. Qed.

Lemma constants_returns S o TIDE_MODEL m lon lat hc :
  harmonic_constants S o TIDE_MODEL m lon lat = Some hc ->
  ATL11.constants S o TIDE_MODEL (Some m) lon lat =
    ([ReadModel], inr (model_format m, hc)).
Proof. intros H. unfold ATL11.constants, var. cbn. now rewrite H. Qed.

Lemma reads_delta_file_returns (fmt : format) :
  exists t, ATL11.reads_delta_file fmt = (t, inr tt).
Proof. destruct fmt; eexists; reflexivity. Qed.

(** The along-track tides of a beam pair, cycle by cycle. *)
Lemma along_track_columns S env o TIDE_MODEL m sdp_epoch ptx b hc n w :
  shaped S ->
  harmonic_constants S o TIDE_MODEL m (ATL11.longitude b) (ATL11.latitude b)
    = Some hc ->
  List.length hc = n ->
  rect n w (ATL11.delta_time b) ->
  exists tr data mask,
    ATL11.along_track S env o TIDE_MODEL (Some m) sdp_epoch ptx b =
      (tr, inr (data, mask)) /\
    rect n w data /\ rect n w mask /\
    forall c, (c < w)%nat ->
      Np.zip (ATL11.col 0%float c data) (ATL11.col false c mask) =
        settled (ATL11.h_corr_fill b) (slice_mask hc (cycle_mask b c))
          (slice_values S (model_format m) hc (cycle_time S sdp_epoch b c)
             (map (ATL11.delta_times S (model_format m))
                (cycle_time S sdp_epoch b c))
             (cycle_mask b c)).
Proof.
  intros HS Hhc Hn Hdt.
  unfold ATL11.along_track. cbv zeta.
  unfold cycle_mask, cycle_time.
  set (fmt := model_format m).
  set (fv := ATL11.h_corr_fill b).
  set (dt := ATL11.delta_time b) in *.
  set (mask0 := map (map (fun x => (x =? ATL11.delta_time_fill b)%float)) dt).
  set (ttime := map (map (ATL11.tide_time_of S sdp_epoch)) dt).
  set (da := map (map (ATL11.delta_times S fmt)) ttime).
  assert (rect n w mask0) as Hmask0 by (apply map_rect; exact Hdt).
  assert (rect n w ttime) as Htt by (apply map_rect; exact Hdt).
  assert (rect n w da) as Hda by (apply map_rect; exact Htt).
  destruct (reads_delta_file_returns fmt) as [tr0 Er].
  assert (exists data0 : ATL11.array2 float,
            rect n (ATL11.n_cols dt) data0 /\
            map (fun i => map (ATL11.uninitialized_AT env ptx i)
                            (seq 0 (ATL11.n_cols dt)))
                (seq 0 (List.length dt)) = data0)
    as (data0 & Hdata0 & ->).
  { eexists. split; [| reflexivity]. destruct Hdt as [Hl _]. split.
    - now rewrite length_map, length_seq.
    - apply Forall_map, Forall_forall. intros i _.
      now rewrite length_map, length_seq. }
  assert (exists data' mask',
            ATL11.along_track_cycles S fmt hc ttime da
              (seq 0 (ATL11.n_cols dt)) data0 mask0 =
              ([], inr (data', mask')) /\
            rect n w data' /\ rect n w mask' /\
            forall c, (c < w)%nat ->
              ATL11.col 0%float c data' =
                placed (map negb (slice_mask hc (ATL11.col false c mask0)))
                  (slice_values S fmt hc (ATL11.col 0%float c ttime)
                     (ATL11.col 0%float c da) (ATL11.col false c mask0))
                  (ATL11.col 0%float c data0) /\
              ATL11.col false c mask' =
                slice_mask hc (ATL11.col false c mask0))
    as (data' & mask' & Hrun & Hd' & Hm' & Hcols).
  { destruct dt as [| row0 rows] eqn:Edt.
    - (* no reference point: nothing to do *)
      assert (n = 0%nat) as -> by (destruct Hdt as [<- _]; reflexivity).
      exists [], []. cbn.
      split; [destruct Hdata0 as [L _]; destruct data0;
              [reflexivity | discriminate L] |].
      split; [split; [reflexivity | constructor] |].
      split; [split; [reflexivity | constructor] |].
      intros c _. destruct Hdata0 as [L _].
      destruct data0; [| discriminate L].
      destruct hc; [| discriminate Hn]. split; reflexivity.
    - rewrite (n_cols_rect n w (row0 :: rows) Hdt) in * by discriminate.
      destruct (along_track_cycles_spec S fmt hc n w ttime da HS Hn Htt Hda
                  (seq 0 w) data0 mask0 (seq_NoDup w 0) (seq_lt w)
                  Hdata0 Hmask0)
        as (data' & mask' & Hrun & Hd' & Hm' & Hcols).
      exists data', mask'. repeat (split; [assumption |]).
      intros c Hc. apply (Hcols c). apply in_seq. lia. }
  do 3 eexists. split.
  { eapply bind_returns; [apply constants_returns; exact Hhc |].
    cbv beta iota.
    eapply bind_returns; [exact Er |].
    eapply bind_returns; [exact Hrun |].
    reflexivity. }
  cbn [fst snd].
  pose proof (folded_rect fv n w data' mask' Hd' Hm') as Hf.
  split; [apply map_rect; exact Hf |].
  split; [apply map_rect; exact Hf |].
  intros c Hc.
  rewrite (col_map fst n w c (fv, true)) by assumption.
  rewrite (col_map snd n w c (fv, true)) by assumption.
  rewrite zip_fst_snd, (col_folded fv n w) by assumption.
  destruct (Hcols c Hc) as [E1 E2]. rewrite E1, E2.
  subst mask0 ttime da.
  rewrite (col_map _ n w c 0%float false) by assumption.
  repeat rewrite (col_map _ n w c 0%float 0%float) by assumption.
  assert (List.length (ATL11.col 0%float c dt) = n) as Lc
    by (rewrite col_length; destruct Hdt; assumption).
  apply fold_placed.
  - rewrite col_length.
    rewrite slice_mask_length by (rewrite length_map; congruence).
    rewrite length_map. destruct Hdata0; congruence.
  - apply slice_values_length;
      [exact HS | rewrite length_map; congruence
      | rewrite !length_map; congruence].
Qed.

Lemma zip_map_fst {A B : Type} (a : list A) :
  forall b : list B,
    List.length a = List.length b ->
    map fst (Np.zip a b) = a /\ map snd (Np.zip a b) = b.
Proof.
  induction a as [| x a IH]; intros [| y b] H; try discriminate H;
    [split; reflexivity |].
  cbn in H. injection H as H. destruct (IH b H) as [E1 E2].
  cbn. now rewrite E1, E2.
Qed.

Lemma slice_mask_all_set (hc : list hc_row) (mask : list bool) :
  List.length hc = List.length mask ->
  Forall (fun x => x = true) mask ->
  slice_mask hc mask = repeat true (List.length mask).
Proof.
  unfold slice_mask. revert hc.
  induction mask as [| x mask IH]; intros [| r hc] Hl Hm;
    try discriminate Hl; [reflexivity |].
  cbn in Hl. injection Hl as Hl. inversion Hm; subst.
  cbn. f_equal. apply IH; assumption.
Qed.

Lemma slice_mask_clear (hc : list hc_row) (mask : list bool) :
  List.length hc = List.length mask ->
  Forall (fun r => row_masked r = false) hc ->
  slice_mask hc mask = mask.
Proof.
  unfold slice_mask. revert hc.
  induction mask as [| x mask IH]; intros [| r hc] Hl Hh;
    try discriminate Hl; [reflexivity |].
  cbn in Hl. injection Hl as Hl. inversion Hh as [| ? ? Hr Hrest]; subst.
  cbn [map Np.zip fst snd]. rewrite Hr, orb_false_r. f_equal.
  apply IH; assumption.
Qed.

Lemma settled_all_set (fv : float) (n : nat) (vals : list float) :
  settled fv (repeat true n) vals = repeat (fv, true) n.
Proof. induction n as [| n IH]; cbn; [reflexivity | now rewrite IH]. Qed.

Lemma settled_all_clear (fv : float) (n : nat) :
  forall vals : list float,
    List.length vals = n ->
    settled fv (repeat false n) vals =
      map (fun v => (if is_nan v then fv else v, is_nan v)) vals.
Proof.
  induction n as [| n IH]; intros [| v vals] H; try discriminate H;
    [reflexivity |].
  cbn in H. injection H as H. cbn [repeat settled map]. f_equal.
  - unfold ATL11.fold_nan. cbn [fst snd]. rewrite orb_false_r.
    destruct (is_nan v); reflexivity.
  - apply IH. exact H.
Qed.

Lemma picked_all {A : Type} (n : nat) :
  forall src : list A,
    List.length src = n -> picked (repeat true n) src = src.
Proof.
  induction n as [| n IH]; intros [| x src] H; try discriminate H;
    [reflexivity |].
  cbn in H. injection H as H. cbn. now rewrite IH.
Qed.

Lemma map_all {A B : Type} (f : A -> B) (y : B) (l : list A) :
  Forall (fun x => f x = y) l -> map f l = repeat y (List.length l).
Proof.
  induction 1 as [| x l Hx _ IH]; cbn; [reflexivity | now rewrite Hx, IH].
Qed.

Lemma repeat_all {A : Type} (x : A) (n : nat) :
  Forall (fun y => y = x) (repeat x n).
Proof. induction n; cbn; constructor; auto. Qed.

Lemma map_repeat {A B : Type} (f : A -> B) (x : A) (n : nat) :
  map f (repeat x n) = repeat (f x) n.
Proof. induction n as [| n IH]; cbn; [reflexivity | now rewrite IH]. Qed.

(** X3.  The along-track tides of a cycle do not depend on the other
    cycles: two beam pairs of one shape with the same points, fill values
    and times in cycle [c] get the same tides and the same mask in cycle
    [c], whatever their other cycles hold and whatever the freshly
    allocated arrays held (the services returning one value per time, and
    the model one row of constants per reference point). *)
Theorem cycles_are_independent (S : services) (env env' : ATL11.environment)
    (o : options) (TIDE_MODEL : string) (m : descriptor) (sdp_epoch : float)
    (ptx ptx' : string) (b b' : ATL11.beam_pair) (hc : list hc_row)
    (n w c : nat) :
  shaped S ->
  harmonic_constants S o TIDE_MODEL m (ATL11.longitude b) (ATL11.latitude b)
    = Some hc ->
  harmonic_constants S o TIDE_MODEL m (ATL11.longitude b')
    (ATL11.latitude b') = Some hc ->
  List.length hc = n ->
  rect n w (ATL11.delta_time b) ->
  rect n w (ATL11.delta_time b') ->
  ATL11.delta_time_fill b = ATL11.delta_time_fill b' ->
  ATL11.h_corr_fill b = ATL11.h_corr_fill b' ->
  (c < w)%nat ->
  ATL11.col 0%float c (ATL11.delta_time b) =
    ATL11.col 0%float c (ATL11.delta_time b') ->
  exists tr tr' data data' mask mask',
    ATL11.along_track S env o TIDE_MODEL (Some m) sdp_epoch ptx b =
      (tr, inr (data, mask)) /\
    ATL11.along_track S env' o TIDE_MODEL (Some m) sdp_epoch ptx' b' =
      (tr', inr (data', mask')) /\
    ATL11.col 0%float c data = ATL11.col 0%float c data' /\
    ATL11.col false c mask = ATL11.col false c mask'.
Proof.
  intros HS Hhc Hhc' Hn Hdt Hdt' Hfill Hfv Hc Hcol.
  destruct (along_track_columns S env o TIDE_MODEL m sdp_epoch ptx b hc n w
              HS Hhc Hn Hdt)
    as (tr & data & mask & Hrun & Hd & Hm & Hcols).
  destruct (along_track_columns S env' o TIDE_MODEL m sdp_epoch ptx' b' hc
              n w HS Hhc' Hn Hdt')
    as (tr' & data' & mask' & Hrun' & Hd' & Hm' & Hcols').
  exists tr, tr', data, data', mask, mask'.
  split; [exact Hrun |]. split; [exact Hrun' |].
  specialize (Hcols c Hc). specialize (Hcols' c Hc).
  assert (cycle_mask b c = cycle_mask b' c) as Em
    by (unfold cycle_mask; now rewrite Hcol, Hfill).
  assert (cycle_time S sdp_epoch b c = cycle_time S sdp_epoch b' c) as Et
    by (unfold cycle_time; now rewrite Hcol).
  rewrite <- Em, <- Et, <- Hfv in Hcols'.
  assert (List.length (ATL11.col 0%float c data) =
          List.length (ATL11.col false c mask)) as Hl
    by (rewrite !col_length; destruct Hd, Hm; congruence).
  assert (List.length (ATL11.col 0%float c data') =
          List.length (ATL11.col false c mask')) as Hl'
    by (rewrite !col_length; destruct Hd', Hm'; congruence).
  destruct (zip_map_fst _ _ Hl) as [E1 E2].
  destruct (zip_map_fst _ _ Hl') as [E1' E2'].
  rewrite Hcols in E1, E2. rewrite Hcols' in E1', E2'. split; congruence.
Qed.

(** X4.  A cycle without any time (every [delta_time] of the column is
    the fill value) holds the fill value of [h_corr] throughout and is
    masked throughout.  A cycle with all its times, over points that the
    model covers, holds the prediction plus the minor corrections computed
    from the times of that cycle; there a slot is masked, and set to the
    fill value, only if the computed value is NaN. *)
Theorem masked_and_valid_cycles (S : services) (env : ATL11.environment)
    (o : options) (TIDE_MODEL : string) (m : descriptor) (sdp_epoch : float)
    (ptx : string) (b : ATL11.beam_pair) (hc : list hc_row) (n w : nat) :
  shaped S ->
  harmonic_constants S o TIDE_MODEL m (ATL11.longitude b) (ATL11.latitude b)
    = Some hc ->
  List.length hc = n ->
  rect n w (ATL11.delta_time b) ->
  exists tr data mask,
    ATL11.along_track S env o TIDE_MODEL (Some m) sdp_epoch ptx b =
      (tr, inr (data, mask)) /\
    forall c, (c < w)%nat ->
      (Forall (fun x => (x =? ATL11.delta_time_fill b)%float = true)
         (ATL11.col 0%float c (ATL11.delta_time b)) ->
       ATL11.col 0%float c data = repeat (ATL11.h_corr_fill b) n /\
       ATL11.col false c mask = repeat true n) /\
      (Forall (fun x => (x =? ATL11.delta_time_fill b)%float = false)
         (ATL11.col 0%float c (ATL11.delta_time b)) ->
       Forall (fun r => row_masked r = false) hc ->
       let t := cycle_time S sdp_epoch b c in
       let deltat := map (ATL11.delta_times S (model_format m)) t in
       let computed :=
         map (fun p : float * float => (fst p + snd p)%float)
           (Np.zip (predict_tide_drift S t hc deltat (model_format m))
              (infer_minor_corrections S t hc deltat (model_format m))) in
       ATL11.col 0%float c data =
         map (fun v => if is_nan v then ATL11.h_corr_fill b else v)
           computed /\
       ATL11.col false c mask = map is_nan computed).
Proof.
  intros HS Hhc Hn Hdt.
  destruct (along_track_columns S env o TIDE_MODEL m sdp_epoch ptx b hc n w
              HS Hhc Hn Hdt)
    as (tr & data & mask & Hrun & Hd & Hm & Hcols).
  exists tr, data, mask. split; [exact Hrun |].
  intros c Hc. specialize (Hcols c Hc).
  assert (List.length (ATL11.col 0%float c data) =
          List.length (ATL11.col false c mask)) as Hl
    by (rewrite !col_length; destruct Hd, Hm; congruence).
  destruct (zip_map_fst _ _ Hl) as [E1 E2].
  rewrite Hcols in E1, E2. rewrite <- E1, <- E2. clear E1 E2 Hcols Hl.
  assert (List.length (ATL11.col 0%float c (ATL11.delta_time b)) = n) as Lc
    by (rewrite col_length; destruct Hdt; assumption).
  assert (List.length (cycle_mask b c) = n) as Lm
    by (unfold cycle_mask; now rewrite length_map).
  assert (List.length (cycle_time S sdp_epoch b c) = n) as Lt
    by (unfold cycle_time; now rewrite length_map).
  split.
  - intros Hfill.
    assert (cycle_mask b c = repeat true n) as Em
      by (unfold cycle_mask; rewrite (map_all _ true _ Hfill); congruence).
    rewrite slice_mask_all_set
      by (rewrite ?Em; try apply repeat_all; congruence).
    rewrite Lm, settled_all_set, !map_repeat. split; reflexivity.
  - intros Hvalid Hclear. cbv zeta.
    assert (cycle_mask b c = repeat false n) as Em
      by (unfold cycle_mask; rewrite (map_all _ false _ Hvalid); congruence).
    rewrite slice_mask_clear by (try assumption; congruence).
    unfold slice_values. cbv zeta.
    rewrite slice_mask_clear by (try assumption; congruence).
    rewrite Em, map_repeat. cbn [negb].
    rewrite !picked_all by (rewrite ?length_map; congruence).
    rewrite settled_all_clear.
    + rewrite !map_map. cbn [fst snd]. split; reflexivity.
    + destruct (HS (cycle_time S sdp_epoch b c) hc
                  (map (ATL11.delta_times S (model_format m))
                     (cycle_time S sdp_epoch b c)) (model_format m))
        as [Hp Hmi].
      rewrite length_map, zip_same_length; congruence.
Qed.

Lemma calm_shaped : shaped Sample.calm.
Proof. intros t h d f. split; apply length_map. Qed.

Lemma pt1_rect : rect 3 2 (ATL11.delta_time Sample.pt1).
Proof. split; [reflexivity | repeat constructor]. Qed.

Lemma pt2_rect : rect 3 2 (ATL11.delta_time Sample.pt2).
Proof. split; [reflexivity | repeat constructor]. Qed.

Lemma cycles_are_independent_witness :
  match select_model "CATS2008" with
  | Some m =>
      exists tr tr' data data' mask mask',
        ATL11.along_track Sample.calm Sample.surroundings Sample.options
          "CATS2008" (Some m) 0 "pt1" Sample.pt1 = (tr, inr (data, mask)) /\
        ATL11.along_track Sample.calm Sample.granules Sample.options
          "CATS2008" (Some m) 0 "pt2" Sample.pt2 =
          (tr', inr (data', mask')) /\
        ATL11.col 0%float 1 data = ATL11.col 0%float 1 data' /\
        ATL11.col false 1 mask = ATL11.col false 1 mask'
  | None => False
  end.
Proof.
  destruct (select_model "CATS2008") as [m |] eqn:Em;
    vm_compute in Em; [injection Em as <- | discriminate Em].
  match goal with
  | |- context [ATL11.along_track _ _ _ _ (Some ?m)] =>
      exact (cycles_are_independent Sample.calm Sample.surroundings
               Sample.granules Sample.options "CATS2008" m 0 "pt1" "pt2"
               Sample.pt1 Sample.pt2 _ 3 2 1 calm_shaped eq_refl eq_refl
               eq_refl pt1_rect pt2_rect eq_refl eq_refl
               ltac:(lia) eq_refl)
  end.
Defined.

Lemma masked_and_valid_cycles_witness :
  match select_model "CATS2008" with
  | Some m =>
      exists tr data mask,
        ATL11.along_track Sample.calm Sample.surroundings Sample.options
          "CATS2008" (Some m) 0 "pt1" Sample.pt1 = (tr, inr (data, mask)) /\
        ATL11.col 0%float 0 data = repeat Sample.no_data 3 /\
        ATL11.col false 0 mask = [true; true; true] /\
        ATL11.col 0%float 1 data = [1.25; 1.5; 1.75]%float /\
        ATL11.col false 1 mask = [false; false; false]
  | None => False
  end.
Proof.
  destruct (select_model "CATS2008") as [m |] eqn:Em;
    vm_compute in Em; [injection Em as <- | discriminate Em].
  match goal with
  | |- context [ATL11.along_track _ _ _ _ (Some ?m)] =>
      destruct (masked_and_valid_cycles Sample.calm Sample.surroundings
                  Sample.options "CATS2008" m 0 "pt1" Sample.pt1 _ 3 2
                  calm_shaped eq_refl eq_refl pt1_rect)
        as (tr & data & mask & Hrun & Hcols)
  end.
  exists tr, data, mask. split; [exact Hrun |].
  destruct (proj1 (Hcols 0%nat ltac:(lia))) as [H1 H2];
    [repeat constructor |].
  destruct (proj2 (Hcols 1%nat ltac:(lia))) as [H3 H4];
    [repeat constructor | repeat constructor |].
  repeat split; [exact H1 | exact H2 | exact H3 | exact H4].
Defined.

(** ** Order of the file accesses *)

Definition is_input (ev : event) : bool :=
  match ev with
  | ReadInput _ => true
  | _ => false
  end.

Definition is_model (ev : event) : bool :=
  match ev with
  | ReadModel | ReadDeltaTime => true
  | _ => false
  end.

(** A computation all of whose file accesses are of one kind. *)
Definition only {A : Type} (kind : event -> bool) (c : M A) : Prop :=
  forallb kind (trace c) = true.

Definition reads_only {A : Type} (c : M A) : Prop := only is_input c.

Lemma only_ret {A : Type} kind (a : A) : only kind (ret a).
Proof. reflexivity. Qed.

Lemma only_raise {A : Type} kind (e : error) : only kind (@raise A e).
Proof. reflexivity. Qed.

Lemma only_lift {A : Type} kind (e : error) (x : option A) :
  only kind (lift e x).
Proof. destruct x; reflexivity. Qed.

Lemma only_emit kind (ev : event) : kind ev = true -> only kind (emit ev).
Proof. intros H. unfold only, trace, emit. cbn. now rewrite H. Qed.

Lemma only_bind {A B : Type} kind (c : M A) (k : A -> M B) :
  only kind c -> (forall a, only kind (k a)) -> only kind (bind c k).
Proof.
  unfold only, trace, bind. intros Hc Hk. destruct c as [t [e | a]];
    [exact Hc |].
  specialize (Hk a). destruct (k a) as [t' r]. cbn [fst] in *.
  rewrite forallb_app, Hc, Hk. reflexivity.
Qed.

Lemma only_mapM {A B : Type} kind (f : A -> M B) (l : list A) :
  (forall a, only kind (f a)) -> only kind (mapM f l).
Proof.
  intros Hf. induction l as [| a l IH]; [reflexivity |].
  cbn [mapM]. apply only_bind; [apply Hf |].
  intros b. apply only_bind; [exact IH |].
  intros bs. apply only_ret.
Qed.

Ltac only_step :=
  first
    [ apply only_ret
    | apply only_raise
    | apply only_lift
    | apply only_emit; reflexivity
    | apply only_mapM; intros
    | apply only_bind; [| intros]
    | match goal with
      | |- only _ (if ?b then _ else _) => destruct b
      | |- only _ (match ?x with _ => _ end) => destruct x
      end ].

Lemma read_data_reads_only S fs input_file input_subsetter OIB :
  reads_only (IceBridge.read_data S fs input_file input_subsetter OIB).
Proof.
  unfold reads_only, IceBridge.read_data, IceBridge.read_ATM_icessn_file,
    IceBridge.read_ATM_qfit_file, IceBridge.read_LVIS_HDF5_file,
    IceBridge.subset_and_locate, IceBridge.icessn_arrays,
    IceBridge.qfit_arrays, IceBridge.lvis_arrays, IceBridge.subset,
    IceBridge.hemisphere, IceBridge.file_length, IceBridge.read_lines,
    IceBridge.open_datasets, IceBridge.dataset, IceBridge.combine,
    IceBridge.read_waveforms, IceBridge.interpolate_RH50,
    IceBridge.elementwise, IceBridge.copy_at, IceBridge.icessn_line,
    IceBridge.qfit_line, IceBridge.unpack_time, IceBridge.hhmmss,
    IceBridge.nth_token, IceBridge.float64, var.
  cbv zeta.
  repeat only_step.
Qed.

(** A computation that performs the accesses [proto], in order, and
    returns a value that satisfies [Q]; or fails after a strict prefix of
    them. *)
Definition follows {A : Type} (proto : list event) (Q : A -> Prop)
    (c : M A) : Prop :=
  exists rest,
    (fst c ++ rest)%list = proto /\
    ((rest = [] /\ exists a, snd c = inr a /\ Q a) \/
     (rest <> [] /\ exists e, snd c = inl e)).

Lemma follows_ret {A : Type} (Q : A -> Prop) (a : A) :
  Q a -> follows [] Q (ret a).
Proof.
  intros H. exists []. split; [reflexivity |]. left.
  split; [reflexivity |]. exists a. split; [reflexivity | exact H].
Qed.

Lemma follows_emit {A : Type} (ev : event) (proto : list event)
    (Q : A -> Prop) (k : unit -> M A) :
  follows proto Q (k tt) -> follows (ev :: proto) Q (bind (emit ev) k).
Proof.
  intros (rest & E & H). exists rest. unfold bind, emit.
  destruct (k tt) as [t r]. cbn [fst snd app] in *. now rewrite E.
Qed.

Lemma follows_silent {A B : Type} (proto : list event) (Q : B -> Prop)
    (c : M A) (k : A -> M B) :
  fst c = [] -> proto <> [] ->
  (forall a, snd c = inr a -> follows proto Q (k a)) ->
  follows proto Q (bind c k).
Proof.
  intros Hc Hp Hk. destruct c as [t [e | a]]; cbn [fst] in Hc; subst t.
  - exists proto. split; [reflexivity |]. right. split; [exact Hp |].
    now exists e.
  - specialize (Hk a eq_refl). destruct Hk as (rest & E & H).
    exists rest. unfold bind. destruct (k a) as [t r].
    cbn [fst snd app] in *. auto.
Qed.

(** Computations without any file access. *)
Lemma silent_lift {A : Type} (e : error) (x : option A) :
  fst (lift e x) = [].
Proof. destruct x; reflexivity. Qed.

Lemma silent_bind {A B : Type} (c : M A) (k : A -> M B) :
  fst c = [] -> (forall a, fst (k a) = []) -> fst (bind c k) = [].
Proof.
  intros Hc Hk. destruct c as [t [e | a]]; cbn [fst] in Hc; subst t;
    [reflexivity |].
  unfold bind. specialize (Hk a). destruct (k a) as [t r].
  cbn [fst] in *. now subst t.
Qed.

Ltac silent_step :=
  first
    [ reflexivity
    | apply silent_lift
    | apply silent_bind; [| intros]
    | match goal with
      | |- fst (if ?b then _ else _) = [] => destruct b
      | |- fst (match ?x with _ => _ end) = [] => destruct x
      end ].

Lemma output_filename_silent HEM TIDE_MODEL OIB date time :
  fst (IceBridge.output_filename HEM TIDE_MODEL OIB date time) = [].
Proof.
  unfold IceBridge.output_filename, var. cbv zeta. repeat silent_step.
Qed.

Lemma predict_silent S file_lines fmt t hc deltat :
  fst (IceBridge.predict S file_lines fmt t hc deltat) = [].
Proof. unfold IceBridge.predict. cbv zeta. repeat silent_step. Qed.

Lemma create_dataset_silent file_lines data :
  fst (IceBridge.create_dataset file_lines data) = [].
Proof. unfold IceBridge.create_dataset. repeat silent_step. Qed.

Lemma date_texts_silent OIB input_file :
  fst (IceBridge.date_texts OIB input_file) = [].
Proof.
  unfold IceBridge.date_texts, IceBridge.atm_date_texts, IceBridge.float64.
  cbv zeta. repeat silent_step.
Qed.

(** The accesses of the delta-time table, by format. *)
Definition delta_accesses (fmt : format) : list event :=
  match fmt with
  | GOT | FES => [ReadDeltaTime]
  | _ => []
  end.

(** A step that creates a file or sets permission bits performs its
    access, or fails without one. *)
Lemma follows_create {A : Type} (allowed : string -> bool) (path : string)
    (proto : list event) (Q : A -> Prop) (k : unit -> M A) :
  follows proto Q (k tt) ->
  follows (CreateOutput path :: proto) Q (bind (create allowed path) k).
Proof.
  intros H. unfold create. destruct (allowed path).
  - apply follows_emit. exact H.
  - exists (CreateOutput path :: proto). split; [reflexivity |].
    right. split; [discriminate | now exists OSError].
Qed.

Lemma follows_chmod {A : Type} (allowed : string -> bool) (path : string)
    (proto : list event) (Q : A -> Prop) (k : unit -> M A) :
  follows proto Q (k tt) ->
  follows (Chmod path :: proto) Q (bind (chmod allowed path) k).
Proof.
  intros H. unfold chmod. destruct (allowed path).
  - apply follows_emit. exact H.
  - exists (Chmod path :: proto). split; [reflexivity |].
    right. split; [discriminate | now exists OSError].
Qed.

(** The accesses of a run of the airborne driver after the input is read:
    the model, the delta-time table for the GOT and FES formats, the
    creation of the output file and its permission bits. *)
Definition airborne_accesses (fmt : format) (out : string) : list event :=
  (ReadModel :: delta_accesses fmt ++ [CreateOutput out; Chmod out])%list.

(** A run for a model of format [fmt]: reads of input files, then the
    accesses above, all of them when the run returns and a strict prefix of
    them when it fails. *)
Definition airborne_run (fmt : format) (c : M IceBridge.product) : Prop :=
  exists reads tail rest out,
    trace c = (reads ++ tail)%list /\
    forallb is_input reads = true /\
    (tail ++ rest)%list = airborne_accesses fmt out /\
    ((rest = [] /\ exists p, outcome c = inr p /\ IceBridge.path p = out) \/
     (rest <> [] /\ exists e, outcome c = inl e)).

(** The format is the one the chain of models binds for [TIDE_MODEL]; for
    an identifier that the chain does not know, the run fails without any
    file access. *)
Definition airborne_protocol (TIDE_MODEL : string)
    (c : M IceBridge.product) : Prop :=
  match select_model TIDE_MODEL with
  | Some m => airborne_run (model_format m) c
  | None => trace c = [] /\ exists e, outcome c = inl e
  end.

Lemma protocol_reads {A : Type} (fmt : format) (c : M A)
    (k : A -> M IceBridge.product) :
  reads_only c -> (forall a, airborne_run fmt (k a)) ->
  airborne_run fmt (bind c k).
Proof.
  unfold reads_only, only, airborne_run, trace, outcome.
  intros Hc Hk. destruct c as [t [e | a]]; cbn [fst] in Hc.
  - exists t, [], (airborne_accesses fmt ""), "".
    cbn [bind fst snd]. rewrite app_nil_r.
    repeat split; try assumption.
    right. split; [discriminate | now exists e].
  - destruct (Hk a) as (reads & tail & rest & out & Et & Hr & Ep & H).
    exists (t ++ reads)%list, tail, rest, out.
    unfold bind. destruct (k a) as [t' r]. cbn [fst snd] in *.
    rewrite Et, app_assoc, forallb_app, Hc, Hr. auto.
Qed.

Lemma protocol_tail (fmt : format) (out : string)
    (c : M IceBridge.product) :
  follows (airborne_accesses fmt out) (fun p => IceBridge.path p = out) c ->
  airborne_run fmt c.
Proof.
  intros (rest & E & H). exists [], (fst c), rest, out.
  unfold trace, outcome. auto.
Qed.

Lemma silent_reads_only {A : Type} (c : M A) : fst c = [] -> reads_only c.
Proof. unfold reads_only, only, trace. now intros ->. Qed.

Lemma bind_emit_ret {A B : Type} (ev : event) (x : A) (k : A -> M B) :
  bind (bind (emit ev) (fun _ => ret x)) k = bind (emit ev) (fun _ => k x).
Proof. unfold bind, emit, ret. destruct (k x). reflexivity. Qed.

(** X5.  Every run of the airborne driver, successful or not, accesses
    files in one order.  For a model of the catalog it only reads input
    files until the model is read; then come the model, the delta-time
    table exactly when the format of that model is GOT or FES, the creation
    of one output file and the setting of its permission bits.  A run that
    fails stops somewhere in this sequence, before the permission bits are
    set; a run that returns has gone through all of it, and the file it
    created is the one of the product.  For an identifier outside the
    catalog the run fails without any file access. *)
Theorem airborne_file_accesses (S : services) (fs : IceBridge.filesystem)
    (o : options) (arg TIDE_MODEL : string) :
  airborne_protocol TIDE_MODEL
    (IceBridge.compute_tides_icebridge_data S fs o arg TIDE_MODEL).
Proof.
  unfold airborne_protocol, IceBridge.compute_tides_icebridge_data.
  destruct (select_model TIDE_MODEL) as [m0 |].
  2: { destruct (IceBridge.parse_arg (IceBridge.user_home fs) arg)
         as [[input_file sub] |]; cbn; split; try reflexivity; eexists;
         reflexivity. }
  apply protocol_reads; [apply only_lift | intros [input_file sub]].
  cbv zeta. unfold var at 1. cbn [lift]. rewrite bind_ret_l.
  set (m := m0).
  apply protocol_reads; [apply only_lift | intros OIB].
  apply protocol_reads;
    [apply silent_reads_only, date_texts_silent | intros date].
  apply protocol_reads;
    [apply read_data_reads_only | intros [[dinput file_lines] HEM]].
  apply protocol_reads; [apply only_lift | intros time].
  apply protocol_reads; [apply only_lift | intros lon'].
  apply protocol_reads; [apply only_lift | intros lat'].
  apply (protocol_tail (model_format m0)
           (match outcome (IceBridge.output_filename HEM TIDE_MODEL OIB date
                             time) with
            | inr FILENAME => Path.join (Path.dirname input_file) FILENAME
            | inl _ => ""
            end)).
  unfold airborne_accesses.
  apply follows_emit.
  apply follows_silent;
    [apply silent_lift | destruct (model_format m0); discriminate
    | intros hc _].
  assert (forall (k : list float -> M IceBridge.product) x y proto Q,
            (forall z, follows proto Q (k z)) ->
            follows (delta_accesses (model_format m) ++ proto)%list Q
              (bind (match model_format m with
                     | GOT | FES => emit ReadDeltaTime ;;; ret x
                     | _ => ret y
                     end) k)) as Hdelta.
  { intros k x y proto Q H. destruct (model_format m);
      cbn [delta_accesses app];
      rewrite ?bind_ret_l, ?bind_emit_ret; try apply H;
      apply follows_emit; apply H. }
  apply Hdelta. clear Hdelta. intros deltat.
  apply follows_silent;
    [apply output_filename_silent | discriminate | intros FILENAME HF].
  unfold outcome. rewrite HF.
  apply follows_create.
  apply follows_silent;
    [apply predict_silent | discriminate | intros [tide mask] _].
  do 3 (apply follows_silent;
        [apply create_dataset_silent | discriminate | intros ? _]).
  do 4 (apply follows_silent;
        [apply silent_lift | discriminate | intros ? _]).
  apply follows_chmod. apply follows_ret. reflexivity.
Qed.

Lemma predict_slice_silent S fmt hc tide_time deltat data mask :
  fst (ATL11.predict_slice S fmt hc tide_time deltat data mask) = [].
Proof. unfold ATL11.predict_slice. cbv zeta. repeat silent_step. Qed.

Lemma along_track_cycles_silent S fmt hc tide_time deltat cycles :
  forall data mask,
    fst (ATL11.along_track_cycles S fmt hc tide_time deltat cycles data mask)
      = [].
Proof.
  induction cycles as [| c cycles IH]; intros data mask; [reflexivity |].
  cbn [ATL11.along_track_cycles].
  apply silent_bind; [apply predict_slice_silent | intros r; apply IH].
Qed.

Lemma silent_only {A : Type} kind (c : M A) : fst c = [] -> only kind c.
Proof. unfold only, trace. now intros ->. Qed.

Lemma beam_pair_tides_models_only S env o TIDE_MODEL model sdp ptx :
  only is_model (ATL11.beam_pair_tides S env o TIDE_MODEL model sdp ptx).
Proof.
  unfold ATL11.beam_pair_tides, ATL11.along_track, ATL11.crossing_track,
    ATL11.constants, ATL11.reads_delta_file, var.
  cbv zeta.
  repeat first
    [ apply silent_only, along_track_cycles_silent
    | apply silent_only, predict_slice_silent
    | only_step ].
Qed.

Lemma all_ranges_silent gs : forall r, fst (ATL11.all_ranges r gs) = [].
Proof.
  induction gs as [| g gs IH]; intros r; [reflexivity |].
  cbn [ATL11.all_ranges]. apply silent_bind; [| intros r'; apply IH].
  unfold ATL11.pair_ranges. cbv zeta. repeat silent_step.
Qed.

Lemma trace_bind_emit {A : Type} (ev : event) (k : unit -> M A) :
  trace (bind (emit ev) k) = ev :: trace (k tt) /\
  outcome (bind (emit ev) k) = outcome (k tt).
Proof. unfold bind, emit, trace, outcome. now destruct (k tt). Qed.

Lemma trace_bind_value {A B : Type} (t : list event) (a : A)
    (k : A -> M B) :
  trace (bind (t, inr a) k) = (t ++ trace (k a))%list /\
  outcome (bind (t, inr a) k) = outcome (k a).
Proof. unfold bind, trace, outcome. now destruct (k a). Qed.

Lemma bind_assoc {A B C : Type} (c : M A) (k : A -> M B) (k' : B -> M C) :
  bind (bind c k) k' = bind c (fun a => bind (k a) k').
Proof.
  destruct c as [t0 [e | a]]; [reflexivity |].
  unfold bind. destruct (k a) as [t1 [e | b]]; [reflexivity |].
  destruct (k' b) as [t2 r]. now rewrite app_assoc.
Qed.

(** The name the repeat-track driver gives to the output file:
    [os.path.join(DIRECTORY, OUTPUT_FILE)]. *)
Definition repeat_track_output (INPUT_FILE TIDE_MODEL : string) : string :=
  Path.join (Path.dirname INPUT_FILE)
    (ATL11.output_file INPUT_FILE TIDE_MODEL).

(** The file accesses of a run of the repeat-track driver: the input file,
    then model files and delta-time tables only, then the creation of the
    output file, at the expansion of its name, and the permission bits, at
    the name itself. *)
Definition repeat_track_protocol (env : ATL11.environment)
    (INPUT_FILE TIDE_MODEL : string) (c : M ATL11.product) : Prop :=
  let out := repeat_track_output INPUT_FILE TIDE_MODEL in
  let created := Path.expanduser (ATL11.user_home env) out in
  exists models tail rest,
    trace c = (ReadInput INPUT_FILE :: models ++ tail)%list /\
    forallb is_model models = true /\
    (tail ++ rest)%list = [CreateOutput created; Chmod out] /\
    ((rest = [] /\ exists p, outcome c = inr p /\ ATL11.path p = out) \/
     (rest <> [] /\ exists e, outcome c = inl e)).

(** A run creates a file only where the surroundings allow it, and only
    once the input is read and the tides of all its beam pairs are
    computed. *)
Definition created_after_pairs (S : services) (env : ATL11.environment)
    (o : options) (INPUT_FILE TIDE_MODEL : string) (c : M ATL11.product)
    : Prop :=
  forall path, In (CreateOutput path) (trace c) ->
    path = Path.expanduser (ATL11.user_home env)
             (repeat_track_output INPUT_FILE TIDE_MODEL) /\
    ATL11.can_create env path = true /\
    exists mds t gs,
      ATL11.read_HDF5_ATL11 env INPUT_FILE = Some mds /\
      mapM (ATL11.beam_pair_tides S env o TIDE_MODEL
              (select_model TIDE_MODEL) (ATL11.atlas_sdp_gps_epoch mds))
           (ATL11.sorted (ATL11.IS2_atl11_pairs mds)) = (t, inr gs).

Lemma models_create_nothing (t : list event) (path : string) :
  forallb is_model t = true -> ~ In (CreateOutput path) t.
Proof.
  intros H Hin. rewrite forallb_forall in H. specialize (H _ Hin).
  discriminate H.
Qed.

(** The end of a run: the writer, then the permission bits. *)
Lemma write_and_chmod env gs out :
  follows [CreateOutput (Path.expanduser (ATL11.user_home env) out);
           Chmod out]
    (fun p => ATL11.path p = out)
    (p <- ATL11.HDF5_ATL11_tide_write env gs out ;;
     chmod (ATL11.can_chmod env) out ;;; ret p).
Proof.
  unfold ATL11.HDF5_ATL11_tide_write.
  rewrite !bind_assoc. apply follows_create.
  apply follows_silent;
    [apply all_ranges_silent | discriminate | intros r _].
  rewrite !bind_assoc.
  apply follows_silent;
    [apply silent_lift | discriminate | intros tc _].
  rewrite bind_ret_l. apply follows_chmod. apply follows_ret.
  reflexivity.
Qed.

Lemma write_allowed env gs out path :
  In (CreateOutput path)
     (fst (p <- ATL11.HDF5_ATL11_tide_write env gs out ;;
           chmod (ATL11.can_chmod env) out ;;; ret p)) ->
  path = Path.expanduser (ATL11.user_home env) out /\
  ATL11.can_create env path = true.
Proof.
  intros Hin.
  assert (path = Path.expanduser (ATL11.user_home env) out) as ->.
  { destruct (write_and_chmod env gs out) as (rest & E & _).
    assert (In (CreateOutput path)
              [CreateOutput (Path.expanduser (ATL11.user_home env) out);
               Chmod out]) as H
      by (rewrite <- E; apply in_or_app; left; exact Hin).
    destruct H as [H | [H | []]]; [| discriminate H].
    now inversion H. }
  split; [reflexivity |].
  unfold ATL11.HDF5_ATL11_tide_write, create in Hin.
  destruct (ATL11.can_create env _); [reflexivity |].
  cbn in Hin. contradiction.
Qed.

(** X6.  Every run of the repeat-track driver, successful or not, accesses
    files in one order: the input file first, then model files and
    delta-time tables only while the tides of the beam pairs are computed,
    then the creation of the output file and the setting of the permission
    bits.  The output file is named [os.path.join] of the directory of the
    input and of the output name derived from the input name and the
    model; it is created at the expansion of that name (a leading [~]
    replaced by the home directory), only where a file can be created, and
    only once the tides of all beam pairs are computed; the permission
    bits are set at the name as it is.  A run that fails stops somewhere
    in this sequence, before the permission bits are set; a run that
    returns has gone through all of it. *)
Theorem repeat_track_file_accesses (S : services) (env : ATL11.environment)
    (o : options) (INPUT_FILE TIDE_MODEL : string) :
  repeat_track_protocol env INPUT_FILE TIDE_MODEL
    (ATL11.compute_tides_ICESat2 S env o INPUT_FILE TIDE_MODEL) /\
  created_after_pairs S env o INPUT_FILE TIDE_MODEL
    (ATL11.compute_tides_ICESat2 S env o INPUT_FILE TIDE_MODEL).
Proof.
  unfold repeat_track_protocol, created_after_pairs,
    ATL11.compute_tides_ICESat2.
  cbv zeta. fold (repeat_track_output INPUT_FILE TIDE_MODEL).
  set (out := repeat_track_output INPUT_FILE TIDE_MODEL).
  set (created := Path.expanduser (ATL11.user_home env) out).
  match goal with
  | |- context [bind (emit (ReadInput INPUT_FILE)) ?k] =>
      destruct (trace_bind_emit (ReadInput INPUT_FILE) k) as [Et Eo]
  end.
  rewrite Et, Eo. clear Et Eo.
  destruct (ATL11.read_HDF5_ATL11 env INPUT_FILE) as [mds |].
  2: { split.
       - exists [], [], [CreateOutput created; Chmod out]. cbn.
         repeat split. right. split; [discriminate | now eexists].
       - cbn. intros path [H | []]. discriminate H. }
  cbn [lift]. rewrite bind_ret_l.
  pose proof (only_mapM is_model
                (ATL11.beam_pair_tides S env o TIDE_MODEL
                   (select_model TIDE_MODEL) (ATL11.atlas_sdp_gps_epoch mds))
                (ATL11.sorted (ATL11.IS2_atl11_pairs mds))
                (beam_pair_tides_models_only S env o TIDE_MODEL _ _))
    as Hpairs.
  destruct (mapM _ _) as [t [e | gs]] eqn:Hm; unfold only, trace in Hpairs;
    cbn [fst] in Hpairs.
  - split.
    + exists t, [], [CreateOutput created; Chmod out].
      cbn. rewrite app_nil_r.
      repeat split; try assumption.
      right. split; [discriminate | now eexists].
    + cbn. intros path [H | H]; [discriminate H |].
      destruct (models_create_nothing _ _ Hpairs H).
  - match goal with
    | |- context [bind (t, inr gs) ?k] =>
        destruct (trace_bind_value t gs k) as [Et Eo]
    end.
    rewrite Et, Eo. clear Et Eo. split.
    + destruct (write_and_chmod env gs out) as (rest & E & H).
      exists t, (fst (p <- ATL11.HDF5_ATL11_tide_write env gs out ;;
                      chmod (ATL11.can_chmod env) out ;;; ret p)), rest.
      unfold trace, outcome in *. auto.
    + intros path [H | H]; [discriminate H |].
      apply in_app_or in H. destruct H as [H | H];
        [destruct (models_create_nothing _ _ Hpairs H) |].
      destruct (write_allowed env gs out path H) as [-> Hc].
      split; [reflexivity |]. split; [exact Hc |].
      exists mds, t, gs. split; [reflexivity | exact Hm].
Qed.

Example relative_input :
  repeat_track_output "rel/tracks.h5" "CATS2008" =
    "rel/rel/tracks_CATS2008_TIDES.h5".
Proof. vm_compute. reflexivity. Qed.

Example home_input :
  Path.expanduser Sample.home
    (repeat_track_output "~/ATL11_000110_0306_003_01.h5" "CATS2008") =
    "/home/user/ATL11_CATS2008_TIDES_000110_0306_003_01.h5".
Proof. vm_compute. reflexivity. Qed.

(** ** Subsetters that select nothing *)

Lemma append_empty (s : string) : (s ++ "")%string = s.
Proof. induction s as [| a s IH]; cbn; [reflexivity | now rewrite IH]. Qed.

Lemma parse_arg_plain (home : string -> option string)
    (input_file : string) :
  plain input_file = true ->
  IceBridge.parse_arg home input_file =
    Some (Path.expanduser home input_file, None).
Proof.
  intros Hp. unfold IceBridge.parse_arg, rmatch.
  change (run IceBridge.subsetter_rx input_file []
            (fun s' c' => Some (s', c')))
    with (run (Star false dot) input_file [] (after_name input_file)).
  rewrite <- (append_empty input_file) at 1.
  rewrite (lazy_dots input_file input_file "" [] _ Hp eq_refl).
  cbn [app group Nat.eqb group_text String.length].
  rewrite Nat.sub_0_r.
  pose proof (substring_prefix input_file "") as E.
  rewrite append_empty in E. cbn [String.length] in E.
  rewrite Nat.sub_0_r in E. rewrite E. reflexivity.
Qed.

Lemma parse_arg_empty (home : string -> option string)
    (input_file : string) :
  plain input_file = true ->
  IceBridge.parse_arg home (input_file ++ "[]") =
    Some (Path.expanduser home input_file, Some []).
Proof.
  intros Hp. unfold IceBridge.parse_arg, rmatch.
  change (run IceBridge.subsetter_rx (input_file ++ "[]") []
            (fun s' c' => Some (s', c')))
    with (run (Star false dot) (input_file ++ "[]") []
            (after_name (input_file ++ "[]"))).
  rewrite (lazy_dots _ _ _ _ _ Hp
             (eq_refl : after_name (input_file ++ "[]") "[]" [] = Some _)).
  cbn [app group Nat.eqb group_text].
  pose proof (substring_prefix input_file "[]") as E.
  cbn [String.length] in *. rewrite E. reflexivity.
Qed.

Lemma parse_arg_reversed (home : string -> option string)
    (input_file : string) :
  plain input_file = true ->
  IceBridge.parse_arg home (input_file ++ "[5-2]") =
    Some (Path.expanduser home input_file, Some []).
Proof.
  intros Hp. unfold IceBridge.parse_arg, rmatch.
  change (run IceBridge.subsetter_rx (input_file ++ "[5-2]") []
            (fun s' c' => Some (s', c')))
    with (run (Star false dot) (input_file ++ "[5-2]") []
            (after_name (input_file ++ "[5-2]"))).
  rewrite (lazy_dots _ _ _ _ _ Hp
             (eq_refl : after_name (input_file ++ "[5-2]") "[5-2]" [] =
                        Some _)).
  cbn [app group Nat.eqb group_text].
  pose proof (substring_prefix input_file "[5-2]") as E.
  cbn [String.length] in *. rewrite E. reflexivity.
Qed.

(** X7.  A subsetter that selects no index is no subsetter: for a file
    name without bracket or newline, the arguments [name[]] and
    [name[5-2]] (a range that runs backwards) are processed exactly as
    [name], the whole file being read and written. *)
Theorem empty_subsetter_is_whole_file (S : services)
    (fs : IceBridge.filesystem) (o : options)
    (input_file TIDE_MODEL : string) :
  plain input_file = true ->
  IceBridge.compute_tides_icebridge_data S fs o (input_file ++ "[]")
    TIDE_MODEL =
    IceBridge.compute_tides_icebridge_data S fs o input_file TIDE_MODEL /\
  IceBridge.compute_tides_icebridge_data S fs o (input_file ++ "[5-2]")
    TIDE_MODEL =
    IceBridge.compute_tides_icebridge_data S fs o input_file TIDE_MODEL.
Proof.
  intros Hp. unfold IceBridge.compute_tides_icebridge_data.
  rewrite (parse_arg_plain _ _ Hp), (parse_arg_empty _ _ Hp),
    (parse_arg_reversed _ _ Hp).
  cbn [lift]. rewrite !bind_ret_l. cbv zeta.
  split; reflexivity.
Qed.

Lemma empty_subsetter_is_whole_file_witness :
  IceBridge.compute_tides_icebridge_data Sample.calm Sample.files
    Sample.options (Sample.icessn_name ++ "[]") "CATS2008" =
    IceBridge.compute_tides_icebridge_data Sample.calm Sample.files
      Sample.options Sample.icessn_name "CATS2008" /\
  IceBridge.compute_tides_icebridge_data Sample.calm Sample.files
    Sample.options (Sample.icessn_name ++ "[5-2]") "CATS2008" =
    IceBridge.compute_tides_icebridge_data Sample.calm Sample.files
      Sample.options Sample.icessn_name "CATS2008".
Proof.
  apply (empty_subsetter_is_whole_file Sample.calm Sample.files
           Sample.options Sample.icessn_name "CATS2008").
  reflexivity.
Defined.

(** ** Level-1B file names *)

Lemma level1b_prefix_unmatched (mission rest : string) (rx : string * re) :
  In mission ["BLATM1B"; "ILATM1B"; "ILNSA1B"] ->
  In rx IceBridge.regex ->
  rmatch (snd rx) (mission ++ rest) = None.
Proof.
  unfold IceBridge.regex. cbn [In]. intros Hm Hrx.
  repeat match goal with
         | H : _ \/ _ |- _ => destruct H as [H | H]
         | H : False |- _ => destruct H
         end; subst; reflexivity.
Qed.

Lemma level1b_instrument (input_file mission rest : string) :
  Path.basename input_file = (mission ++ rest)%string ->
  In mission ["BLATM1B"; "ILATM1B"; "ILNSA1B"] ->
  IceBridge.instrument input_file = None.
Proof.
  intros Hb Hm. unfold IceBridge.instrument. rewrite Hb.
  assert (forall l, incl l IceBridge.regex ->
            fold_left
              (fun OIB (kv : string * re) =>
                 match rmatch (snd kv) (mission ++ rest) with
                 | Some _ => Some (fst kv)
                 | None => OIB
                 end) l None = None) as H.
  { induction l as [| kv l IH]; intros Hl; [reflexivity |].
    cbn [fold_left].
    rewrite (level1b_prefix_unmatched mission rest kv Hm)
      by (apply Hl; now left).
    apply IH. intros x Hx. apply Hl. now right. }
  apply H. apply incl_refl.
Qed.

(** X8.  The driver does not recognise the Level-1B file names that the
    QFIT reader parses: for a file whose base name starts with BLATM1B,
    ILATM1B or ILNSA1B (upper-case B) and a model of the catalog, no
    instrument is determined and the run fails on the unbound variable
    [OIB] before any file is accessed. *)
Theorem level1b_names_are_not_recognised (S : services)
    (fs : IceBridge.filesystem) (o : options)
    (arg TIDE_MODEL input_file mission rest : string)
    (sub : option (list nat)) (m : descriptor) :
  IceBridge.parse_arg (IceBridge.user_home fs) arg =
    Some (input_file, sub) ->
  Path.basename input_file = (mission ++ rest)%string ->
  In mission ["BLATM1B"; "ILATM1B"; "ILNSA1B"] ->
  select_model TIDE_MODEL = Some m ->
  IceBridge.compute_tides_icebridge_data S fs o arg TIDE_MODEL =
    ([], inl (UnboundLocalError "OIB")).
Proof.
  intros Hp Hb Hm Hs. unfold IceBridge.compute_tides_icebridge_data.
  rewrite Hp. cbn [lift]. rewrite bind_ret_l. cbv zeta.
  rewrite Hs, (level1b_instrument _ _ _ Hb Hm). reflexivity.
Qed.

Lemma level1b_names_are_not_recognised_witness :
  IceBridge.compute_tides_icebridge_data Sample.calm Sample.files
    Sample.options "/data/ILATM1B_20110101_120000.ATM4BT4.qi" "CATS2008" =
    ([], inl (UnboundLocalError "OIB")).
Proof.
  destruct (select_model "CATS2008") as [m |] eqn:Em;
    [| vm_compute in Em; discriminate Em].
  apply (level1b_names_are_not_recognised Sample.calm Sample.files
           Sample.options "/data/ILATM1B_20110101_120000.ATM4BT4.qi"
           "CATS2008" "/data/ILATM1B_20110101_120000.ATM4BT4.qi"
           "ILATM1B" "_20110101_120000.ATM4BT4.qi" None m).
  - vm_compute. reflexivity.
  - vm_compute. reflexivity.
  - right. left. reflexivity.
  - exact Em.
Defined.

(** ** Beam pairs without any time *)

Lemma in_insert_pair (x p : string * ATL11.beam_pair) l :
  In x (ATL11.insert_pair p l) <-> x = p \/ In x l.
Proof.
  induction l as [| q l IH]; cbn [ATL11.insert_pair].
  - cbn. intuition.
  - destruct (String.leb (fst p) (fst q)); cbn [In]; [intuition |].
    rewrite IH. intuition.
Qed.

Lemma in_sorted (x : string * ATL11.beam_pair) l :
  In x (ATL11.sorted l) <-> In x l.
Proof.
  unfold ATL11.sorted. induction l as [| p l IH]; cbn [fold_right In];
    [reflexivity |].
  rewrite in_insert_pair, IH. intuition.
Qed.

Lemma beam_pair_tides_source S env o TIDE_MODEL model sdp ptx tr g :
  ATL11.beam_pair_tides S env o TIDE_MODEL model sdp ptx = (tr, inr g) ->
  ATL11.name g = fst ptx /\ ATL11.source g = snd ptx.
Proof.
  unfold ATL11.beam_pair_tides. intros H. invert_run H.
  match goal with
  | E : ATL11.Build_group _ _ _ _ _ _ _ = g |- _ => rewrite <- E
  end.
  split; reflexivity.
Qed.

(** The times of a beam pair that are not the fill value. *)
Definition valid_times (b : ATL11.beam_pair) : list float :=
  filter (fun x => negb (x =? ATL11.delta_time_fill b)%float)
    (List.concat (ATL11.delta_time b)).

Definition timeless (b : ATL11.beam_pair) : Prop :=
  Forall (Forall (fun x => (x =? ATL11.delta_time_fill b)%float = true))
    (ATL11.delta_time b).

Lemma timeless_valid_times (b : ATL11.beam_pair) :
  timeless b -> valid_times b = [].
Proof.
  unfold timeless, valid_times.
  induction 1 as [| row rows Hrow _ IH]; [reflexivity |].
  cbn [List.concat]. rewrite filter_app, IH, app_nil_r.
  induction Hrow as [| x row Hx _ IHrow]; [reflexivity |].
  cbn [filter]. rewrite Hx. exact IHrow.
Qed.

Lemma pair_ranges_outcome r g :
  ATL11.pair_ranges r g = ([], inl ValueError) \/
  exists r', ATL11.pair_ranges r g = ([], inr r').
Proof.
  unfold ATL11.pair_ranges. cbv zeta.
  repeat match goal with
         | |- context [lift ValueError ?x] =>
             destruct x; cbn [lift bind ret raise];
             [| left; reflexivity]
         end.
  right. eexists. reflexivity.
Qed.

Lemma pair_ranges_timeless r g :
  valid_times (ATL11.source g) = [] ->
  ATL11.pair_ranges r g = ([], inl ValueError).
Proof.
  intros H. unfold ATL11.pair_ranges. cbv zeta.
  fold (valid_times (ATL11.source g)). rewrite H.
  repeat match goal with
         | |- context [lift ValueError (?f (?p (ATL11.source g)))] =>
             destruct (f (p (ATL11.source g))); cbn [lift bind ret raise];
             [| reflexivity]
         end.
  reflexivity.
Qed.

Lemma all_ranges_timeless gs g :
  In g gs -> valid_times (ATL11.source g) = [] ->
  forall r, ATL11.all_ranges r gs = ([], inl ValueError).
Proof.
  intros Hin Hv. induction gs as [| g0 gs IH]; [destruct Hin |].
  intros r. cbn [ATL11.all_ranges].
  destruct Hin as [-> | Hin].
  - now rewrite pair_ranges_timeless.
  - destruct (pair_ranges_outcome r g0) as [E | [r' E]]; rewrite E;
      [reflexivity |].
    rewrite bind_pure. apply IH. exact Hin.
Qed.

(** X9.  A beam pair whose along-track times are all the fill value makes
    the writer fail: when the input holds such a pair (its name beginning with
    [pt] and a digit) and the tides of all its pairs have been computed, the run
    fails with ValueError (the minimum of no time) after the output file
    has been created, and the permission bits are not set.  (Where the
    output file cannot be created the run fails at the creation.) *)
Theorem timeless_pair_fails_after_creation (S : services)
    (env : ATL11.environment) (o : options) (INPUT_FILE TIDE_MODEL : string)
    (mds : ATL11.granule) (ptx : string) (b : ATL11.beam_pair)
    (t : list event) (gs : list ATL11.group) :
  ATL11.read_HDF5_ATL11 env INPUT_FILE = Some mds ->
  In (ptx, b) (ATL11.IS2_atl11_pairs mds) ->
  ATL11.is_pair_name ptx = true ->
  timeless b ->
  mapM (ATL11.beam_pair_tides S env o TIDE_MODEL (select_model TIDE_MODEL)
          (ATL11.atlas_sdp_gps_epoch mds))
    (ATL11.sorted (ATL11.IS2_atl11_pairs mds)) = (t, inr gs) ->
  let created :=
    Path.expanduser (ATL11.user_home env)
      (Path.join (Path.dirname INPUT_FILE)
         (ATL11.output_file INPUT_FILE TIDE_MODEL)) in
  ATL11.compute_tides_ICESat2 S env o INPUT_FILE TIDE_MODEL =
    if ATL11.can_create env created
    then ((ReadInput INPUT_FILE :: t ++ [CreateOutput created])%list,
          inl ValueError)
    else ((ReadInput INPUT_FILE :: t)%list, inl OSError).
Proof.
  intros Hread Hin Hname Hb Hmap created.
  assert (exists g, In g gs /\ ATL11.name g = ptx /\ ATL11.source g = b)
    as (g & Hg & Hn & Hs).
  { apply in_sorted in Hin. pose proof (mapM_inr _ _ _ _ Hmap) as HF.
    clear Hmap. induction HF as [| a g l l' [ta Ha] _ IH]; [destruct Hin |].
    destruct Hin as [-> | Hin].
    - exists g. split; [now left |].
      exact (beam_pair_tides_source _ _ _ _ _ _ _ _ _ Ha).
    - destruct (IH Hin) as (g' & Hg' & H'). exists g'.
      split; [now right | exact H']. }
  unfold ATL11.compute_tides_ICESat2. cbv zeta.
  rewrite Hread. cbn [lift]. rewrite bind_ret_l, Hmap.
  unfold ATL11.HDF5_ATL11_tide_write, create. fold created.
  destruct (ATL11.can_create env created);
    [| cbn; rewrite app_nil_r; reflexivity].
  cbn [bind emit].
  rewrite (all_ranges_timeless
             (filter (fun g => ATL11.is_pair_name (ATL11.name g)) gs) g).
  - cbn. reflexivity.
  - apply filter_In. split; [exact Hg | now rewrite Hn].
  - rewrite Hs. apply timeless_valid_times. exact Hb.
Qed.

Lemma timeless_pair_fails_after_creation_witness :
  ATL11.compute_tides_ICESat2 Sample.calm Sample.granules Sample.options
    Sample.void_name "CATS2008" =
    ([ReadInput Sample.void_name; ReadModel; ReadModel; ReadModel; ReadModel;
      CreateOutput "/data/ATL11_CATS2008_TIDES_000210_0306_003_01.h5"],
     inl ValueError).
Proof.
  destruct (mapM (ATL11.beam_pair_tides Sample.calm Sample.granules
                    Sample.options "CATS2008" (select_model "CATS2008") 0)
              (ATL11.sorted [("pt3", Sample.pt3); ("pt1", Sample.pt1)]))
    as [t [e | gs]] eqn:Em; [vm_compute in Em; discriminate Em |].
  pose proof (timeless_pair_fails_after_creation Sample.calm Sample.granules
                Sample.options Sample.void_name "CATS2008"
                (ATL11.Build_granule 0
                   [("pt3", Sample.pt3); ("pt1", Sample.pt1)])
                "pt3" Sample.pt3 t gs eq_refl (or_introl eq_refl) eq_refl
                ltac:(repeat constructor) Em) as H.
  rewrite H. vm_compute in Em. injection Em as <- _. reflexivity.
Defined.

(** ** Order of the beam pairs *)

Lemma ascii_compare_trans (a b c : ascii) :
  Ascii.compare a b = Lt -> Ascii.compare b c = Lt -> Ascii.compare a c = Lt.
Proof.
  unfold Ascii.compare. rewrite !N.compare_lt_iff. apply N.lt_trans.
Qed.

Lemma ascii_compare_eq (a b : ascii) : Ascii.compare a b = Eq -> a = b.
Proof.
  unfold Ascii.compare. intros H. apply N.compare_eq in H.
  rewrite <- (ascii_N_embedding a), <- (ascii_N_embedding b). now rewrite H.
Qed.

Lemma string_leb_trans (s1 s2 s3 : string) :
  String.leb s1 s2 = true -> String.leb s2 s3 = true ->
  String.leb s1 s3 = true.
Proof.
  unfold String.leb. revert s2 s3.
  induction s1 as [| c1 s1 IH]; intros [| c2 s2] [| c3 s3];
    cbn [String.compare]; try reflexivity; try discriminate.
  destruct (Ascii.compare c1 c2) eqn:E12; try discriminate;
    destruct (Ascii.compare c2 c3) eqn:E23; try discriminate.
  - apply ascii_compare_eq in E12, E23. subst c2 c3.
    replace (Ascii.compare c1 c1) with Eq
      by (symmetry; unfold Ascii.compare; apply N.compare_refl).
    apply IH.
  - apply ascii_compare_eq in E12. subst c2. now rewrite E23.
  - apply ascii_compare_eq in E23. subst c3. now rewrite E12.
  - now rewrite (ascii_compare_trans _ _ _ E12 E23).
Qed.

(** Every name is at most the names after it. *)
Fixpoint ascending (names : list string) : Prop :=
  match names with
  | [] => True
  | a :: rest =>
      Forall (fun b => String.leb a b = true) rest /\ ascending rest
  end.

Lemma insert_pair_ascending p l :
  ascending (map fst l) -> ascending (map fst (ATL11.insert_pair p l)).
Proof.
  induction l as [| q l IH]; intros H; cbn [ATL11.insert_pair].
  - cbn. auto.
  - destruct H as [Hq Hl].
    destruct (String.leb (fst p) (fst q)) eqn:E; cbn [map ascending].
    + split; [| split; assumption].
      constructor; [exact E |].
      eapply Forall_impl; [| exact Hq].
      intros b Hb. exact (string_leb_trans _ _ _ E Hb).
    + split; [| apply IH; exact Hl].
      apply Forall_forall. intros b Hb.
      apply in_map_iff in Hb. destruct Hb as (x & <- & Hx).
      apply in_insert_pair in Hx. destruct Hx as [-> | Hx].
      * destruct (String.leb_total (fst p) (fst q)) as [H | H];
          [congruence | exact H].
      * rewrite Forall_forall in Hq. apply Hq. now apply in_map.
Qed.

Lemma sorted_ascending l : ascending (map fst (ATL11.sorted l)).
Proof.
  unfold ATL11.sorted. induction l as [| p l IH]; [exact I |].
  cbn [fold_right]. apply insert_pair_ascending. exact IH.
Qed.

Lemma filter_ascending (keep : string -> bool) names :
  ascending names -> ascending (filter keep names).
Proof.
  induction names as [| a names IH]; intros H; [exact I |].
  destruct H as [Ha Hn]. cbn [filter].
  destruct (keep a); [| apply IH; exact Hn].
  split; [| apply IH; exact Hn].
  apply Forall_forall. intros b Hb. apply filter_In in Hb.
  rewrite Forall_forall in Ha. apply Ha. tauto.
Qed.

Lemma mapM_sources S env o TIDE_MODEL model sdp l t gs :
  mapM (ATL11.beam_pair_tides S env o TIDE_MODEL model sdp) l = (t, inr gs) ->
  map (fun g => (ATL11.name g, ATL11.source g)) gs = l.
Proof.
  intros H. apply mapM_inr in H.
  induction H as [| a g l l' [ta Ha] _ IH]; [reflexivity |].
  cbn [map]. rewrite IH.
  destruct (beam_pair_tides_source _ _ _ _ _ _ _ _ _ Ha) as [-> ->].
  now destruct a.
Qed.

Lemma filter_map_swap {A B : Type} (f : A -> B) (keep : B -> bool) l :
  filter keep (map f l) = map f (filter (fun x => keep (f x)) l).
Proof.
  induction l as [| x l IH]; [reflexivity |].
  cbn. destruct (keep (f x)); cbn; now rewrite IH.
Qed.

(** X10.  The groups of a written product are the beam pairs of the input
    whose name begins with [pt] and a digit, each with its own pair, in
    ascending order of name, whatever the order of the pairs in the
    input. *)
Theorem groups_are_the_sorted_pairs (S : services) (env : ATL11.environment)
    (o : options) (INPUT_FILE TIDE_MODEL : string) (mds : ATL11.granule)
    (tr : list event) (p : ATL11.product) :
  ATL11.read_HDF5_ATL11 env INPUT_FILE = Some mds ->
  ATL11.compute_tides_ICESat2 S env o INPUT_FILE TIDE_MODEL = (tr, inr p) ->
  ascending (map ATL11.name (ATL11.groups p)) /\
  forall ptx b,
    In (ptx, b) (map (fun g => (ATL11.name g, ATL11.source g))
                   (ATL11.groups p)) <->
    In (ptx, b) (ATL11.IS2_atl11_pairs mds) /\ ATL11.is_pair_name ptx = true.
Proof.
  intros Hread H.
  unfold ATL11.compute_tides_ICESat2 in H. invert_run H.
  match goal with
  | E : ATL11.read_HDF5_ATL11 _ _ = Some ?v |- _ =>
      rewrite Hread in E; injection E as E; subst v
  end.
  match goal with
  | E : ATL11.HDF5_ATL11_tide_write _ _ _ = (_, inr _) |- _ =>
      unfold ATL11.HDF5_ATL11_tide_write in E; invert_run E
  end.
  subst p.
  match goal with
  | E : ATL11.Build_product _ _ _ _ _ _ _ _ = _ |- _ => rewrite <- E; clear E
  end.
  cbn [ATL11.groups].
  match goal with
  | E : mapM _ _ = (_, inr ?gs) |- _ =>
      pose proof (mapM_sources _ _ _ _ _ _ _ _ _ E) as Hsrc
  end.
  match type of Hsrc with
  | map _ ?gs = _ =>
      assert (map ATL11.name gs =
              map fst (ATL11.sorted (ATL11.IS2_atl11_pairs mds))) as Hnames
        by (rewrite <- Hsrc, map_map; reflexivity);
      assert (map (fun g => (ATL11.name g, ATL11.source g))
                (filter (fun g => ATL11.is_pair_name (ATL11.name g)) gs) =
              filter (fun q => ATL11.is_pair_name (fst q))
                (ATL11.sorted (ATL11.IS2_atl11_pairs mds))) as Hf
        by (rewrite <- Hsrc, filter_map_swap; reflexivity);
      assert (map ATL11.name
                (filter (fun g => ATL11.is_pair_name (ATL11.name g)) gs) =
              filter ATL11.is_pair_name (map ATL11.name gs)) as Hn
        by (rewrite filter_map_swap; reflexivity)
  end.
  split.
  - rewrite Hn, Hnames. apply filter_ascending, sorted_ascending.
  - intros ptx b. rewrite Hf, filter_In, in_sorted. reflexivity.
Qed.

Lemma groups_are_the_sorted_pairs_witness :
  match outcome (ATL11.compute_tides_ICESat2 Sample.calm Sample.granules
                   Sample.options Sample.pairs_name "CATS2008") with
  | inr p =>
      ascending (map ATL11.name (ATL11.groups p)) /\
      In ("pt2", Sample.pt1)
        (map (fun g => (ATL11.name g, ATL11.source g)) (ATL11.groups p))
  | inl _ => False
  end.
Proof.
  destruct (ATL11.compute_tides_ICESat2 Sample.calm Sample.granules
              Sample.options Sample.pairs_name "CATS2008")
    as [tr [e | p]] eqn:E; [vm_compute in E; discriminate E |].
  cbn [outcome snd].
  destruct (groups_are_the_sorted_pairs Sample.calm Sample.granules
              Sample.options Sample.pairs_name "CATS2008"
              (ATL11.Build_granule 0
                 [("pt3", Sample.pt1); ("pt1", Sample.pt1);
                  ("pt2", Sample.pt1)])
              tr p eq_refl E) as [Hasc Hin].
  split; [exact Hasc |].
  apply Hin. split; [right; right; left; reflexivity | reflexivity].
Defined.

(** ** Crossing-track tides *)

Lemma settled_masked (fv : float) (mask : list bool) :
  forall vals i,
    nth_error mask i = Some true ->
    nth_error (settled fv mask vals) i = Some (fv, true).
Proof.
  induction mask as [| b mask IH]; intros vals [| i] H;
    try discriminate H.
  - cbn in H. injection H as ->. reflexivity.
  - cbn in H. destruct b; cbn [settled nth_error]; [now apply IH |].
    destruct vals; cbn [nth_error]; now apply IH.
Qed.

Lemma settled_length (fv : float) (mask : list bool) :
  forall vals, List.length (settled fv mask vals) = List.length mask.
Proof.
  induction mask as [| b mask IH]; intros vals; [reflexivity |].
  destruct b; [| destruct vals]; cbn; now rewrite IH.
Qed.

Lemma slice_mask_nth (hc : list hc_row) (mask : list bool) i b r :
  nth_error mask i = Some b -> nth_error hc i = Some r ->
  nth_error (slice_mask hc mask) i = Some (b || row_masked r).
Proof.
  intros Hb Hr. unfold slice_mask.
  apply (map_zip_nth orb); [exact Hb |].
  rewrite nth_error_map, Hr. reflexivity.
Qed.

(** X11.  The crossing-track tides of a beam pair, when the services
    return one value per time and the model one row of constants per
    crossing point: there is one value and one mask bit per crossing
    point; a point whose time is the fill value, or that the model masks,
    holds the fill value of [h_corr] and is masked; and when no point is
    of either kind, the values are the prediction plus the minor
    corrections over all the points, a slot being masked and set to the
    fill value only where that sum is NaN. *)
Theorem crossing_track_tides (S : services) (env : ATL11.environment)
    (o : options) (TIDE_MODEL : string) (m : descriptor) (sdp_epoch : float)
    (ptx : string) (b : ATL11.beam_pair) (hc : list hc_row) :
  shaped S ->
  harmonic_constants S o TIDE_MODEL m (ATL11.XT_longitude b)
    (ATL11.XT_latitude b) = Some hc ->
  List.length hc = List.length (ATL11.XT_delta_time b) ->
  exists tr data mask,
    ATL11.crossing_track S env o TIDE_MODEL (Some m) sdp_epoch ptx b =
      (tr, inr (data, mask)) /\
    List.length data = List.length (ATL11.XT_delta_time b) /\
    List.length mask = List.length (ATL11.XT_delta_time b) /\
    (forall i x r,
       nth_error (ATL11.XT_delta_time b) i = Some x ->
       nth_error hc i = Some r ->
       (x =? ATL11.XT_delta_time_fill b)%float || row_masked r = true ->
       nth_error data i = Some (ATL11.h_corr_fill b) /\
       nth_error mask i = Some true) /\
    (Forall (fun x => (x =? ATL11.XT_delta_time_fill b)%float = false)
       (ATL11.XT_delta_time b) ->
     Forall (fun r => row_masked r = false) hc ->
     let t := map (ATL11.tide_time_of S sdp_epoch) (ATL11.XT_delta_time b) in
     let deltat := map (ATL11.delta_times S (model_format m)) t in
     let computed :=
       map (fun p : float * float => (fst p + snd p)%float)
         (Np.zip (predict_tide_drift S t hc deltat (model_format m))
            (infer_minor_corrections S t hc deltat (model_format m))) in
     data = map (fun v => if is_nan v then ATL11.h_corr_fill b else v)
              computed /\
     mask = map is_nan computed).
Proof.
  intros HS Hhc Hn.
  remember (List.length (ATL11.XT_delta_time b)) as n eqn:En.
  set (fv := ATL11.h_corr_fill b).
  set (fmt := model_format m).
  set (mask0 := map (fun x => (x =? ATL11.XT_delta_time_fill b)%float)
                  (ATL11.XT_delta_time b)).
  set (t := map (ATL11.tide_time_of S sdp_epoch) (ATL11.XT_delta_time b)).
  set (deltat := map (ATL11.delta_times S fmt) t).
  assert (List.length mask0 = n) as Lm
    by (unfold mask0; now rewrite length_map).
  assert (List.length t = n) as Lt by (unfold t; now rewrite length_map).
  assert (List.length deltat = n) as Ld
    by (unfold deltat; now rewrite length_map).
  destruct (reads_delta_file_returns fmt) as [tr0 Er].
  set (result := settled fv (slice_mask hc mask0)
                   (slice_values S fmt hc t deltat mask0)).
  assert (ATL11.crossing_track S env o TIDE_MODEL (Some m) sdp_epoch ptx b =
          (([ReadModel] ++ tr0 ++ [] ++ [])%list,
           inr (map fst result, map snd result))) as Hrun.
  { unfold ATL11.crossing_track. cbv zeta.
    eapply bind_returns; [apply constants_returns; exact Hhc |].
    cbv beta iota.
    eapply bind_returns; [exact Er |].
    eapply bind_returns.
    - apply predict_slice_spec; fold fmt mask0 t deltat;
        rewrite ?length_map, ?length_seq; try assumption; congruence.
    - cbn [fst snd]. unfold ret. do 2 f_equal.
      fold fv fmt mask0 t deltat. rewrite <- En.
      assert (map (ATL11.fold_nan fv)
                (Np.zip
                   (placed (map negb (slice_mask hc mask0))
                      (slice_values S fmt hc t deltat mask0)
                      (map (ATL11.uninitialized_XT env ptx) (seq 0 n)))
                   (slice_mask hc mask0)) = result) as ->.
      { apply fold_placed.
        - rewrite slice_mask_length by congruence.
          rewrite length_map, length_seq. congruence.
        - apply slice_values_length; [exact HS | congruence | congruence]. }
      reflexivity. }
  assert (List.length result = n) as Lr
    by (unfold result; rewrite settled_length, slice_mask_length;
        congruence).
  do 3 eexists. split; [exact Hrun |].
  split; [now rewrite length_map |]. split; [now rewrite length_map |].
  split.
  - intros i x r Hx Hr Hmasked.
    assert (nth_error result i = Some (fv, true)) as E.
    { unfold result. apply settled_masked.
      rewrite (slice_mask_nth hc mask0 i
                 (x =? ATL11.XT_delta_time_fill b)%float r);
        [now rewrite Hmasked | | exact Hr].
      unfold mask0. rewrite nth_error_map, Hx. reflexivity. }
    rewrite !nth_error_map, E. split; reflexivity.
  - intros Hvalid Hclear. cbv zeta. fold t fmt deltat.
    assert (mask0 = repeat false n) as Em
      by (unfold mask0; rewrite (map_all _ false _ Hvalid); congruence).
    unfold result, slice_values. cbv zeta.
    rewrite !slice_mask_clear by (try assumption; congruence).
    rewrite Em, map_repeat. cbn [negb].
    rewrite !picked_all by congruence.
    rewrite settled_all_clear.
    + rewrite !map_map. cbn [fst snd]. split; reflexivity.
    + destruct (HS t hc deltat fmt) as [Hp Hmi].
      rewrite length_map, zip_same_length; congruence.
Qed.

Lemma crossing_track_tides_witness :
  match select_model "CATS2008" with
  | Some m =>
      exists tr data mask,
        ATL11.crossing_track Sample.calm Sample.surroundings Sample.options
          "CATS2008" (Some m) 0 "pt1" Sample.pt1 = (tr, inr (data, mask)) /\
        data = [1.125]%float /\ mask = [false]
  | None => False
  end.
Proof.
  destruct (select_model "CATS2008") as [m |] eqn:Em;
    vm_compute in Em; [injection Em as <- | discriminate Em].
  match goal with
  | |- context [ATL11.crossing_track _ _ _ _ (Some ?m)] =>
      destruct (crossing_track_tides Sample.calm Sample.surroundings
                  Sample.options "CATS2008" m 0 "pt1" Sample.pt1 _
                  calm_shaped eq_refl eq_refl)
        as (tr & data & mask & Hrun & _ & _ & _ & Hall)
  end.
  exists tr, data, mask. split; [exact Hrun |].
  apply Hall; repeat constructor.
Defined.

(** ** Record size of the airborne product *)

(** X12.  In every product that the airborne driver writes, latitude,
    longitude, tide, its mask and the time have one length, the record
    size, and it is not zero: an input without any record gives no
    product. *)
Theorem airborne_record_size (S : services) (fs : IceBridge.filesystem)
    (o : options) (arg TIDE_MODEL : string) (tr : list event)
    (p : IceBridge.product) :
  IceBridge.compute_tides_icebridge_data S fs o arg TIDE_MODEL =
    (tr, inr p) ->
  exists n,
    (0 < n)%nat /\
    List.length (IceBridge.out_lat p) = n /\
    List.length (IceBridge.out_lon p) = n /\
    List.length (IceBridge.tide p) = n /\
    List.length (IceBridge.tide_mask p) = n /\
    List.length (IceBridge.out_time p) = n.
Proof.
  unfold IceBridge.compute_tides_icebridge_data. intros H.
  apply bind_inr in H. destruct H as (t1 & [input_file sub] & t2 & _ & H & _).
  invert_run H.
  match goal with
  | E : context [let (_, _) := ?x in _] |- _ =>
      destruct x as [[dinput file_lines] HEM]; invert_run E
  end.
  match goal with
  | E : context [let (_, _) := ?x in _] |- _ =>
      destruct x as [tide mask]; invert_run E
  end.
  repeat match goal with
         | E : IceBridge.create_dataset _ _ = (_, inr _) |- _ =>
             apply create_dataset_inr in E; destruct E as [-> ?]
         end.
  match goal with
  | E : IceBridge.predict _ _ _ _ _ _ = (_, inr _) |- _ =>
      unfold IceBridge.predict in E; invert_run E
  end.
  match goal with
  | E : Np.flat_assign _ _ = Some _ |- _ => apply flat_assign_length in E
  end.
  repeat match goal with
         | E : Np.assign_all _ _ = Some _ |- _ => apply assign_all_length in E
         end.
  repeat match goal with
         | E : (_, _) = (_, _) |- _ => inversion E; subst; clear E
         end.
  cbn.
  match goal with
  | E : Np.min ?l = Some _ |- exists n, _ /\ List.length ?l = n /\ _ =>
      exists (List.length l); split;
      [destruct l; [discriminate E | cbn; lia] |]
  end.
  rewrite !length_map, !zip_length
    by (rewrite ?length_map, ?zip_length; congruence).
  rewrite length_map in *.
  repeat split; try congruence.
  rewrite zip_length; congruence.
Qed.

Lemma airborne_record_size_witness :
  match outcome (IceBridge.compute_tides_icebridge_data Sample.calm
                   Sample.files Sample.options Sample.icessn_name
                   "CATS2008") with
  | inr p =>
      List.length (IceBridge.tide p) = List.length (IceBridge.out_time p) /\
      List.length (IceBridge.tide p) = List.length (IceBridge.out_lat p)
  | inl _ => False
  end.
Proof.
  destruct (IceBridge.compute_tides_icebridge_data Sample.calm
              Sample.files Sample.options Sample.icessn_name "CATS2008")
    as [tr [e | p]] eqn:E; [vm_compute in E; discriminate E |].
  cbn [outcome snd].
  destruct (airborne_record_size _ _ _ _ _ _ _ E)
    as (n & _ & H1 & _ & H3 & _ & H5).
  split; congruence.
Defined.

(** ** The loop of [main] over the input files *)

Lemma mapM_returns {A B : Type} (f : A -> M B) (l : list A)
    (results : list (list event * B)) :
  Forall2 (fun a tp => f a = (fst tp, inr (snd tp))) l results ->
  mapM f l = (List.concat (map fst results), inr (map snd results)).
Proof.
  induction 1 as [| a [t b] l results Ha _ IH]; [reflexivity |].
  cbn [mapM map List.concat fst snd] in *. rewrite Ha, IH.
  cbn. now rewrite app_nil_r.
Qed.

Lemma mapM_stops {A B : Type} (f : A -> M B) (done later : list A) (a : A)
    (results : list (list event * B)) (t : list event) (e : error) :
  Forall2 (fun a tp => f a = (fst tp, inr (snd tp))) done results ->
  f a = (t, inl e) ->
  mapM f (done ++ a :: later)%list =
    ((List.concat (map fst results) ++ t)%list, inl e).
Proof.
  intros Hd Ha.
  induction Hd as [| a0 [t0 b0] done results Ha0 _ IH].
  - cbn [app mapM List.concat map]. rewrite Ha. reflexivity.
  - cbn [app mapM map List.concat fst snd] in *. rewrite Ha0, IH.
    cbn. now rewrite app_assoc.
Qed.

(** X13.  [main] of either driver treats the input files in the order
    given and stops at the first file whose run fails: the accesses made
    are those of the runs before it and of the failing run, and no later
    file is touched.  Without any input file the command line is
    rejected. *)
Theorem main_stops_at_first_failure (S : services)
    (fs : IceBridge.filesystem) (env : ATL11.environment) (o : options)
    (tide : string) :
  existsb (String.eqb tide) model_choices = true ->
  (forall done arg later results t e,
     Forall2
       (fun a tp =>
          IceBridge.compute_tides_icebridge_data S fs o a tide =
            (fst tp, inr (snd tp))) done results ->
     IceBridge.compute_tides_icebridge_data S fs o arg tide = (t, inl e) ->
     IceBridge.main S fs o (done ++ arg :: later)%list tide =
       ((List.concat (map fst results) ++ t)%list, inl e)) /\
  (forall done FILE later results t e,
     Forall2
       (fun a tp =>
          ATL11.compute_tides_ICESat2 S env o a tide =
            (fst tp, inr (snd tp))) done results ->
     ATL11.compute_tides_ICESat2 S env o FILE tide = (t, inl e) ->
     ATL11.main S env o (done ++ FILE :: later)%list tide =
       ((List.concat (map fst results) ++ t)%list, inl e)) /\
  IceBridge.main S fs o [] tide = raise SystemExit /\
  ATL11.main S env o [] tide = raise SystemExit.
Proof.
  intros Hm. split; [| split; [| split; reflexivity]].
  - intros done arg later results t e Hd Ha.
    unfold IceBridge.main. rewrite Hm.
    rewrite <- (mapM_stops _ done later arg results t e Hd Ha).
    destruct done; reflexivity.
  - intros done FILE later results t e Hd Ha.
    unfold ATL11.main. rewrite Hm.
    rewrite <- (mapM_stops _ done later FILE results t e Hd Ha).
    destruct done; reflexivity.
Qed.

Lemma main_stops_at_first_failure_witness :
  exists t,
    IceBridge.main Sample.calm Sample.files Sample.options
      [Sample.icessn_name; Sample.equator_name; Sample.lvis_name]
      "CATS2008" = (t, inl ValueError) /\
    In (ReadInput Sample.equator_name) t /\
    ~ In (ReadInput Sample.lvis_name) t.
Proof.
  destruct (IceBridge.compute_tides_icebridge_data Sample.calm Sample.files
              Sample.options Sample.icessn_name "CATS2008")
    as [t1 [e1 | p1]] eqn:E1; [vm_compute in E1; discriminate E1 |].
  destruct (IceBridge.compute_tides_icebridge_data Sample.calm Sample.files
              Sample.options Sample.equator_name "CATS2008")
    as [t2 [e2 | p2]] eqn:E2; [| vm_compute in E2; discriminate E2].
  assert (e2 = ValueError) as ->
    by (vm_compute in E2; injection E2 as _ <-; reflexivity).
  assert (Forall2
            (fun a (tp : list event * IceBridge.product) =>
               IceBridge.compute_tides_icebridge_data Sample.calm
                 Sample.files Sample.options a "CATS2008" =
                 (fst tp, inr (snd tp)))
            [Sample.icessn_name] [(t1, p1)]) as Hd
    by (constructor; [exact E1 | constructor]).
  pose proof (proj1 (main_stops_at_first_failure Sample.calm Sample.files
                       Sample.surroundings Sample.options "CATS2008"
                       eq_refl)
                [Sample.icessn_name] Sample.equator_name [Sample.lvis_name]
                [(t1, p1)] t2 ValueError Hd E2) as H.
  eexists. split; [exact H |].
  vm_compute in E1, E2. injection E1 as <- _. injection E2 as <-.
  split.
  - vm_compute. tauto.
  - vm_compute. intros H'.
    repeat (destruct H' as [H' | H']; [discriminate H' |]). exact H'.
Defined.

(** ** The catalog of models *)

(** [s.endswith(suffix)] *)
Definition ends_with (suffix s : string) : bool :=
  (String.length suffix <=? String.length s)%nat &&
  (substring (String.length s - String.length suffix)
     (String.length suffix) s =? suffix).

Definition bound {A : Type} (x : option A) : Prop := x <> None.

(** The variables that the call of the reader of each format uses. *)
Definition reader_arguments_bound (m : descriptor) : Prop :=
  match model_format m with
  | OTIS | ATLAS => bound (grid_file m) /\ bound (EPSG m) /\ bound (TYPE m)
  | netcdf =>
      bound (grid_file m) /\ bound (TYPE m) /\ bound (SCALE m) /\
      bound (GZIP m)
  | GOT => bound (SCALE m) /\ bound (GZIP m)
  | FES =>
      bound (TYPE m) /\ bound (SCALE m) /\ bound (GZIP m) /\
      bound (constituents m)
  end.

(** X14.  The choices that [main] accepts for the model are exactly the
    models that the drivers know.  For each of them the output variable
    is [tide_load] when the name ends with [_load] and [tide_ocean]
    otherwise, there is at least one model file, and every variable that
    the reader of its format is called with is bound. *)
Theorem catalog_is_consistent (TIDE_MODEL : string) :
  (existsb (String.eqb TIDE_MODEL) model_choices = true <->
   exists m, select_model TIDE_MODEL = Some m) /\
  (forall m,
     select_model TIDE_MODEL = Some m ->
     output_variable m =
       (if ends_with "_load" TIDE_MODEL then tide_load else tide_ocean) /\
     model_file m <> [] /\
     reader_arguments_bound m).
Proof.
  split.
  - split.
    + intros H. apply select_model_known in H.
      destruct (select_model TIDE_MODEL) as [m |]; [now exists m | congruence].
    + intros [m Hm].
      destruct (existsb (String.eqb TIDE_MODEL) model_choices) eqn:E;
        [reflexivity |].
      apply select_model_unknown in E. congruence.
  - intros m. unfold select_model.
    repeat match goal with
           | |- context [(TIDE_MODEL =? ?name)%string] =>
               destruct (String.eqb_spec TIDE_MODEL name) as [-> | _];
               [intros H; injection H as <-;
                repeat split; try reflexivity; discriminate |]
           end.
    discriminate.
Qed.

(** ** Values of the airborne tide *)

Lemma flat_assign_all {A : Type} (src : list A) :
  Np.flat_assign (List.length src) src = Some src.
Proof.
  unfold Np.flat_assign. destruct src as [| x src]; [reflexivity |].
  f_equal. set (l := x :: src).
  apply nth_error_ext. intros i.
  destruct (Nat.lt_ge_cases i (List.length l)) as [Hi | Hi].
  - rewrite nth_error_map, nth_error_seq.
    destruct (Nat.ltb_spec i (List.length l)) as [_ | H]; [| lia].
    cbn [option_map]. rewrite Nat.mod_small by exact Hi.
    symmetry. apply nth_error_nth'. exact Hi.
  - rewrite (proj2 (nth_error_None l i)) by exact Hi.
    apply nth_error_None. rewrite length_map, length_seq. exact Hi.
Qed.

Lemma flat_assign_same {A : Type} (n : nat) (src : list A) :
  List.length src = n -> Np.flat_assign n src = Some src.
Proof. intros <-. apply flat_assign_all. Qed.

(** X15.  The tide that the airborne driver writes is computed at the
    times it writes: with [t] the written times (days since 1992-01-01)
    and the constants of the model at the written positions, one row per
    record, the mask is the mask of the constants, and the tide is the
    prediction at [t] plus the minor corrections at [t] where the mask is
    clear, -9999.0 where it is set (the services returning one value per
    time; the delta times are zero except for the GOT and FES formats). *)
Theorem airborne_tide_values (S : services) (fs : IceBridge.filesystem)
    (o : options) (arg TIDE_MODEL : string) (tr : list event)
    (p : IceBridge.product) :
  shaped S ->
  IceBridge.compute_tides_icebridge_data S fs o arg TIDE_MODEL =
    (tr, inr p) ->
  exists m hc,
    select_model TIDE_MODEL = Some m /\
    harmonic_constants S o TIDE_MODEL m (IceBridge.out_lon p)
      (IceBridge.out_lat p) = Some hc /\
    (List.length hc = List.length (IceBridge.out_time p) ->
     let t := IceBridge.out_time p in
     let deltat :=
       match model_format m with
       | GOT | FES => map (calc_delta_time S) t
       | _ => map (fun _ => 0%float) t
       end in
     let computed :=
       map (fun q : float * float => (fst q + snd q)%float)
         (Np.zip (predict_tide_drift S t hc deltat (model_format m))
            (infer_minor_corrections S t hc deltat (model_format m))) in
     IceBridge.tide_mask p = map row_masked hc /\
     IceBridge.tide p =
       map (fun q : float * bool => if snd q then (-9999)%float else fst q)
         (Np.zip computed (IceBridge.tide_mask p))).
Proof.
  intros HS. unfold IceBridge.compute_tides_icebridge_data. intros H.
  apply bind_inr in H. destruct H as (t1 & [input_file sub] & t2 & _ & H & _).
  invert_run H.
  match goal with
  | E : context [let (_, _) := ?x in _] |- _ =>
      destruct x as [[dinput file_lines] HEM]; invert_run E
  end.
  match goal with
  | E : context [let (_, _) := ?x in _] |- _ =>
      destruct x as [tide mask]; invert_run E
  end.
  repeat match goal with
         | E : IceBridge.create_dataset _ _ = (_, inr _) |- _ =>
             apply create_dataset_inr in E; destruct E as [-> ?]
         end.
  repeat match goal with
         | E : (_, _) = (_, _) |- _ => inversion E; subst; clear E
         end.
  subst p.
  cbn [IceBridge.out_lon IceBridge.out_lat IceBridge.out_time
       IceBridge.tide IceBridge.tide_mask].
  do 2 eexists. split; [eassumption |]. split; [eassumption |].
  intros Hlen. cbv zeta.
  subst file_lines.
  match goal with
  | E : IceBridge.predict _ _ (model_format ?m) ?t ?hc ?deltat = (_, inr _),
    D : _ = (_, inr ?deltat) |- _ =>
      assert (deltat =
              match model_format m with
              | GOT | FES => map (calc_delta_time S) t
              | _ => map (fun _ => 0%float) t
              end) as Hd
        by (destruct (model_format m); cbn in D; inversion D; reflexivity);
      unfold IceBridge.predict in E;
      destruct (HS t hc deltat (model_format m)) as [Hp Hmi];
      rewrite flat_assign_same in E by (rewrite length_map; congruence);
      rewrite !assign_all_same in E by congruence;
      cbn in E; inversion E; subst; clear E
  end.
  split; reflexivity.
Qed.

Lemma airborne_tide_values_witness :
  match outcome (IceBridge.compute_tides_icebridge_data Sample.bounded
                   Sample.files Sample.options Sample.icessn_name
                   "CATS2008") with
  | inr p =>
      IceBridge.tide_mask p =
        [false; false; false; false; false; false; true] /\
      IceBridge.tide p =
        map (fun q : float * bool => if snd q then (-9999)%float else fst q)
          (Np.zip (map (fun t => (t / 4 + 1 + 0)%float)
                     (IceBridge.out_time p))
             (IceBridge.tide_mask p))
  | inl _ => False
  end.
Proof.
  destruct (IceBridge.compute_tides_icebridge_data Sample.bounded
              Sample.files Sample.options Sample.icessn_name "CATS2008")
    as [tr [e | p]] eqn:E; [vm_compute in E; discriminate E |].
  cbn [outcome snd].
  assert (shaped Sample.bounded) as HS
    by (intros t h d f; split; apply length_map).
  destruct (airborne_tide_values Sample.bounded Sample.files Sample.options
              Sample.icessn_name "CATS2008" tr p HS E)
    as (m & hc & Hm & Hhc & H).
  vm_compute in E. injection E as _ <-.
  vm_compute in Hhc. injection Hhc as <-.
  destruct (H eq_refl) as [H1 H2]. split; [exact H1 | exact H2].
Defined.

(** ** Time coverage of the repeat-track product *)

(** The along-track times of some groups that are not the fill value. *)
Definition all_valid_times (gs : list ATL11.group) : list float :=
  List.concat (map (fun g => valid_times (ATL11.source g)) gs).

Lemma all_ranges_times (gs : list ATL11.group) :
  forall r r' tr ts,
  ATL11.all_ranges r gs = (tr, inr r') ->
  no_nan (all_valid_times gs) ->
  running_lower (ATL11.tmn r) infinity ts ->
  running_upper (ATL11.tmx r) neg_infinity ts ->
  running_lower (ATL11.tmn r') infinity (ts ++ all_valid_times gs)%list /\
  running_upper (ATL11.tmx r') neg_infinity (ts ++ all_valid_times gs)%list /\
  (gs <> [] -> all_valid_times gs <> []).
Proof.
  induction gs as [| g gs IH]; intros r r' tr ts H Hn H1 H2.
  - cbn in H. inversion H; subst. unfold all_valid_times.
    cbn. rewrite !app_nil_r.
    split; [assumption |]. split; [assumption |].
    intros Hne. exfalso. apply Hne. reflexivity.
  - cbn [ATL11.all_ranges] in H.
    apply bind_inr in H. destruct H as (t1 & r1 & t2 & Hp & H & _).
    unfold ATL11.pair_ranges in Hp. cbv zeta in Hp.
    fold (valid_times (ATL11.source g)) in Hp. invert_run Hp.
    unfold all_valid_times in *. cbn [map List.concat] in *.
    assert (no_nan (valid_times (ATL11.source g))) as Hg
      by (intros y Hy; apply Hn, in_or_app; left; exact Hy).
    assert (no_nan (List.concat
                      (map (fun g => valid_times (ATL11.source g)) gs)))
      as Hr by (intros y Hy; apply Hn, in_or_app; right; exact Hy).
    match goal with
    | E : ATL11.Build_ranges _ _ _ _ _ _ = r1 |- _ => subst r1
    end.
    repeat match goal with
           | E : Np.min (valid_times _) = Some _ |- _ =>
               pose proof (lower_step _ _ _ _ _ H1 Hg E);
               assert (valid_times (ATL11.source g) <> [])
                 by (intros Hnil; rewrite Hnil in E; discriminate E);
               clear E
           | E : Np.max (valid_times _) = Some _ |- _ =>
               pose proof (upper_step _ _ _ _ _ H2 Hg E); clear E
           end.
    pose proof (IH _ _ _ (ts ++ valid_times (ATL11.source g))%list H Hr)
      as IH'.
    cbn [ATL11.tmn ATL11.tmx] in IH'.
    destruct IH' as (I1 & I2 & _); try assumption.
    rewrite <- !app_assoc in I1, I2.
    split; [exact I1 |]. split; [exact I2 |]. intros _.
    intros Hnil. apply app_eq_nil in Hnil. destruct Hnil. contradiction.
Qed.

(** X16.  The time coverage of a written repeat-track product is that of
    the least and of the greatest along-track time of its beam pairs,
    the times that equal the fill value of their pair being left out
    (stated for times without NaN and at least one beam pair written). *)
Theorem time_coverage_of_valid_times (S : services)
    (env : ATL11.environment) (o : options) (INPUT_FILE TIDE_MODEL : string)
    (tr : list event) (p : ATL11.product) :
  ATL11.compute_tides_ICESat2 S env o INPUT_FILE TIDE_MODEL = (tr, inr p) ->
  ATL11.groups p <> [] ->
  no_nan (all_valid_times (ATL11.groups p)) ->
  exists tmn tmx,
    is_minimum tmn (all_valid_times (ATL11.groups p)) /\
    is_maximum tmx (all_valid_times (ATL11.groups p)) /\
    ATL11.time_coverage env tmn tmx =
      Some (ATL11.time_coverage_start p, ATL11.time_coverage_end p) /\
    forall g x,
      In g (ATL11.groups p) -> In x (valid_times (ATL11.source g)) ->
      (x =? ATL11.delta_time_fill (ATL11.source g))%float = false /\
      In x (List.concat (ATL11.delta_time (ATL11.source g))).
Proof.
  intros H Hne Hn.
  unfold ATL11.compute_tides_ICESat2 in H. invert_run H.
  match goal with
  | E : ATL11.HDF5_ATL11_tide_write _ _ _ = (_, inr _) |- _ =>
      unfold ATL11.HDF5_ATL11_tide_write in E; invert_run E
  end.
  subst p.
  match goal with
  | E : ATL11.Build_product _ _ _ _ _ _ _ _ = _ |- _ =>
      rewrite <- E in *; clear E
  end.
  cbn [ATL11.groups ATL11.time_coverage_start ATL11.time_coverage_end] in *.
  match goal with
  | E : ATL11.all_ranges _ _ = (_, inr ?r) |- _ =>
      destruct (all_ranges_times _ _ _ _ [] E Hn) as (I1 & I2 & I3);
      [| | exists (ATL11.tmn r), (ATL11.tmx r)]
  end.
  1-2: cbn; repeat split; try reflexivity; try (intros y []); left;
    reflexivity.
  cbn [app] in *. specialize (I3 Hne).
  split; [apply lower_attained; assumption |].
  split; [apply upper_attained; assumption |].
  split.
  - match goal with
    | E : ATL11.time_coverage _ _ _ = Some ?tc |- _ =>
        rewrite E; now destruct tc
    end.
  - intros g x _ Hx. unfold valid_times in Hx. apply filter_In in Hx.
    destruct Hx as [Hin Hx]. apply negb_true_iff in Hx. split; assumption.
Qed.

Lemma time_coverage_of_valid_times_witness :
  match outcome (ATL11.compute_tides_ICESat2 Sample.calm Sample.surroundings
                   Sample.options Sample.atl11_name "CATS2008") with
  | inr p =>
      exists tmn tmx,
        is_minimum tmn (all_valid_times (ATL11.groups p)) /\
        is_maximum tmx (all_valid_times (ATL11.groups p)) /\
        ATL11.time_coverage Sample.surroundings tmn tmx =
          Some (ATL11.time_coverage_start p, ATL11.time_coverage_end p)
  | inl _ => False
  end.
Proof.
  destruct (ATL11.compute_tides_ICESat2 Sample.calm Sample.surroundings
              Sample.options Sample.atl11_name "CATS2008")
    as [tr [e | p]] eqn:E; [vm_compute in E; discriminate E |].
  cbn [outcome snd].
  assert (ATL11.groups p <> [] /\ no_nan (all_valid_times (ATL11.groups p)))
    as [Hne Hn].
  { pose proof E as E'. vm_compute in E'. injection E' as _ <-.
    split; [discriminate |].
    intros y Hy. vm_compute in Hy.
    repeat (destruct Hy as [<- | Hy]; [reflexivity |]). destruct Hy. }
  destruct (time_coverage_of_valid_times _ _ _ _ _ _ _ E Hne Hn)
    as (tmn & tmx & H1 & H2 & H3 & _).
  exists tmn, tmx. repeat split; try apply H1; try apply H2; exact H3.
Defined.

(** ** Time scale of the ICESSN files *)

(** X17.  The times of an IceBridge ICESSN file in the csv format (mission
    ILATM2, suffix csv) are taken as UTC: the leap-second service is not
    consulted, so two sets of services with the same calendar conversion
    give the same result, whatever their leap seconds are. *)
Theorem icessn_csv_times_are_utc (S S' : services)
    (fs : IceBridge.filesystem) (input_file : string)
    (input_subsetter : option (list nat)) (c : caps) :
  Np.last_opt (findall IceBridge.icessn_rx input_file) = Some c ->
  group_text c 1 = "ILATM2" ->
  group_text c 5 = "csv" ->
  convert_calendar_dates S = convert_calendar_dates S' ->
  IceBridge.read_ATM_icessn_file S fs input_file input_subsetter =
  IceBridge.read_ATM_icessn_file S' fs input_file input_subsetter.
Proof.
  intros Hc Hm Hs Hcal.
  unfold IceBridge.read_ATM_icessn_file, IceBridge.icessn_arrays.
  rewrite Hc. cbn [lift]. rewrite !bind_ret_l. cbv zeta.
  rewrite Hm, Hs. cbn [String.eqb Ascii.eqb Bool.eqb orb negb andb].
  unfold IceBridge.j2000_seconds. rewrite Hcal. reflexivity.
Qed.

Lemma icessn_csv_times_are_utc_witness :
  IceBridge.read_ATM_icessn_file Sample.calm Sample.files
    Sample.icessn_name None =
  IceBridge.read_ATM_icessn_file
    (Build_services (convert_calendar_dates Sample.calm)
       (fun _ => 18%float) (convert_delta_time Sample.calm)
       (calc_delta_time Sample.calm) (harmonic_constants Sample.calm)
       (predict_tide_drift Sample.calm)
       (infer_minor_corrections Sample.calm))
    Sample.files Sample.icessn_name None.
Proof.
  destruct (Np.last_opt (findall IceBridge.icessn_rx Sample.icessn_name))
    as [c |] eqn:Ec; [| vm_compute in Ec; discriminate Ec].
  apply (icessn_csv_times_are_utc _ _ _ _ _ c Ec);
    vm_compute in Ec; injection Ec as <-; reflexivity.
Defined.

(** ** The subsetter and the whole file *)

Lemma bind_run {A B : Type} (c : M A) (k : A -> M B) a b :
  (exists t, c = (t, inr a)) -> (exists t', k a = (t', inr b)) ->
  exists t'', bind c k = (t'', inr b).
Proof.
  intros [t ->] [t' H]. exists (t ++ t')%list. unfold bind. now rewrite H.
Qed.

Lemma lift_run {A : Type} (e : error) (o : option A) (a : A) :
  o = Some a -> lift e o = ([], inr a).
Proof. now intros ->. Qed.

(** Replays the steps of a run that is known to return. *)
Ltac replay :=
  repeat match goal with
         | E1 : ?c = (_, inr _), E2 : ?c = (_, inr _) |- _ =>
             rewrite E1 in E2; inversion E2; subst; clear E2
         end;
  repeat first
    [ progress cbv beta iota
    | eexists; eassumption
    | eexists; apply lift_run; eassumption
    | eexists; unfold var; apply lift_run; eassumption
    | eapply bind_run
    | eexists; reflexivity ].

Lemma icessn_arrays_subsetter S fs f i idx t0 d0 n0 :
  IceBridge.icessn_arrays S fs f None = (t0, inr (d0, n0)) ->
  exists t, IceBridge.icessn_arrays S fs f (Some (i :: idx)) =
              (t, inr (d0, Datatypes.S (List.length idx))).
Proof.
  unfold IceBridge.icessn_arrays, IceBridge.file_length.
  cbn [IceBridge.truthy List.length].
  intros H. invert_run H.
  match goal with
  | E : context [let (_, _) := ?x in _] |- _ =>
      destruct x as [[year month] day];
      apply ret_inr in E; destruct E as [E _]; inversion E; subst
  end.
  replay.
Qed.

Lemma qfit_arrays_subsetter S fs f i idx t0 d0 n0 :
  IceBridge.qfit_arrays S fs f None = (t0, inr (d0, n0)) ->
  exists t, IceBridge.qfit_arrays S fs f (Some (i :: idx)) =
              (t, inr (d0, Datatypes.S (List.length idx))).
Proof.
  unfold IceBridge.qfit_arrays, IceBridge.file_length.
  cbn [IceBridge.truthy List.length].
  intros H. invert_run H.
  match goal with
  | E : context [let (_, _) := ?x in _] |- _ =>
      destruct x as [[[[lat lon] data] hms] file_lines]; invert_run E
  end.
  match goal with
  | E : context [let (_, _) := ?x in _] |- _ =>
      destruct x as [[year month] day];
      apply ret_inr in E; destruct E as [E _]; inversion E; subst
  end.
  eapply bind_run; [eexists; apply lift_run; eassumption | cbv beta].
  match goal with
  | E : (if ?a then _ else if ?b then _ else _) = _ |- _ =>
      destruct a; [| destruct b]; invert_run E
  end.
  all: repeat match goal with
         | E : (_, _) = (_, _) |- _ => inversion E; subst; clear E
         end.
  all: replay.
Qed.

Lemma lvis_arrays_subsetter fs f i idx t0 d0 n0 REGION :
  IceBridge.lvis_arrays fs f None = (t0, inr (d0, n0, REGION)) ->
  exists t, IceBridge.lvis_arrays fs f (Some (i :: idx)) =
              (t, inr (d0, Datatypes.S (List.length idx), REGION)).
Proof.
  unfold IceBridge.lvis_arrays, IceBridge.file_length.
  cbn [IceBridge.truthy List.length].
  intros H. invert_run H.
  match goal with
  | E : context [let (_, _) := ?x in _] |- _ =>
      destruct x as [[[data lon'] lat'] error];
      apply ret_inr in E; destruct E as [E _]; inversion E; subst
  end.
  replay.
Qed.

(** *** The shots 0, 1, 2 and 5 *)

Lemma SFleb_false_ltb (x y : spec_float) :
  x <> S754_nan -> y <> S754_nan ->
  SFleb y x = false -> SFltb x y = true.
Proof. unfold SFltb, SFleb, SFcompare. compare_cases. Qed.

Lemma leb_false_ltb (x y : float) :
  is_nan x = false -> is_nan y = false ->
  (y <=? x)%float = false -> (x <? y)%float = true.
Proof.
  rewrite !not_nan_spec, ltb_spec, leb_spec. apply SFleb_false_ltb.
Qed.

(** Every variable has six values or more. *)
Definition at_least_6 (d0 : list (string * list float)) : Prop :=
  forall kv, In kv d0 -> 6 <= List.length (snd kv).

Definition shots_0125 (v : list float) : list float :=
  map (fun i => nth i v 0%float) [0; 1; 2; 5].

(** One of the shots 0, 1, 2 and 5 has a latitude that is a number. *)
Definition located_0125 (d0 : list (string * list float)) : Prop :=
  exists lat x,
    Np.lookup d0 "lat" = Some lat /\ In x (shots_0125 lat) /\
    is_nan x = false.

Lemma lookup_records_0125 (d0 : list (string * list float)) (key : string) :
  Np.lookup (records_0125 d0) key = option_map shots_0125 (Np.lookup d0 key).
Proof.
  induction d0 as [| [k v] d0 IH]; [reflexivity |].
  cbn [records_0125 map Np.lookup fst snd].
  destruct (k =? key); [reflexivity | exact IH].
Qed.

Lemma lookup_in (d0 : list (string * list float)) (key : string) v :
  Np.lookup d0 key = Some v -> In (key, v) d0.
Proof.
  induction d0 as [| [k w] d0 IH]; [discriminate |].
  cbn [Np.lookup]. destruct (String.eqb_spec k key) as [-> | _].
  - intros H. inversion H. now left.
  - intros H. right. exact (IH H).
Qed.

Lemma shots_0125_in (v : list float) (x : float) :
  6 <= List.length v -> In x (shots_0125 v) -> In x v.
Proof.
  intros Hlen Hx. unfold shots_0125 in Hx. apply in_map_iff in Hx.
  destruct Hx as (i & <- & Hi). apply nth_In.
  cbn [In] in Hi. lia.
Qed.

Lemma hemisphere_0125 (lat : list float) (x : float) tr HEM :
  6 <= List.length lat ->
  In x (shots_0125 lat) -> is_nan x = false ->
  IceBridge.hemisphere lat = (tr, inr HEM) ->
  IceBridge.hemisphere (shots_0125 lat) = ret HEM.
Proof.
  intros Hlen Hx Hnan H.
  assert (forall y, In y (shots_0125 lat) -> In y lat) as Hsub
    by (intros y; apply shots_0125_in; exact Hlen).
  destruct (hemisphere_cases lat) as [(HN & HS & E) | [(HS & HN & E) | (_ & E)]];
    rewrite E in H; cbn in H; inversion H; subst; clear H.
  - destruct (hemisphere_cases (shots_0125 lat))
      as [(_ & _ & E') | [(HS' & _) | ([[_ HS'] | [HN' _]] & _)]];
      [exact E' | | |].
    + destruct HS' as (y & Hy & Hs). destruct HS. exists y. auto.
    + destruct HS' as (y & Hy & Hs). destruct HS. exists y. auto.
    + destruct HN'. exists x. split; [exact Hx |].
      apply ltb_false_leb; [exact Hnan | reflexivity |].
      destruct (x <? 0)%float eqn:Hs; [| reflexivity].
      destruct HS. exists x. auto.
  - destruct (hemisphere_cases (shots_0125 lat))
      as [(HN' & _) | [(_ & _ & E') | ([[HN' _] | [_ HS']] & _)]];
      [| exact E' | |].
    + destruct HN' as (y & Hy & Hn). destruct HN. exists y. auto.
    + destruct HN' as (y & Hy & Hn). destruct HN. exists y. auto.
    + destruct HS'. exists x. split; [exact Hx |].
      apply leb_false_ltb; [exact Hnan | reflexivity |].
      destruct (0 <=? x)%float eqn:Hn; [| reflexivity].
      destruct HN. exists x. auto.
Qed.

(** The end of an ATM reader under the subsetter, from its end without. *)
Lemma subset_and_locate_0125 d0 n0 n t0 d n' HEM :
  IceBridge.subset_and_locate (d0, n0) None = (t0, inr (d, n', HEM)) ->
  d = d0 /\ n' = n0 /\
  (at_least_6 d0 -> located_0125 d0 ->
   IceBridge.subset_and_locate (d0, n) (Some [0; 1; 2; 5]) =
     ret (records_0125 d0, n, HEM)).
Proof.
  unfold IceBridge.subset_and_locate, IceBridge.dataset.
  cbn [fst snd IceBridge.subset IceBridge.truthy].
  rewrite bind_ret_l. intros H.
  apply bind_inr in H. destruct H as (t1 & lat & t2 & Hlat & H & _).
  apply lift_inr in Hlat. destruct Hlat as [Hlat _].
  apply bind_inr in H. destruct H as (t3 & HEM' & t4 & Hh & H & _).
  apply ret_inr in H. destruct H as [H _]. inversion H; subst.
  split; [reflexivity |]. split; [reflexivity |].
  intros Hall (lat' & x & Hlat' & Hx & Hnan).
  rewrite Hlat in Hlat'. inversion Hlat'; subst lat'.
  change (mapM _ d) with (IceBridge.subset d (Some [0; 1; 2; 5])).
  rewrite (subset_0125 d Hall), bind_ret_l.
  rewrite lookup_records_0125, Hlat. cbn [option_map lift].
  rewrite bind_ret_l.
  rewrite (hemisphere_0125 lat x _ _
             (Hall _ (lookup_in _ _ _ Hlat)) Hx Hnan Hh).
  rewrite bind_ret_l. reflexivity.
Qed.

Lemma icessn_0125 S fs input_file t0 d0 n0 HEM :
  IceBridge.read_ATM_icessn_file S fs input_file None =
    (t0, inr (d0, n0, HEM)) ->
  at_least_6 d0 -> located_0125 d0 ->
  exists t,
    IceBridge.read_ATM_icessn_file S fs input_file (Some [0; 1; 2; 5]) =
      (t, inr (records_0125 d0, 4, HEM)).
Proof.
  unfold IceBridge.read_ATM_icessn_file. intros H Hall Hloc.
  apply bind_inr in H. destruct H as (t1 & [d n] & t2 & Ha & H & _).
  destruct (subset_and_locate_0125 _ _ 4 _ _ _ _ H) as (<- & _ & E).
  eapply bind_run; [| eexists; exact (E Hall Hloc)].
  exact (icessn_arrays_subsetter _ _ _ 0 [1; 2; 5] _ _ _ Ha).
Qed.

Lemma qfit_0125 S fs input_file t0 d0 n0 HEM :
  IceBridge.read_ATM_qfit_file S fs input_file None =
    (t0, inr (d0, n0, HEM)) ->
  at_least_6 d0 -> located_0125 d0 ->
  exists t,
    IceBridge.read_ATM_qfit_file S fs input_file (Some [0; 1; 2; 5]) =
      (t, inr (records_0125 d0, 4, HEM)).
Proof.
  unfold IceBridge.read_ATM_qfit_file. intros H Hall Hloc.
  apply bind_inr in H. destruct H as (t1 & [d n] & t2 & Ha & H & _).
  destruct (subset_and_locate_0125 _ _ 4 _ _ _ _ H) as (<- & _ & E).
  eapply bind_run; [| eexists; exact (E Hall Hloc)].
  exact (qfit_arrays_subsetter _ _ _ 0 [1; 2; 5] _ _ _ Ha).
Qed.

Lemma lvis_0125 fs input_file t0 d0 n0 HEM :
  IceBridge.read_LVIS_HDF5_file fs input_file None =
    (t0, inr (d0, n0, HEM)) ->
  at_least_6 d0 ->
  exists t,
    IceBridge.read_LVIS_HDF5_file fs input_file (Some [0; 1; 2; 5]) =
      (t, inr (records_0125 d0, 4, HEM)).
Proof.
  unfold IceBridge.read_LVIS_HDF5_file. intros H Hall.
  apply bind_inr in H.
  destruct H as (t1 & [[d n] REGION] & t2 & Ha & H & _).
  cbn [IceBridge.subset IceBridge.truthy] in H. rewrite bind_ret_l in H.
  apply bind_inr in H. destruct H as (t3 & HEM' & t4 & Hh & H & _).
  apply lift_inr in Hh. destruct Hh as [Hh _].
  apply ret_inr in H. destruct H as [H _]. inversion H; subst.
  eapply bind_run;
    [exact (lvis_arrays_subsetter _ _ 0 [1; 2; 5] _ _ _ _ Ha) |].
  cbv beta iota. rewrite (subset_0125 d0 Hall), bind_ret_l, Hh.
  eexists. reflexivity.
Qed.

Lemma read_data_0125 S fs input_file OIB t0 d0 n0 HEM :
  IceBridge.read_data S fs input_file None OIB = (t0, inr (d0, n0, HEM)) ->
  at_least_6 d0 ->
  (OIB = "ATM" \/ OIB = "ATM1b" -> located_0125 d0) ->
  exists t,
    IceBridge.read_data S fs input_file (Some [0; 1; 2; 5]) OIB =
      (t, inr (records_0125 d0, 4, HEM)).
Proof.
  unfold IceBridge.read_data. intros H Hall Hloc.
  destruct (String.eqb_spec OIB "ATM") as [E | _];
    [exact (icessn_0125 _ _ _ _ _ _ _ H Hall (Hloc (or_introl E))) |].
  destruct (String.eqb_spec OIB "ATM1b") as [E | _];
    [exact (qfit_0125 _ _ _ _ _ _ _ H Hall (Hloc (or_intror E))) |].
  exact (lvis_0125 _ _ _ _ _ _ H Hall).
Qed.

(** What a run under the subsetter writes, from what the reader returns
    without subsetter. *)
Lemma written_0125 S fs o name TIDE_MODEL OIB t0 d0 n0 HEM tr p :
  plain name = true ->
  let input_file := Path.expanduser (IceBridge.user_home fs) name in
  IceBridge.instrument input_file = Some OIB ->
  IceBridge.read_data S fs input_file None OIB = (t0, inr (d0, n0, HEM)) ->
  at_least_6 d0 ->
  (OIB = "ATM" \/ OIB = "ATM1b" -> located_0125 d0) ->
  IceBridge.compute_tides_icebridge_data S fs o (name ++ "[0-2,5]")
    TIDE_MODEL = (tr, inr p) ->
  Some (IceBridge.out_lat p) = option_map shots_0125 (Np.lookup d0 "lat") /\
  Some (IceBridge.out_lon p) = option_map shots_0125 (Np.lookup d0 "lon") /\
  Some (IceBridge.out_time p) =
    option_map
      (fun time => map (convert_delta_time S J2000_epoch6 tide_epoch)
                     (shots_0125 time))
      (Np.lookup d0 "time") /\
  List.length (IceBridge.tide p) = 4.
Proof.
  intros Hp input_file Hoib Hread Hall Hloc H.
  destruct (read_data_0125 _ _ _ _ _ _ _ _ Hread Hall Hloc) as [t Hsub].
  pose proof (icebridge_written _ _ _ _ _ _ _ H)
    as (computed & Hc & Htide & _ & Hmask & _).
  unfold IceBridge.compute_tides_icebridge_data in H.
  rewrite (parse_arg_suffix _ _ Hp) in H. cbn [lift] in H.
  rewrite bind_ret_l in H. cbv zeta in H. fold input_file in H.
  rewrite Hoib in H.
  apply bind_inr in H. destruct H as (t1 & m & t2 & _ & H & _).
  unfold var at 1 in H. cbn [lift] in H. rewrite bind_ret_l in H.
  apply bind_inr in H. destruct H as (t3 & date & t4 & _ & H & _).
  rewrite Hsub in H.
  apply bind_inr in H. destruct H as (t5 & r & t6 & Hr & H & _).
  inversion Hr; subst r. clear Hr.
  unfold IceBridge.dataset in H. rewrite !lookup_records_0125 in H.
  invert_run H.
  match goal with
  | E : context [let (_, _) := ?x in _] |- _ =>
      destruct x as [tide mask]; invert_run E
  end.
  repeat match goal with
         | E : IceBridge.create_dataset _ _ = (_, inr _) |- _ =>
             apply create_dataset_inr in E; destruct E as [-> ?]
         end.
  assert (List.length (IceBridge.tide p) = List.length (IceBridge.out_lat p))
    as Hlen.
  { rewrite Htide, length_map, zip_length by exact Hc. congruence. }
  match goal with
  | E : IceBridge.Build_product _ _ _ _ _ _ _ _ _ _ _ _ = p |- _ =>
      rewrite <- E in *
  end.
  cbn [IceBridge.out_lat IceBridge.out_lon IceBridge.out_time
       IceBridge.tide] in *.
  repeat match goal with
         | E : option_map _ ?x = Some _ |- _ =>
             destruct x; cbn [option_map] in E |- *; inversion E; subst;
             clear E
         end.
  repeat split; try reflexivity.
  rewrite Hlen. assumption.
Qed.

(** C5 (amended).  With the suffix "[0-2,5]" after a file name (without
    bracket or newline) the driver reads the same input file as without
    suffix, and the subsetter [0, 1, 2, 5].  For every reader, when the
    file read without subsetter gives variables of six records or more,
    the file read with this subsetter gives exactly four records for every
    variable, the records 0, 1, 2 and 5 of the variable read without
    subsetter, in that order, a record count of 4 and the same hemisphere;
    for the ATM readers, which take the hemisphere from the shots that are
    left, provided that one of these four has a latitude that is a number.
    A run of the driver under the suffix then writes these four latitudes,
    longitudes and times, and four tide values. *)
Theorem subsetter_0_2_5 (S : services) (fs : IceBridge.filesystem)
    (name : string) :
  plain name = true ->
  let input_file := Path.expanduser (IceBridge.user_home fs) name in
  IceBridge.parse_arg (IceBridge.user_home fs) name =
    Some (input_file, None) /\
  IceBridge.parse_arg (IceBridge.user_home fs) (name ++ "[0-2,5]") =
    Some (input_file, Some [0; 1; 2; 5]) /\
  (forall t0 d0 n0 HEM,
     IceBridge.read_ATM_icessn_file S fs input_file None =
       (t0, inr (d0, n0, HEM)) ->
     at_least_6 d0 -> located_0125 d0 ->
     exists t,
       IceBridge.read_ATM_icessn_file S fs input_file (Some [0; 1; 2; 5]) =
         (t, inr (records_0125 d0, 4, HEM))) /\
  (forall t0 d0 n0 HEM,
     IceBridge.read_ATM_qfit_file S fs input_file None =
       (t0, inr (d0, n0, HEM)) ->
     at_least_6 d0 -> located_0125 d0 ->
     exists t,
       IceBridge.read_ATM_qfit_file S fs input_file (Some [0; 1; 2; 5]) =
         (t, inr (records_0125 d0, 4, HEM))) /\
  (forall t0 d0 n0 HEM,
     IceBridge.read_LVIS_HDF5_file fs input_file None =
       (t0, inr (d0, n0, HEM)) ->
     at_least_6 d0 ->
     exists t,
       IceBridge.read_LVIS_HDF5_file fs input_file (Some [0; 1; 2; 5]) =
         (t, inr (records_0125 d0, 4, HEM))) /\
  (forall o TIDE_MODEL OIB t0 d0 n0 HEM tr p,
     IceBridge.instrument input_file = Some OIB ->
     IceBridge.read_data S fs input_file None OIB =
       (t0, inr (d0, n0, HEM)) ->
     at_least_6 d0 ->
     (OIB = "ATM" \/ OIB = "ATM1b" -> located_0125 d0) ->
     IceBridge.compute_tides_icebridge_data S fs o (name ++ "[0-2,5]")
       TIDE_MODEL = (tr, inr p) ->
     Some (IceBridge.out_lat p) =
       option_map shots_0125 (Np.lookup d0 "lat") /\
     Some (IceBridge.out_lon p) =
       option_map shots_0125 (Np.lookup d0 "lon") /\
     Some (IceBridge.out_time p) =
       option_map
         (fun time => map (convert_delta_time S J2000_epoch6 tide_epoch)
                        (shots_0125 time))
         (Np.lookup d0 "time") /\
     List.length (IceBridge.tide p) = 4).
Proof.
  intros Hp input_file.
  split; [exact (parse_arg_plain _ _ Hp) |].
  split; [exact (parse_arg_suffix _ _ Hp) |].
  split; [intros; eapply icessn_0125; eassumption |].
  split; [intros; eapply qfit_0125; eassumption |].
  split; [intros; eapply lvis_0125; eassumption |].
  intros o TIDE_MODEL OIB t0 d0 n0 HEM tr p Hoib Hread Hall Hloc H.
  exact (written_0125 _ _ _ _ _ _ _ _ _ _ _ _ Hp Hoib Hread Hall Hloc H).
Qed.

Lemma subsetter_0_2_5_witness :
  IceBridge.parse_arg (IceBridge.user_home Sample.files)
    (Sample.icessn_name ++ "[0-2,5]") =
    Some (Sample.icessn_name, Some [0; 1; 2; 5]) /\
  match outcome (IceBridge.read_ATM_icessn_file Sample.calm Sample.files
                   Sample.icessn_name None),
        outcome (IceBridge.read_ATM_icessn_file Sample.calm Sample.files
                   Sample.icessn_name (Some [0; 1; 2; 5])) with
  | inr (d0, n0, HEM0), inr (d, n, HEM) =>
      n0 = 7 /\ d = records_0125 d0 /\ n = 4 /\ HEM = HEM0
  | _, _ => False
  end.
Proof.
  pose proof (subsetter_0_2_5 Sample.calm Sample.files Sample.icessn_name
                eq_refl) as (_ & Hparse & Hread & _).
  split; [exact Hparse |].
  destruct (IceBridge.read_ATM_icessn_file Sample.calm Sample.files
              Sample.icessn_name None)
    as [t0 [e | [[d0 n0] HEM0]]] eqn:E0;
    [vm_compute in E0; discriminate E0 |].
  pose proof E0 as E0'. vm_compute in E0'.
  injection E0' as <- <- <- <-.
  destruct (Hread _ _ _ _ E0) as [t E].
  - intros kv Hin. cbn [In] in Hin.
    repeat (destruct Hin as [<- | Hin]; [cbn; lia |]). destruct Hin.
  - eexists. eexists. split; [reflexivity |].
    split; [left; reflexivity | vm_compute; reflexivity].
  - change (IceBridge.read_ATM_icessn_file Sample.calm Sample.files
              Sample.icessn_name (Some [0; 1; 2; 5]))
      with (IceBridge.read_ATM_icessn_file Sample.calm Sample.files
              (Path.expanduser (IceBridge.user_home Sample.files)
                 Sample.icessn_name) (Some [0; 1; 2; 5])).
    rewrite E. cbn [outcome snd]. auto.
Defined.

(** ** Two-digit years in the readers and in the file name *)

Lemma take_map {A B : Type} (f : A -> B) (a : list A) (idx : list nat) :
  Np.take (map f a) idx = option_map (map f) (Np.take a idx).
Proof.
  induction idx as [| i idx IH]; [reflexivity |].
  cbn [Np.take]. rewrite IH, nth_error_map.
  destruct (nth_error a i); [| reflexivity].
  destruct (Np.take a idx); reflexivity.
Qed.

(** [v'] is [v] after the subsetting step. *)
Definition selected {A : Type} (sub : option (list nat)) (v v' : list A)
    : Prop :=
  match IceBridge.truthy sub with
  | Some idx => Np.take v idx = Some v'
  | None => v' = v
  end.

Lemma selected_map {A B : Type} (f : A -> B) sub (v : list A) (w' : list B) :
  selected sub (map f v) w' ->
  exists v', selected sub v v' /\ w' = map f v'.
Proof.
  unfold selected. destruct (IceBridge.truthy sub) as [idx |].
  - rewrite take_map. destruct (Np.take v idx) as [v' |]; [| discriminate].
    cbn. intros H. inversion H. exists v'. auto.
  - intros ->. exists v. auto.
Qed.

Lemma selected_once {A : Type} sub (v v1 v2 : list A) :
  selected sub v v1 -> selected sub v v2 -> v1 = v2.
Proof.
  unfold selected. destruct (IceBridge.truthy sub); congruence.
Qed.

Lemma subset_lookup d0 sub tr d key v :
  IceBridge.subset d0 sub = (tr, inr d) ->
  Np.lookup d0 key = Some v ->
  exists v', Np.lookup d key = Some v' /\ selected sub v v'.
Proof.
  unfold IceBridge.subset, selected.
  destruct (IceBridge.truthy sub) as [idx |].
  - revert tr d. induction d0 as [| [k w] d0 IH]; intros tr d H Hk;
      [discriminate Hk |].
    cbn [mapM fst snd] in H. invert_run H. subst d.
    match goal with
    | E : (_, _) = ?x |- _ => subst x
    end.
    cbn [Np.lookup] in *.
    destruct (k =? key).
    + inversion Hk; subst. eexists. split; [reflexivity | assumption].
    + eapply IH; eassumption.
  - intros H Hk. apply ret_inr in H. destruct H as [<- _]. exists v. auto.
Qed.

Lemma subset_and_locate_subset r sub tr d n HEM :
  IceBridge.subset_and_locate r sub = (tr, inr (d, n, HEM)) ->
  exists t, IceBridge.subset (fst r) sub = (t, inr d).
Proof.
  unfold IceBridge.subset_and_locate. intros H.
  apply bind_inr in H. destruct H as (t1 & d' & t2 & Hs & H & _).
  invert_run H.
  match goal with E : (_, _, _) = (d, n, HEM) |- _ => inversion E; subst end.
  exists t1. exact Hs.
Qed.

(** The times of an ICESSN file are computed from its seconds of the day
    and the year, month and day of the date token. *)
Lemma icessn_dated S fs input_file sub c year month day t d n HEM :
  Np.last_opt (findall IceBridge.icessn_rx input_file) = Some c ->
  IceBridge.year_month_day (group_text c 2) = Some (year, month, day) ->
  IceBridge.read_ATM_icessn_file S fs input_file sub =
    (t, inr (d, n, HEM)) ->
  exists seconds,
    Np.lookup d "seconds" = Some seconds /\
    Np.lookup d "time" =
      Some (map (fun s =>
                   IceBridge.j2000_seconds S
                     ((group_text c 1 =? "BLATM2") ||
                      negb (group_text c 5 =? "csv"))
                     year month day (IceBridge.seconds_of_day s))
              seconds).
Proof.
  intros Hc Hy H. unfold IceBridge.read_ATM_icessn_file in H.
  apply bind_inr in H. destruct H as (t1 & r & t2 & Ha & H & _).
  apply subset_and_locate_subset in H. destruct H as [t3 Hs].
  unfold IceBridge.icessn_arrays in Ha. rewrite Hc in Ha.
  cbn [lift] in Ha. rewrite bind_ret_l in Ha. cbv zeta in Ha.
  rewrite Hy in Ha. invert_run Ha.
  match goal with
  | E : Some _ = Some ?x |- _ => inversion E; subst x; clear E
  end.
  match goal with
  | E : ret _ = (_, inr r) |- _ =>
      apply ret_inr in E; destruct E as [E _]; rewrite <- E in Hs; clear E
  end.
  cbn [fst] in Hs. rewrite map_map in Hs.
  destruct (subset_lookup _ _ _ _ "seconds" _ Hs eq_refl)
    as (seconds & Hl & Hsel).
  destruct (subset_lookup _ _ _ _ "time" _ Hs eq_refl)
    as (time & Hl' & Hsel').
  apply selected_map in Hsel'. destruct Hsel' as (seconds' & Hsel' & ->).
  rewrite (selected_once _ _ _ _ Hsel' Hsel) in Hl'.
  exists seconds. auto.
Qed.

(** The times of a QFIT file are computed from its packed times and the
    year, month and day of the date token. *)
Lemma qfit_dated S fs input_file sub c year month day t d n HEM :
  Np.last_opt (findall IceBridge.qfit_rx input_file) = Some c ->
  IceBridge.year_month_day (group_text c 2) = Some (year, month, day) ->
  IceBridge.read_ATM_qfit_file S fs input_file sub = (t, inr (d, n, HEM)) ->
  exists hms,
    Np.lookup d "time" =
      Some (map (IceBridge.j2000_seconds S true year month day) hms).
Proof.
  intros Hc Hy H. unfold IceBridge.read_ATM_qfit_file in H.
  apply bind_inr in H. destruct H as (t1 & r & t2 & Ha & H & _).
  apply subset_and_locate_subset in H. destruct H as [t3 Hs].
  unfold IceBridge.qfit_arrays in Ha. rewrite Hc in Ha.
  cbn [lift] in Ha. rewrite bind_ret_l in Ha. cbv zeta in Ha.
  rewrite Hy in Ha.
  apply bind_inr in Ha.
  destruct Ha as (t4 & [[[[lat lon] data] hms] file_lines] & t5 & _ & Ha & _).
  invert_run Ha.
  match goal with
  | E : Some _ = Some ?x |- _ => inversion E; subst x; clear E
  end.
  match goal with
  | E : ret _ = (_, inr r) |- _ =>
      apply ret_inr in E; destruct E as [E _]; rewrite <- E in Hs; clear E
  end.
  cbn [fst] in Hs.
  destruct (subset_lookup _ _ _ _ "time" _ Hs eq_refl)
    as (time & Hl' & Hsel').
  apply selected_map in Hsel'. destruct Hsel' as (hms' & _ & ->).
  exists hms'. exact Hl'.
Qed.

(** The name of the output file of an ATM input carries the date texts of
    the date token. *)
Lemma airborne_name_dated S fs o arg TIDE_MODEL OIB input_file sub rx c
    YY1 MM1 DD1 tr p :
  IceBridge.parse_arg (IceBridge.user_home fs) arg =
    Some (input_file, sub) ->
  IceBridge.instrument input_file = Some OIB ->
  OIB = "ATM" \/ OIB = "ATM1b" ->
  Np.lookup IceBridge.regex OIB = Some rx ->
  Np.last_opt (findall rx input_file) = Some c ->
  IceBridge.atm_date_texts (group_text c 2) = ret (Some (YY1, MM1, DD1)) ->
  IceBridge.compute_tides_icebridge_data S fs o arg TIDE_MODEL =
    (tr, inr p) ->
  exists region t0,
    (region = "GR" \/ region = "AN") /\
    IceBridge.path p =
      Path.join (Path.dirname input_file)
        (region ++ "_NASA_" ++ TIDE_MODEL ++ "_TIDES_WGS84_" ++ OIB ++
         YY1 ++ MM1 ++ DD1 ++
         F64.format_f true 5 0 (F64.mod_pos t0 86400) ++ ".H5").
Proof.
  intros Hparse Hoib HO Hrx Hc Htexts H.
  assert (IceBridge.date_texts OIB input_file = ret (Some (YY1, MM1, DD1)))
    as Hdate.
  { unfold IceBridge.date_texts.
    assert ((OIB =? "ATM") || (OIB =? "ATM1b") = true) as ->
      by (destruct HO as [-> | ->]; reflexivity).
    rewrite Hrx. cbn [lift]. rewrite bind_ret_l, Hc. cbn [lift].
    rewrite bind_ret_l. exact Htexts. }
  unfold IceBridge.compute_tides_icebridge_data in H.
  rewrite Hparse in H. cbn [lift] in H. rewrite bind_ret_l in H.
  cbv zeta in H. rewrite Hoib in H.
  apply bind_inr in H. destruct H as (t1 & m & t2 & _ & H & _).
  unfold var at 1 in H. cbn [lift] in H. rewrite bind_ret_l in H.
  rewrite Hdate, bind_ret_l in H.
  apply bind_inr in H.
  destruct H as (t3 & [[dinput file_lines] HEM] & t4 & _ & H & _).
  invert_run H.
  match goal with
  | E : IceBridge.output_filename _ _ _ _ _ = (_, inr _) |- _ =>
      unfold IceBridge.output_filename in E; invert_run E
  end.
  match goal with
  | E : context [let (_, _) := ?x in _] |- _ =>
      destruct x as [tide mask]; invert_run E
  end.
  match goal with
  | E : IceBridge.Build_product _ _ _ _ _ _ _ _ _ _ _ _ = p |- _ =>
      rewrite <- E
  end.
  cbn [IceBridge.path].
  repeat match goal with
         | E : Some _ = Some _ |- _ => inversion E; subst; clear E
         | E : ret _ = (_, inr _) |- _ =>
             apply ret_inr in E; destruct E as [E _]
         end.
  subst.
  match goal with
  | E : Np.lookup IceBridge.hem_flag _ = Some ?region |- _ =>
      exists region; eexists; split; [| reflexivity];
      unfold IceBridge.hem_flag in E; cbn [Np.lookup] in E;
      repeat match type of E with
             | (if ?b then _ else _) = _ => destruct b
             end;
      inversion E; auto
  end.
Qed.

(** C10.  For a date token of six digits in the name of an ATM file, the
    two leading digits yy stand for the year 1900 + yy when yy is 90 or
    more and for 2000 + yy otherwise, in the three places that read the
    token: the ICESSN reader and the QFIT reader compute their times from
    that year (with the month and the day of the next two pairs of
    digits), and the driver prints that same year, in four characters,
    before the texts of the month and the day in the name of the output
    file. *)
Theorem two_digit_year_pivot (d1 d2 d3 d4 d5 d6 : ascii) :
  is_digit d1 = true -> is_digit d2 = true -> is_digit d3 = true ->
  is_digit d4 = true -> is_digit d5 = true -> is_digit d6 = true ->
  let YYMMDD :=
    String d1 (String d2 (String d3 (String d4 (String d5 (String d6 ""))))) in
  let yy := (10 * F64.digit_val d1 + F64.digit_val d2)%Z in
  let year := (if (90 <=? yy)%Z then 1900 + yy else 2000 + yy)%Z in
  let month := (10 * F64.digit_val d3 + F64.digit_val d4)%Z in
  let day := (10 * F64.digit_val d5 + F64.digit_val d6)%Z in
  let MM1 := String d3 (String d4 "") in
  let DD1 := String d5 (String d6 "") in
  IceBridge.year_month_day YYMMDD = Some (F64.of_Z year, month, day) /\
  IceBridge.atm_date_texts YYMMDD =
    ret (Some (F64.string_of_Z year, MM1, DD1)) /\
  (forall S fs input_file sub c t d n HEM,
     Np.last_opt (findall IceBridge.icessn_rx input_file) = Some c ->
     group_text c 2 = YYMMDD ->
     IceBridge.read_ATM_icessn_file S fs input_file sub =
       (t, inr (d, n, HEM)) ->
     exists seconds,
       Np.lookup d "seconds" = Some seconds /\
       Np.lookup d "time" =
         Some (map (fun s =>
                      IceBridge.j2000_seconds S
                        ((group_text c 1 =? "BLATM2") ||
                         negb (group_text c 5 =? "csv"))
                        (F64.of_Z year) month day
                        (IceBridge.seconds_of_day s))
                 seconds)) /\
  (forall S fs input_file sub c t d n HEM,
     Np.last_opt (findall IceBridge.qfit_rx input_file) = Some c ->
     group_text c 2 = YYMMDD ->
     IceBridge.read_ATM_qfit_file S fs input_file sub =
       (t, inr (d, n, HEM)) ->
     exists hms,
       Np.lookup d "time" =
         Some (map (IceBridge.j2000_seconds S true (F64.of_Z year) month day)
                 hms)) /\
  (forall S fs o arg TIDE_MODEL OIB input_file sub rx c tr p,
     IceBridge.parse_arg (IceBridge.user_home fs) arg =
       Some (input_file, sub) ->
     IceBridge.instrument input_file = Some OIB ->
     OIB = "ATM" \/ OIB = "ATM1b" ->
     Np.lookup IceBridge.regex OIB = Some rx ->
     Np.last_opt (findall rx input_file) = Some c ->
     group_text c 2 = YYMMDD ->
     IceBridge.compute_tides_icebridge_data S fs o arg TIDE_MODEL =
       (tr, inr p) ->
     exists region t0,
       (region = "GR" \/ region = "AN") /\
       IceBridge.path p =
         Path.join (Path.dirname input_file)
           (region ++ "_NASA_" ++ TIDE_MODEL ++ "_TIDES_WGS84_" ++ OIB ++
            F64.string_of_Z year ++ MM1 ++ DD1 ++
            F64.format_f true 5 0 (F64.mod_pos t0 86400) ++ ".H5")).
Proof.
  intros H1 H2 H3 H4 H5 H6 YYMMDD yy year month day MM1 DD1.
  destruct (six_digit_token d1 d2 d3 d4 d5 d6 H1 H2 H3 H4 H5 H6)
    as [Hdate Htexts].
  fold YYMMDD yy in Hdate, Htexts. fold year month day in Hdate.
  fold year MM1 DD1 in Htexts.
  split; [exact Hdate |]. split; [exact Htexts |].
  split; [| split].
  - intros S fs input_file sub c t d n HEM Hc Hg H.
    rewrite <- Hg in Hdate.
    exact (icessn_dated _ _ _ _ _ _ _ _ _ _ _ _ Hc Hdate H).
  - intros S fs input_file sub c t d n HEM Hc Hg H.
    rewrite <- Hg in Hdate.
    exact (qfit_dated _ _ _ _ _ _ _ _ _ _ _ _ Hc Hdate H).
  - intros S fs o arg TIDE_MODEL OIB input_file sub rx c tr p
           Hparse Hoib HO Hrx Hc Hg H.
    rewrite <- Hg in Htexts.
    exact (airborne_name_dated _ _ _ _ _ _ _ _ _ _ _ _ _ _ _
             Hparse Hoib HO Hrx Hc Htexts H).
Qed.

Lemma two_digit_year_pivot_witness :
  IceBridge.year_month_day "930623" = Some (F64.of_Z 1993, 6%Z, 23%Z) /\
  IceBridge.atm_date_texts "930623" = ret (Some ("1993", "06", "23")) /\
  exists region t0,
    match outcome (IceBridge.compute_tides_icebridge_data Sample.calm
                     Sample.campaigns Sample.options Sample.early_name
                     "CATS2008") with
    | inr p =>
        (region = "GR" \/ region = "AN") /\
        IceBridge.path p =
          Path.join "/data"
            (region ++ "_NASA_CATS2008_TIDES_WGS84_ATM" ++
             "1993" ++ "06" ++ "23" ++
             F64.format_f true 5 0 (F64.mod_pos t0 86400) ++ ".H5")
    | inl _ => False
    end.
Proof.
  pose proof (two_digit_year_pivot "9" "3" "0" "6" "2" "3"
                eq_refl eq_refl eq_refl eq_refl eq_refl eq_refl)
    as (Hdate & Htexts & _ & _ & Hname).
  split; [exact Hdate |]. split; [exact Htexts |].
  destruct (IceBridge.compute_tides_icebridge_data Sample.calm
              Sample.campaigns Sample.options Sample.early_name "CATS2008")
    as [tr [e | p]] eqn:E; [vm_compute in E; discriminate E |].
  destruct (Np.last_opt (findall IceBridge.icessn_rx Sample.early_name))
    as [c |] eqn:Ec; [| vm_compute in Ec; discriminate Ec].
  refine (Hname Sample.calm Sample.campaigns Sample.options
            Sample.early_name "CATS2008" "ATM" Sample.early_name None
            IceBridge.icessn_rx c tr p _ _ _ _ Ec _ E).
  - vm_compute. reflexivity.
  - vm_compute. reflexivity.
  - left. reflexivity.
  - reflexivity.
  - vm_compute in Ec. injection Ec as <-. reflexivity.
Defined.

(** C5, as stated, fails: a Level-1B file of six shots, read without
    subsetter, gives six records in the northern hemisphere; read with the
    subsetter [0, 1, 2, 5], whose four shots have no latitude, it gives no
    record at all: the reader raises ValueError. *)
Lemma selected_shots_without_latitude :
  (match outcome (IceBridge.read_ATM_qfit_file Sample.calm Sample.level1b
                    Sample.unlocated_name None) with
   | inr (d, n, HEM) => Some (map (fun kv => List.length (snd kv)) d, n, HEM)
   | inl _ => None
   end,
   outcome (IceBridge.read_ATM_qfit_file Sample.calm Sample.level1b
              Sample.unlocated_name (Some [0; 1; 2; 5]))) =
  (Some ([6; 6; 6; 6], 6, "N"), inl ValueError).
Proof. vm_compute. reflexivity. Qed.

(** ** Flat returns in an LVIS file *)

Lemma SFeqb_eqb (x y z : spec_float) :
  SFeqb x y = true -> SFeqb x z = true -> SFeqb y z = true.
Proof. unfold SFeqb, SFcompare. compare_cases. Qed.

Lemma eqb_eqb (x y z : float) :
  (x =? y)%float = true -> (x =? z)%float = true -> (y =? z)%float = true.
Proof. rewrite !eqb_spec. apply SFeqb_eqb. Qed.

(** What the LVIS reader returns, from the datasets of the file. *)
Lemma lvis_read fs input_file t d n HEM :
  IceBridge.read_LVIS_HDF5_file fs input_file None = (t, inr (d, n, HEM)) ->
  exists c release fileID w time data lon lat error,
    Np.last_opt (findall IceBridge.lvis_rx input_file) = Some c /\
    F64.int_of_string (substring 1 2 (group_text c 5)) = Some release /\
    IceBridge.content_of fs input_file = Some (IceBridge.Datasets fileID) /\
    outcome (IceBridge.read_waveforms fileID (18 <=? release)%Z) = inr w /\
    outcome (IceBridge.combine w) = inr (data, lon, lat, error) /\
    d = [("time", time); ("data", data); ("lon", lon); ("lat", lat);
         ("error", error)].
Proof.
  unfold IceBridge.read_LVIS_HDF5_file. intros H.
  apply bind_inr in H.
  destruct H as (t1 & [[d0 n0] REGION] & t2 & Ha & H & _).
  cbn [IceBridge.subset IceBridge.truthy] in H. rewrite bind_ret_l in H.
  invert_run H.
  match goal with E : (_, _, _) = (d, n, HEM) |- _ => inversion E; subst end.
  unfold IceBridge.lvis_arrays in Ha.
  apply bind_inr in Ha. destruct Ha as (t3 & c & t4 & Hc & Ha & _).
  apply lift_inr in Hc. destruct Hc as [Hc _].
  apply bind_inr in Ha. destruct Ha as (t5 & release & t6 & Hr & Ha & _).
  apply lift_inr in Hr. destruct Hr as [Hr _].
  apply bind_inr in Ha. destruct Ha as (t7 & fileID & t8 & Ho & Ha & _).
  apply bind_inr in Ha. destruct Ha as (t9 & lines & t10 & _ & Ha & _).
  apply bind_inr in Ha. destruct Ha as (t11 & w & t12 & Hw & Ha & _).
  apply bind_inr in Ha. destruct Ha as (t13 & time & t14 & _ & Ha & _).
  apply bind_inr in Ha.
  destruct Ha as (t15 & [[[data lon] lat] error] & t16 & Hcb & Ha & _).
  apply ret_inr in Ha. destruct Ha as [Ha _]. inversion Ha; subst.
  exists c, release, fileID, w, time, data, lon, lat, error.
  unfold outcome. rewrite Hw, Hcb. cbn [snd].
  repeat split; try assumption.
  unfold IceBridge.open_datasets in Ho.
  apply bind_inr in Ho. destruct Ho as (? & ? & ? & _ & Ho & _).
  destruct (IceBridge.content_of fs input_file) as [[l | ds] |];
    cbn in Ho; inversion Ho. reflexivity.
Qed.

(** The data value of a flat return. *)
Lemma flat_data (w : IceBridge.waveforms) (m i : nat) (low high : float) :
  same_shape w m ->
  nth_error (IceBridge.elev_low w) i = Some low ->
  nth_error (IceBridge.elev_high w) i = Some high ->
  (low =? high)%float = true ->
  nth_error
    (merged (rough w) (merged (flat w) (zeros w) (IceBridge.elev_low w))
       (IceBridge.elev w)) i = Some low.
Proof.
  intros (He & Hl & Hh & _) Hlow Hhigh Hflat.
  assert (i < m)%nat as Hi
    by (rewrite <- Hl; apply nth_error_Some; congruence).
  assert (List.length (zeros w) = m) as Hz
    by (unfold zeros; rewrite length_map; exact He).
  assert (nth_error (flat w) i = Some (low =? high)%float) as Hfi
    by (unfold flat; apply (map_zip_nth PrimFloat.eqb); assumption).
  assert (nth_error (rough w) i = Some (negb (low =? high)%float)) as Hri
    by (unfold rough;
        apply (map_zip_nth (fun a b => negb (a =? b)%float)); assumption).
  destruct (nth_error_defined (zeros w) i m Hz Hi) as [z Hzi].
  destruct (nth_error_defined (IceBridge.elev w) i m He Hi) as [e Hei].
  pose proof (merged_nth (flat w) (zeros w) (IceBridge.elev_low w)
                i _ _ _ Hfi Hzi Hlow) as H1.
  rewrite (merged_nth (rough w) _ (IceBridge.elev w) i _ _ _ Hri H1 Hei).
  rewrite Hflat. reflexivity.
Qed.

(** C3 (amended).  For every record of an LVIS file whose lowest and
    highest elevations are equal, the reader returns the elevation of the
    lowest point as the data value, whatever the centroid elevation is.
    The uncertainty is taken about the centroid elevation of the record
    ([Elevation_Centroid], or [Elevation_Low + RH50] in the later schema):
    it is the root of the mean of the squared distances of the lowest and
    of the highest point to the centroid, and is exactly 0.0 when the
    centroid elevation equals the lowest and is finite.  (The arrays of
    the file have one shape.) *)
Theorem flat_return (fs : IceBridge.filesystem) (input_file : string)
    (t : list event) (d : list (string * list float)) (n : nat)
    (HEM : string) :
  IceBridge.read_LVIS_HDF5_file fs input_file None = (t, inr (d, n, HEM)) ->
  exists c release fileID w data error,
    Np.last_opt (findall IceBridge.lvis_rx input_file) = Some c /\
    F64.int_of_string (substring 1 2 (group_text c 5)) = Some release /\
    IceBridge.content_of fs input_file = Some (IceBridge.Datasets fileID) /\
    outcome (IceBridge.read_waveforms fileID (18 <=? release)%Z) = inr w /\
    Np.lookup d "data" = Some data /\
    Np.lookup d "error" = Some error /\
    forall m, same_shape w m ->
      forall i low high centroid,
        nth_error (IceBridge.elev_low w) i = Some low ->
        nth_error (IceBridge.elev_high w) i = Some high ->
        nth_error (IceBridge.elev w) i = Some centroid ->
        (low =? high)%float = true ->
        nth_error data i = Some low /\
        nth_error error i =
          Some (PrimFloat.sqrt
                  (((low - centroid) * (low - centroid) +
                    (high - centroid) * (high - centroid)) / 2))%float /\
        ((low =? centroid)%float = true ->
         is_infinity centroid = false ->
         nth_error error i = Some 0%float).
Proof.
  intros H.
  destruct (lvis_read _ _ _ _ _ _ H)
    as (c & release & fileID & w & time & data & lon & lat & error &
        Hc & Hr & Hf & Hw & Hcb & ->).
  exists c, release, fileID, w, data, error.
  repeat (split; [first [assumption | reflexivity] |]).
  intros m Hm i low high centroid Hlow Hhigh Hcen Hflat.
  pose proof (combine_same_shape w m Hm) as E.
  rewrite E in Hcb. cbn [outcome snd] in Hcb. inversion Hcb. subst.
  clear Hcb.
  assert (nth_error
            (map (fun p => IceBridge.rms (fst p) (snd p))
               (Np.zip
                  (map (fun p => IceBridge.square_diff (fst p) (snd p))
                     (Np.zip (IceBridge.elev_low w) (IceBridge.elev w)))
                  (map (fun p => IceBridge.square_diff (fst p) (snd p))
                     (Np.zip (IceBridge.elev_high w) (IceBridge.elev w)))))
            i =
          Some (IceBridge.rms (IceBridge.square_diff low centroid)
                  (IceBridge.square_diff high centroid))) as Herr.
  { apply (map_zip_nth IceBridge.rms);
      apply (map_zip_nth IceBridge.square_diff); assumption. }
  split; [| split].
  - exact (flat_data w m i low high Hm Hlow Hhigh Hflat).
  - exact Herr.
  - intros Hlc Hfin. rewrite Herr.
    rewrite (square_diff_eq low centroid Hlc Hfin),
      (square_diff_eq high centroid (eqb_eqb _ _ _ Hflat Hlc) Hfin).
    reflexivity.
Qed.

Lemma flat_return_witness :
  match outcome (IceBridge.read_LVIS_HDF5_file Sample.archive
                   Sample.flat_name None) with
  | inr (d, _, _) =>
      exists data error,
        Np.lookup d "data" = Some data /\
        Np.lookup d "error" = Some error /\
        nth_error data 0 = Some 100%float /\
        nth_error error 0 = Some 0%float
  | inl _ => False
  end.
Proof.
  destruct (IceBridge.read_LVIS_HDF5_file Sample.archive Sample.flat_name
              None) as [t [e | [[d n] HEM]]] eqn:E;
    [vm_compute in E; discriminate E |].
  cbn [outcome snd].
  destruct (flat_return _ _ _ _ _ _ E)
    as (c & release & fileID & w & data & error &
        Hc & Hr & Hf & Hw & Hd & He & H).
  exists data, error. split; [exact Hd |]. split; [exact He |].
  vm_compute in Hc. injection Hc as <-.
  vm_compute in Hr. injection Hr as <-.
  vm_compute in Hf. injection Hf as <-.
  vm_compute in Hw. injection Hw as <-.
  destruct (H 3 ltac:(repeat split) 0 100%float 100%float 100%float
              eq_refl eq_refl eq_refl eq_refl) as (H1 & _ & H3).
  split; [exact H1 | exact (H3 eq_refl eq_refl)].
Defined.

(** C3, as stated, fails: a flat return at 100 m whose centroid elevation
    is 100.5 m (the second shot of the file) is returned with the data
    value 100 and the uncertainty 0.5, not 0. *)
Lemma flat_return_with_uncertainty :
  match outcome (IceBridge.read_LVIS_HDF5_file Sample.archive
                   Sample.flat_name None) with
  | inr (d, _, _) => (Np.lookup d "data", Np.lookup d "error")
  | inl _ => (None, None)
  end = (Some [100; 100; 202]%float, Some [0; 0.5; 2]%float).
Proof. vm_compute. reflexivity. Qed.


(** ** Cycles of an along-track array *)


(** The tides and the mask bits of one cycle, from the times of that cycle
    alone: the mask of the times that are the fill value, to which the
    mask of the model is added; the prediction and the minor corrections
    over the points that are left; the fill value in the masked slots and
    in place of NaN. *)
Definition cycle_tides (S : services) (fmt : format)
    (sdp_epoch fill_time fill_tide : float) (hc : list hc_row)
    (times : list float) : list (float * bool) :=
  let mask := map (fun x => (x =? fill_time)%float) times in
  let t := map (ATL11.tide_time_of S sdp_epoch) times in
  settled fill_tide (slice_mask hc mask)
    (slice_values S fmt hc t (map (ATL11.delta_times S fmt) t) mask).

Lemma cycle_tides_length S fmt sdp ft fh hc times :
  List.length hc = List.length times ->
  List.length (cycle_tides S fmt sdp ft fh hc times) = List.length times.
Proof.
  intros H. unfold cycle_tides. cbv zeta.
  rewrite settled_length, slice_mask_length; rewrite ?length_map; congruence.
Qed.






